(** * GenerativeGenerator: learning, tendency analysis and note generation

    A shallow embedding of the firmware's core (the note learning system,
    [analyze_learned_notes], the xorshift generator, the generation
    pipeline of [generate_next_note] and the session state machine) and
    the properties its specification states about it; then of the rest
    of [UpdateControls] and [main] (MIDI Control Change, page navigation,
    soft takeover and smoothing of the pots, the clock input and the gate
    output, the initialisation, the pitch CV conversions) and further
    properties the code shows.

    Conventions of the embedding.
    - The firmware keeps its state in global variables; here they are the
      fields of one record, [Globals], and every firmware function is a
      function from [Globals] (explicit state passing).
    - C arrays are lists; an access outside the array is undefined
      behaviour in the firmware and is the fault [None] here.
    - [uint32_t] arithmetic wraps modulo 2^32 and is written out; [int]
      quantities are mathematical integers (every [int] the firmware
      computes in the modelled code stays far below 2^31).
    - [float] arithmetic is taken through an interface, [FloatOps], with
      two implementations: IEEE-754 binary32 (what the hardware computes)
      and exact rational arithmetic (the real-number reading in which the
      specification writes its formulas). *)

From Stdlib Require Import ZArith List Bool Lia QArith Qabs Qminmax Lqa.
From Stdlib Require Import Qpower.
From Stdlib Require Import Floats.SpecFloat.
Import ListNotations.
Local Open Scope Z_scope.

(** ** Floating point *)

(** The operations the firmware applies to [float] values. [f_of_Z] is the
    conversion of an integer to [float], [f_trunc] the integer part
    (rounding toward zero) used by the casts to integer types, [f_ltb]
    the comparison [<]. *)
Class FloatOps (F : Type) : Type := {
  f_of_Z : Z -> F;
  f_add : F -> F -> F;
  f_sub : F -> F -> F;
  f_mul : F -> F -> F;
  f_div : F -> F -> F;
  f_opp : F -> F;
  f_abs : F -> F;
  f_ltb : F -> F -> bool;
  f_trunc : F -> Z
}.

Declare Scope float_scope.
Delimit Scope float_scope with fl.
Infix "+" := f_add : float_scope.
Infix "-" := f_sub : float_scope.
Infix "*" := f_mul : float_scope.
Infix "/" := f_div : float_scope.
Infix "<?" := f_ltb : float_scope.
Notation "x >? y" := (f_ltb y x) : float_scope.
Notation "- x" := (f_opp x) : float_scope.

(** A decimal literal [n/d] of the source, such as [0.3f]: the compiler
    rounds the decimal to the nearest [float], which is what the correctly
    rounded division of the two (exactly representable) integers gives. *)
Definition flit {F} `{FloatOps F} (n d : Z) : F := (f_of_Z n / f_of_Z d)%fl.

(** Casts from [float]. Out of range the C++ conversion is undefined; the
    target's conversion instruction saturates, and so does the model. *)
Definition cast_int {F} `{FloatOps F} (x : F) : Z :=
  Z.max (- 2 ^ 31) (Z.min (2 ^ 31 - 1) (f_trunc x)).

Definition cast_uint32 {F} `{FloatOps F} (x : F) : Z :=
  Z.max 0 (Z.min (2 ^ 32 - 1) (f_trunc x)).

Definition cast_uint8 {F} `{FloatOps F} (x : F) : Z :=
  cast_uint32 x mod 256.

(** *** IEEE-754 binary32 *)

Definition b32_of_Z (n : Z) : spec_float := binary_normalize 24 128 n 0 false.

Definition b32_trunc (x : spec_float) : Z :=
  match x with
  | S754_finite s m e =>
      let v := match e with
               | Zneg k => Z.shiftr (Zpos m) (Zpos k)
               | _ => Z.shiftl (Zpos m) e
               end in
      if s then - v else v
  | S754_infinity s => if s then - 2 ^ 128 else 2 ^ 128
  | _ => 0
  end.

#[export] Instance Binary32 : FloatOps spec_float := {
  f_of_Z := b32_of_Z;
  f_add := SFadd 24 128;
  f_sub := SFsub 24 128;
  f_mul := SFmul 24 128;
  f_div := SFdiv 24 128;
  f_opp := SFopp;
  f_abs := SFabs;
  f_ltb := SFltb;
  f_trunc := b32_trunc
}.

(** *** Exact rational arithmetic *)

Definition Q_ltb (a b : Q) : bool :=
  match Qcompare a b with Lt => true | _ => false end.

Definition Q_trunc (q : Q) : Z := Z.quot (Qnum q) (Zpos (Qden q)).

#[export] Instance Exact : FloatOps Q := {
  f_of_Z := inject_Z;
  f_add := Qplus;
  f_sub := Qminus;
  f_mul := Qmult;
  f_div := Qdiv;
  f_opp := Qopp;
  f_abs := Qabs;
  f_ltb := Q_ltb;
  f_trunc := Q_trunc
}.

(** ** Arrays and loops *)

Definition in_bounds (a : list Z) (i : Z) : bool :=
  (0 <=? i) && (i <? Z.of_nat (length a)).

Definition arr_get (a : list Z) (i : Z) : option Z :=
  if in_bounds a i then nth_error a (Z.to_nat i) else None.

Fixpoint upd (n : nat) (v : Z) (a : list Z) : list Z :=
  match a, n with
  | [], _ => []
  | _ :: t, O => v :: t
  | x :: t, S k => x :: upd k v t
  end.

Definition arr_set (a : list Z) (i v : Z) : option (list Z) :=
  if in_bounds a i then Some (upd (Z.to_nat i) v a) else None.

(** [for(int i = lo; i < lo + n; i++) s = body(i, s)], stopping at a fault. *)
Fixpoint for_range {St : Type} (lo : Z) (n : nat)
    (body : Z -> St -> option St) (s : St) : option St :=
  match n with
  | O => Some s
  | S k => match body lo s with
           | Some s' => for_range (lo + 1) k body s'
           | None => None
           end
  end.

(** ** Constants and enumerations of the firmware *)

Inductive ParamIndex : Type :=
  | PARAM_MOTION | PARAM_MEMORY | PARAM_REGISTER | PARAM_DIRECTION
  | PARAM_PHRASE | PARAM_ENERGY | PARAM_STABILITY | PARAM_FORGETFULNESS
  | PARAM_LEAP_SHAPE | PARAM_DIRECTION_MEMORY | PARAM_HOME_REGISTER
  | PARAM_RANGE_WIDTH
  | PARAM_LEARN_TIMEOUT | PARAM_ECHO_NOTES | PARAM_RESERVED_1 | PARAM_RESERVED_2.

Inductive LearningState : Type :=
  | STATE_IDLE | STATE_LEARNING | STATE_GENERATING.

Definition MIN_LEARN_NOTES : Z := 4.
Definition MAX_LEARN_NOTES : Z := 16.
Definition NOTE_HISTORY_SIZE : Z := 8.
Definition MAX_ATTEMPTS : Z := 4.

Definition u32 (x : Z) : Z := x mod 2 ^ 32.

(** ** The firmware's global state *)

Section Firmware.

Context {F : Type} `{FloatOps F}.

Record LearnedTendencies : Type := {
  interval_counts : list Z;  (* int interval_counts[13] *)
  total_intervals : Z;
  ascending_count : Z;
  descending_count : Z;
  repeat_count : Z;
  register_center : F;
  register_range : F;
  register_min : Z;  (* uint8_t *)
  register_max : Z;  (* uint8_t *)
  most_common_interval : Z;
  second_common_interval : Z
}.

(** [LearnedTendencies()]: every member zero. *)
Definition LearnedTendencies_init : LearnedTendencies :=
  {| interval_counts := repeat 0 13; total_intervals := 0;
     ascending_count := 0; descending_count := 0; repeat_count := 0;
     register_center := f_of_Z 0; register_range := f_of_Z 0;
     register_min := 0; register_max := 0;
     most_common_interval := 0; second_common_interval := 0 |}.

Record Globals : Type := {
  parameters_smoothed : ParamIndex -> F;  (* float parameters_smoothed[TOTAL_PARAMS] *)
  learning_state : LearningState;
  note_buffer : list Z;  (* uint8_t note_buffer[MAX_LEARN_NOTES] *)
  note_buffer_count : Z;
  last_note_time : Z;  (* uint32_t, milliseconds *)
  tendencies : LearnedTendencies;
  current_note : Z;  (* uint8_t *)
  previous_note : Z;  (* uint8_t *)
  last_interval : Z;
  last_direction_up : bool;
  note_history : list Z;  (* uint8_t note_history[NOTE_HISTORY_SIZE] *)
  note_history_count : Z;
  note_history_index : Z;
  phrase_note_count : Z;
  phrase_target_length : Z;
  rng_state : Z;  (* uint32_t *)
  current_page : Z;
  page_change_timer : Z
}.

(** Assignment to one global; the others keep their value. *)
Definition set_learning_state (v : LearningState) (g : Globals) : Globals :=
  {| parameters_smoothed := parameters_smoothed g; learning_state := v;
     note_buffer := note_buffer g; note_buffer_count := note_buffer_count g;
     last_note_time := last_note_time g; tendencies := tendencies g;
     current_note := current_note g; previous_note := previous_note g;
     last_interval := last_interval g;
     last_direction_up := last_direction_up g;
     note_history := note_history g;
     note_history_count := note_history_count g;
     note_history_index := note_history_index g;
     phrase_note_count := phrase_note_count g;
     phrase_target_length := phrase_target_length g;
     rng_state := rng_state g; current_page := current_page g;
     page_change_timer := page_change_timer g |}.

Definition set_note_buffer (v : list Z) (g : Globals) : Globals :=
  {| parameters_smoothed := parameters_smoothed g;
     learning_state := learning_state g; note_buffer := v;
     note_buffer_count := note_buffer_count g;
     last_note_time := last_note_time g; tendencies := tendencies g;
     current_note := current_note g; previous_note := previous_note g;
     last_interval := last_interval g;
     last_direction_up := last_direction_up g;
     note_history := note_history g;
     note_history_count := note_history_count g;
     note_history_index := note_history_index g;
     phrase_note_count := phrase_note_count g;
     phrase_target_length := phrase_target_length g;
     rng_state := rng_state g; current_page := current_page g;
     page_change_timer := page_change_timer g |}.

Definition set_note_buffer_count (v : Z) (g : Globals) : Globals :=
  {| parameters_smoothed := parameters_smoothed g;
     learning_state := learning_state g; note_buffer := note_buffer g;
     note_buffer_count := v; last_note_time := last_note_time g;
     tendencies := tendencies g; current_note := current_note g;
     previous_note := previous_note g; last_interval := last_interval g;
     last_direction_up := last_direction_up g;
     note_history := note_history g;
     note_history_count := note_history_count g;
     note_history_index := note_history_index g;
     phrase_note_count := phrase_note_count g;
     phrase_target_length := phrase_target_length g;
     rng_state := rng_state g; current_page := current_page g;
     page_change_timer := page_change_timer g |}.

Definition set_last_note_time (v : Z) (g : Globals) : Globals :=
  {| parameters_smoothed := parameters_smoothed g;
     learning_state := learning_state g; note_buffer := note_buffer g;
     note_buffer_count := note_buffer_count g; last_note_time := v;
     tendencies := tendencies g; current_note := current_note g;
     previous_note := previous_note g; last_interval := last_interval g;
     last_direction_up := last_direction_up g;
     note_history := note_history g;
     note_history_count := note_history_count g;
     note_history_index := note_history_index g;
     phrase_note_count := phrase_note_count g;
     phrase_target_length := phrase_target_length g;
     rng_state := rng_state g; current_page := current_page g;
     page_change_timer := page_change_timer g |}.

Definition set_tendencies (v : LearnedTendencies) (g : Globals) : Globals :=
  {| parameters_smoothed := parameters_smoothed g;
     learning_state := learning_state g; note_buffer := note_buffer g;
     note_buffer_count := note_buffer_count g;
     last_note_time := last_note_time g; tendencies := v;
     current_note := current_note g; previous_note := previous_note g;
     last_interval := last_interval g;
     last_direction_up := last_direction_up g;
     note_history := note_history g;
     note_history_count := note_history_count g;
     note_history_index := note_history_index g;
     phrase_note_count := phrase_note_count g;
     phrase_target_length := phrase_target_length g;
     rng_state := rng_state g; current_page := current_page g;
     page_change_timer := page_change_timer g |}.

Definition set_current_note (v : Z) (g : Globals) : Globals :=
  {| parameters_smoothed := parameters_smoothed g;
     learning_state := learning_state g; note_buffer := note_buffer g;
     note_buffer_count := note_buffer_count g;
     last_note_time := last_note_time g; tendencies := tendencies g;
     current_note := v; previous_note := previous_note g;
     last_interval := last_interval g;
     last_direction_up := last_direction_up g;
     note_history := note_history g;
     note_history_count := note_history_count g;
     note_history_index := note_history_index g;
     phrase_note_count := phrase_note_count g;
     phrase_target_length := phrase_target_length g;
     rng_state := rng_state g; current_page := current_page g;
     page_change_timer := page_change_timer g |}.

Definition set_previous_note (v : Z) (g : Globals) : Globals :=
  {| parameters_smoothed := parameters_smoothed g;
     learning_state := learning_state g; note_buffer := note_buffer g;
     note_buffer_count := note_buffer_count g;
     last_note_time := last_note_time g; tendencies := tendencies g;
     current_note := current_note g; previous_note := v;
     last_interval := last_interval g;
     last_direction_up := last_direction_up g;
     note_history := note_history g;
     note_history_count := note_history_count g;
     note_history_index := note_history_index g;
     phrase_note_count := phrase_note_count g;
     phrase_target_length := phrase_target_length g;
     rng_state := rng_state g; current_page := current_page g;
     page_change_timer := page_change_timer g |}.

Definition set_last_interval (v : Z) (g : Globals) : Globals :=
  {| parameters_smoothed := parameters_smoothed g;
     learning_state := learning_state g; note_buffer := note_buffer g;
     note_buffer_count := note_buffer_count g;
     last_note_time := last_note_time g; tendencies := tendencies g;
     current_note := current_note g; previous_note := previous_note g;
     last_interval := v; last_direction_up := last_direction_up g;
     note_history := note_history g;
     note_history_count := note_history_count g;
     note_history_index := note_history_index g;
     phrase_note_count := phrase_note_count g;
     phrase_target_length := phrase_target_length g;
     rng_state := rng_state g; current_page := current_page g;
     page_change_timer := page_change_timer g |}.

Definition set_last_direction_up (v : bool) (g : Globals) : Globals :=
  {| parameters_smoothed := parameters_smoothed g;
     learning_state := learning_state g; note_buffer := note_buffer g;
     note_buffer_count := note_buffer_count g;
     last_note_time := last_note_time g; tendencies := tendencies g;
     current_note := current_note g; previous_note := previous_note g;
     last_interval := last_interval g; last_direction_up := v;
     note_history := note_history g;
     note_history_count := note_history_count g;
     note_history_index := note_history_index g;
     phrase_note_count := phrase_note_count g;
     phrase_target_length := phrase_target_length g;
     rng_state := rng_state g; current_page := current_page g;
     page_change_timer := page_change_timer g |}.

Definition set_note_history (v : list Z) (g : Globals) : Globals :=
  {| parameters_smoothed := parameters_smoothed g;
     learning_state := learning_state g; note_buffer := note_buffer g;
     note_buffer_count := note_buffer_count g;
     last_note_time := last_note_time g; tendencies := tendencies g;
     current_note := current_note g; previous_note := previous_note g;
     last_interval := last_interval g;
     last_direction_up := last_direction_up g; note_history := v;
     note_history_count := note_history_count g;
     note_history_index := note_history_index g;
     phrase_note_count := phrase_note_count g;
     phrase_target_length := phrase_target_length g;
     rng_state := rng_state g; current_page := current_page g;
     page_change_timer := page_change_timer g |}.

Definition set_note_history_count (v : Z) (g : Globals) : Globals :=
  {| parameters_smoothed := parameters_smoothed g;
     learning_state := learning_state g; note_buffer := note_buffer g;
     note_buffer_count := note_buffer_count g;
     last_note_time := last_note_time g; tendencies := tendencies g;
     current_note := current_note g; previous_note := previous_note g;
     last_interval := last_interval g;
     last_direction_up := last_direction_up g;
     note_history := note_history g; note_history_count := v;
     note_history_index := note_history_index g;
     phrase_note_count := phrase_note_count g;
     phrase_target_length := phrase_target_length g;
     rng_state := rng_state g; current_page := current_page g;
     page_change_timer := page_change_timer g |}.

Definition set_note_history_index (v : Z) (g : Globals) : Globals :=
  {| parameters_smoothed := parameters_smoothed g;
     learning_state := learning_state g; note_buffer := note_buffer g;
     note_buffer_count := note_buffer_count g;
     last_note_time := last_note_time g; tendencies := tendencies g;
     current_note := current_note g; previous_note := previous_note g;
     last_interval := last_interval g;
     last_direction_up := last_direction_up g;
     note_history := note_history g;
     note_history_count := note_history_count g; note_history_index := v;
     phrase_note_count := phrase_note_count g;
     phrase_target_length := phrase_target_length g;
     rng_state := rng_state g; current_page := current_page g;
     page_change_timer := page_change_timer g |}.

Definition set_phrase_note_count (v : Z) (g : Globals) : Globals :=
  {| parameters_smoothed := parameters_smoothed g;
     learning_state := learning_state g; note_buffer := note_buffer g;
     note_buffer_count := note_buffer_count g;
     last_note_time := last_note_time g; tendencies := tendencies g;
     current_note := current_note g; previous_note := previous_note g;
     last_interval := last_interval g;
     last_direction_up := last_direction_up g;
     note_history := note_history g;
     note_history_count := note_history_count g;
     note_history_index := note_history_index g; phrase_note_count := v;
     phrase_target_length := phrase_target_length g;
     rng_state := rng_state g; current_page := current_page g;
     page_change_timer := page_change_timer g |}.

Definition set_phrase_target_length (v : Z) (g : Globals) : Globals :=
  {| parameters_smoothed := parameters_smoothed g;
     learning_state := learning_state g; note_buffer := note_buffer g;
     note_buffer_count := note_buffer_count g;
     last_note_time := last_note_time g; tendencies := tendencies g;
     current_note := current_note g; previous_note := previous_note g;
     last_interval := last_interval g;
     last_direction_up := last_direction_up g;
     note_history := note_history g;
     note_history_count := note_history_count g;
     note_history_index := note_history_index g;
     phrase_note_count := phrase_note_count g; phrase_target_length := v;
     rng_state := rng_state g; current_page := current_page g;
     page_change_timer := page_change_timer g |}.

Definition set_rng_state (v : Z) (g : Globals) : Globals :=
  {| parameters_smoothed := parameters_smoothed g;
     learning_state := learning_state g; note_buffer := note_buffer g;
     note_buffer_count := note_buffer_count g;
     last_note_time := last_note_time g; tendencies := tendencies g;
     current_note := current_note g; previous_note := previous_note g;
     last_interval := last_interval g;
     last_direction_up := last_direction_up g;
     note_history := note_history g;
     note_history_count := note_history_count g;
     note_history_index := note_history_index g;
     phrase_note_count := phrase_note_count g;
     phrase_target_length := phrase_target_length g; rng_state := v;
     current_page := current_page g;
     page_change_timer := page_change_timer g |}.

Definition set_current_page (v : Z) (g : Globals) : Globals :=
  {| parameters_smoothed := parameters_smoothed g;
     learning_state := learning_state g; note_buffer := note_buffer g;
     note_buffer_count := note_buffer_count g;
     last_note_time := last_note_time g; tendencies := tendencies g;
     current_note := current_note g; previous_note := previous_note g;
     last_interval := last_interval g;
     last_direction_up := last_direction_up g;
     note_history := note_history g;
     note_history_count := note_history_count g;
     note_history_index := note_history_index g;
     phrase_note_count := phrase_note_count g;
     phrase_target_length := phrase_target_length g;
     rng_state := rng_state g; current_page := v;
     page_change_timer := page_change_timer g |}.

Definition set_page_change_timer (v : Z) (g : Globals) : Globals :=
  {| parameters_smoothed := parameters_smoothed g;
     learning_state := learning_state g; note_buffer := note_buffer g;
     note_buffer_count := note_buffer_count g;
     last_note_time := last_note_time g; tendencies := tendencies g;
     current_note := current_note g; previous_note := previous_note g;
     last_interval := last_interval g;
     last_direction_up := last_direction_up g;
     note_history := note_history g;
     note_history_count := note_history_count g;
     note_history_index := note_history_index g;
     phrase_note_count := phrase_note_count g;
     phrase_target_length := phrase_target_length g;
     rng_state := rng_state g; current_page := current_page g;
     page_change_timer := v |}.

(** Firmware functions read and write the globals and may fault. *)
Definition M (A : Type) : Type := Globals -> option (A * Globals).

Definition ret {A} (a : A) : M A := fun g => Some (a, g).

Definition bind {A B} (m : M A) (f : A -> M B) : M B :=
  fun g => match m g with
           | Some (a, g') => f a g'
           | None => None
           end.

Definition gets {A} (f : Globals -> A) : M A := fun g => Some (f g, g).

Definition modify (f : Globals -> Globals) : M unit := fun g => Some (tt, f g).

Definition fault {A} : M A := fun _ => None.

Definition lift_option {A} (o : option A) : M A :=
  fun g => match o with Some a => Some (a, g) | None => None end.

End Firmware.

Arguments LearnedTendencies F : clear implicits.
Arguments Globals F : clear implicits.
Arguments M F A : clear implicits.

Notation "x <- m ;; k" := (bind m (fun x => k))
  (at level 61, m at next level, right associativity).
Notation "' p <- m ;; k" := (bind m (fun x => match x with p => k end))
  (at level 61, p pattern, m at next level, right associativity).
Notation "m ;;; k" := (bind m (fun _ => k))
  (at level 61, right associativity).
Notation "'let?' x := o 'in' k" :=
  (match o with Some x => k | None => None end)
  (at level 61, x name, o at next level, right associativity).
Notation "'let?' ' p := o 'in' k" :=
  (match o with Some p => k | None => None end)
  (at level 61, p pattern, o at next level, right associativity).

(** ** The firmware's functions *)

Section Functions.

Context {F : Type} `{FloatOps F}.

Local Abbreviation Globals := (Globals F).
Local Abbreviation M := (M F).

(** *** Tendency analysis *)

(** Body of the first loop of [analyze_learned_notes]; the accumulator is
    [(register_min, register_max, note_sum)]. *)
Definition register_step (buf : list Z) (i : Z) (acc : Z * Z * F)
  : option (Z * Z * F) :=
  let '(rmin, rmax, note_sum) := acc in
  let? note := arr_get buf i in
  let rmin := if note <? rmin then note else rmin in
  let rmax := if note >? rmax then note else rmax in
  Some (rmin, rmax, (note_sum + f_of_Z note)%fl).

(** Body of the second loop; the accumulator is [(interval_counts,
    total_intervals, ascending_count, descending_count, repeat_count)]. *)
Definition interval_step (buf : list Z) (i : Z)
    (acc : list Z * Z * Z * Z * Z) : option (list Z * Z * Z * Z * Z) :=
  let '(counts, total, asc, desc, rep) := acc in
  let? hi := arr_get buf (i + 1) in
  let? lo := arr_get buf i in
  let interval := hi - lo in
  let '(asc, desc, rep) :=
    if interval >? 0 then (asc + 1, desc, rep)
    else if interval <? 0 then (asc, desc + 1, rep)
    else (asc, desc, rep + 1) in
  let interval_size := Z.abs interval in
  let interval_size := if interval_size >? 12 then 12 else interval_size in
  let? c := arr_get counts interval_size in
  let? counts := arr_set counts interval_size (c + 1) in
  Some (counts, total + 1, asc, desc, rep).

(** Body of the third loop; the accumulator is [(max_count,
    second_max_count, most_common_interval, second_common_interval)]. *)
Definition common_step (counts : list Z) (i : Z) (acc : Z * Z * Z * Z)
  : option (Z * Z * Z * Z) :=
  let '(max_count, second_max_count, most, second) := acc in
  let? c := arr_get counts i in
  if c >? max_count then Some (c, max_count, i, most)
  else if c >? second_max_count then Some (max_count, c, most, i)
  else Some (max_count, second_max_count, most, second).

Definition analyze_learned_notes (g : Globals) : option Globals :=
  let t0 := LearnedTendencies_init in
  let n := note_buffer_count g in
  let buf := note_buffer g in
  if n <? 2 then Some (set_tendencies t0 g)
  else
    let? '(rmin, rmax, note_sum) :=
      for_range 0 (Z.to_nat n) (register_step buf) (127, 0, f_of_Z 0) in
    let center := (note_sum / f_of_Z n)%fl in
    let range := f_of_Z (rmax - rmin) in
    let? '(counts, total, asc, desc, rep) :=
      for_range 0 (Z.to_nat (n - 1)) (interval_step buf)
        (interval_counts t0, total_intervals t0, ascending_count t0,
         descending_count t0, repeat_count t0) in
    let? '(_, _, most, second) :=
      for_range 0 13 (common_step counts)
        (0, 0, most_common_interval t0, second_common_interval t0) in
    Some (set_tendencies
            {| interval_counts := counts; total_intervals := total;
               ascending_count := asc; descending_count := desc;
               repeat_count := rep;
               register_center := center; register_range := range;
               register_min := rmin; register_max := rmax;
               most_common_interval := most;
               second_common_interval := second |} g).

(** *** Random numbers *)

Definition xorshift32_step (s : Z) : Z :=
  let s := Z.lxor s (u32 (Z.shiftl s 13)) in
  let s := Z.lxor s (Z.shiftr s 17) in
  Z.lxor s (u32 (Z.shiftl s 5)).

Definition xorshift32 : M Z :=
  fun g => let s := xorshift32_step (rng_state g) in
           Some (s, set_rng_state s g).

Definition random_float : M F :=
  x <- xorshift32 ;; ret (f_of_Z x / f_of_Z 4294967296)%fl.

(** *** Note history *)

Definition add_note_to_history (note : Z) : M unit :=
  fun g =>
    let? h := arr_set (note_history g) (note_history_index g) note in
    let g := set_note_history h g in
    let g := set_note_history_index
               ((note_history_index g + 1) mod NOTE_HISTORY_SIZE) g in
    let g := if note_history_count g <? NOTE_HISTORY_SIZE
             then set_note_history_count (note_history_count g + 1) g
             else g in
    Some (tt, g).

Definition count_step (hist : list Z) (note : Z) (i : Z) (count : Z)
  : option Z :=
  let? x := arr_get hist i in
  Some (if x =? note then count + 1 else count).

Definition count_in_history (note : Z) : M Z :=
  fun g =>
    let? count :=
      for_range 0 (Z.to_nat (note_history_count g))
        (count_step (note_history g) note) 0 in
    Some (count, g).

(** *** The energy macro *)

Definition energy_deviation (g : Globals) : F :=
  ((parameters_smoothed g PARAM_ENERGY - flit 1 2) * f_of_Z 2)%fl.

(** [memory_param] of [apply_memory_bias], after the energy scaling. *)
Definition memory_param (g : Globals) : F :=
  let memory_param := parameters_smoothed g PARAM_MEMORY in
  let memory_param :=
    (memory_param - energy_deviation g * flit 3 10)%fl in
  let memory_param :=
    if (memory_param <? f_of_Z 0)%fl then f_of_Z 0 else memory_param in
  if (memory_param >? f_of_Z 1)%fl then f_of_Z 1 else memory_param.

(** [effective_gravity] of [select_direction], after the energy scaling
    and before the phrase boost. *)
Definition energy_gravity (g : Globals) : F :=
  let register_gravity := parameters_smoothed g PARAM_REGISTER in
  let effective_gravity :=
    (register_gravity - energy_deviation g * flit 3 10)%fl in
  let effective_gravity :=
    if (effective_gravity <? f_of_Z 0)%fl then f_of_Z 0
    else effective_gravity in
  if (effective_gravity >? f_of_Z 1)%fl then f_of_Z 1 else effective_gravity.

(** [range_param] of [apply_octave_displacement], after the energy
    scaling. *)
Definition range_param (g : Globals) : F :=
  let range_param := parameters_smoothed g PARAM_RANGE_WIDTH in
  let range_param := (range_param + energy_deviation g * flit 3 10)%fl in
  let range_param :=
    if (range_param <? f_of_Z 0)%fl then f_of_Z 0 else range_param in
  if (range_param >? f_of_Z 1)%fl then f_of_Z 1 else range_param.

(** [motion_bias] of [generate_next_note], after the energy scaling. *)
Definition motion_bias (g : Globals) : F :=
  let motion_bias := parameters_smoothed g PARAM_MOTION in
  let motion_bias := (motion_bias + energy_deviation g * flit 3 10)%fl in
  let motion_bias :=
    if (motion_bias <? f_of_Z 0)%fl then f_of_Z 0 else motion_bias in
  if (motion_bias >? f_of_Z 1)%fl then f_of_Z 1 else motion_bias.

(** [phrase_param] of [generate_next_note], after the energy scaling. *)
Definition phrase_param (g : Globals) : F :=
  let phrase_param := parameters_smoothed g PARAM_PHRASE in
  let phrase_param := (phrase_param + energy_deviation g * flit 2 10)%fl in
  let phrase_param :=
    if (phrase_param <? f_of_Z 0)%fl then f_of_Z 0 else phrase_param in
  if (phrase_param >? f_of_Z 1)%fl then f_of_Z 1 else phrase_param.

(** *** Memory bias *)

(** [acceptance_probability] of [apply_memory_bias] for a candidate that
    occurs [history_count] times in the history. *)
Definition acceptance_probability (memory_param : F) (history_count : Z) : F :=
  let acceptance_probability :=
    if (memory_param <? flit 4 10)%fl then
      let avoidance := ((flit 4 10 - memory_param) / flit 4 10)%fl in
      (f_of_Z 1
       - avoidance * f_of_Z history_count / f_of_Z NOTE_HISTORY_SIZE)%fl
    else if (memory_param >? flit 6 10)%fl then
      let favoritism := ((memory_param - flit 6 10) / flit 4 10)%fl in
      (f_of_Z 1
       + favoritism * f_of_Z history_count / f_of_Z NOTE_HISTORY_SIZE)%fl
    else f_of_Z 1 in
  let acceptance_probability :=
    if (acceptance_probability <? f_of_Z 0)%fl then f_of_Z 0
    else acceptance_probability in
  if (acceptance_probability >? f_of_Z 1)%fl then f_of_Z 1
  else acceptance_probability.

Definition apply_memory_bias (candidate_note : Z) : M bool :=
  memory_param <- gets memory_param ;;
  history_count <- count_in_history candidate_note ;;
  if history_count =? 0 then ret true
  else
    r <- random_float ;;
    ret (r <? acceptance_probability memory_param history_count)%fl.

(** *** Interval selection *)

(** Body of the loop building [cumulative]; the accumulator is
    [(cumulative, total)]. *)
Definition cumulative_step (counts : list Z) (i : Z) (acc : list Z * Z)
  : option (list Z * Z) :=
  let '(cumulative, total) := acc in
  let? c := arr_get counts i in
  let total := total + c in
  let? cumulative := arr_set cumulative i total in
  Some (cumulative, total).

(** The search loop [for(i = lo; i <= 12; i++) if(rand_val < cumulative[i])
    return i;] followed by the fallback [return 2]. *)
Fixpoint find_interval (n : nat) (lo : Z) (rand_val : Z) (cumulative : list Z)
  : option Z :=
  match n with
  | O => Some 2
  | S k =>
      let? c := arr_get cumulative lo in
      if rand_val <? c then Some lo
      else find_interval k (lo + 1) rand_val cumulative
  end.

Definition select_interval_from_distribution : M Z :=
  t <- gets tendencies ;;
  if total_intervals t =? 0 then ret 2
  else
    '(cumulative, total) <-
      lift_option (for_range 0 13 (cumulative_step (interval_counts t))
                     (repeat 0 13, 0)) ;;
    r <- random_float ;;
    let rand_val := cast_int (r * f_of_Z total)%fl in
    lift_option (find_interval 13 0 rand_val cumulative).

(** *** Direction selection *)

Definition select_direction : M bool :=
  g <- gets (fun g => g) ;;
  let t := tendencies g in
  let direction_bias := parameters_smoothed g PARAM_DIRECTION in
  let learned_up_probability :=
    let total_directional := ascending_count t + descending_count t in
    if total_directional >? 0
    then (f_of_Z (ascending_count t) / f_of_Z total_directional)%fl
    else flit 1 2 in
  let blend_factor := (f_abs (direction_bias - flit 1 2) * f_of_Z 2)%fl in
  let target_probability :=
    if (direction_bias >? flit 1 2)%fl then f_of_Z 1 else f_of_Z 0 in
  let base_probability :=
    (learned_up_probability * (f_of_Z 1 - blend_factor)
     + target_probability * blend_factor)%fl in
  let effective_gravity := energy_gravity g in
  let effective_gravity :=
    if phrase_target_length g >? 0 then
      let phrase_progress :=
        (f_of_Z (phrase_note_count g) / f_of_Z (phrase_target_length g))%fl in
      if (phrase_progress >? flit 7 10)%fl then
        let phrase_boost := ((phrase_progress - flit 7 10) / flit 3 10)%fl in
        let effective_gravity :=
          (effective_gravity + phrase_boost * flit 3 10)%fl in
        if (effective_gravity >? f_of_Z 1)%fl then f_of_Z 1
        else effective_gravity
      else effective_gravity
    else effective_gravity in
  let gravity_influence :=
    if (effective_gravity >? flit 5 100)%fl then
      let distance_from_center :=
        (f_of_Z (current_note g) - register_center t)%fl in
      let normalized_distance := (distance_from_center / f_of_Z 24)%fl in
      let normalized_distance :=
        if (normalized_distance <? f_of_Z (-1))%fl then f_of_Z (-1)
        else normalized_distance in
      let normalized_distance :=
        if (normalized_distance >? f_of_Z 1)%fl then f_of_Z 1
        else normalized_distance in
      (- normalized_distance * effective_gravity)%fl
    else f_of_Z 0 in
  let final_probability :=
    (base_probability + gravity_influence * flit 1 2)%fl in
  let final_probability :=
    if (final_probability <? f_of_Z 0)%fl then f_of_Z 0
    else final_probability in
  let final_probability :=
    if (final_probability >? f_of_Z 1)%fl then f_of_Z 1
    else final_probability in
  r <- random_float ;;
  ret (r <? final_probability)%fl.

(** *** Octave displacement *)

Definition apply_octave_displacement (note : Z) : M Z :=
  range_param <- gets range_param ;;
  if (range_param <? flit 1 10)%fl then ret note
  else
    let displacement_probability := (range_param * flit 2 10)%fl in
    r <- random_float ;;
    if (r >? displacement_probability)%fl then ret note
    else
      octave_shift <-
        (if (range_param <? flit 1 2)%fl then
           r <- random_float ;;
           ret (if (r >? flit 1 2)%fl then 12 else -12)
         else
           roll <- random_float ;;
           ret (if (roll <? flit 1 2)%fl then 12
                else if (roll <? flit 3 4)%fl then -12
                else if (roll <? flit 7 8)%fl then 24
                else -24)) ;;
      let displaced := note + octave_shift in
      let displaced := Z.max 0 (Z.min 127 displaced) in
      ret (displaced mod 256).

(** *** Note generation *)

(** One pass through the body of the candidate loop, up to
    [candidate_note = (uint8_t)new_note]. *)
Definition generate_candidate (motion_bias : F) : M Z :=
  interval_size <- select_interval_from_distribution ;;
  interval_size <-
    (if (motion_bias <? flit 1 2)%fl then
       let scale := (motion_bias * f_of_Z 2)%fl in
       let interval_size :=
         cast_int (f_of_Z interval_size * scale + flit 1 2)%fl in
       if interval_size =? 0 then
         r <- random_float ;;
         ret (if (r >? flit 1 2)%fl then 1 else interval_size)
       else ret interval_size
     else
       let scale := ((motion_bias - flit 1 2) * f_of_Z 2)%fl in
       let boost := cast_int (scale * f_of_Z 4)%fl in
       ret (Z.min (interval_size + boost) 12)) ;;
  go_up <- select_direction ;;
  let signed_interval := if go_up then interval_size else - interval_size in
  current_note <- gets current_note ;;
  let new_note := current_note + signed_interval in
  let new_note := Z.max 0 (Z.min 127 new_note) in
  new_note <- apply_octave_displacement (new_note mod 256) ;;
  ret (new_note mod 256).

(** The loop [while(attempts < MAX_ATTEMPTS) { ...; if(apply_memory_bias(
    candidate_note)) break; attempts++; }], with the values of
    [candidate_note] and [attempts] when it is left. [fuel] bounds the
    number of passes the model may take. *)
Fixpoint candidate_loop (fuel : nat) (motion_bias : F)
    (candidate_note attempts : Z) : M (Z * Z) :=
  if attempts <? MAX_ATTEMPTS then
    match fuel with
    | O => fault
    | S fuel =>
        candidate_note <- generate_candidate motion_bias ;;
        accepted <- apply_memory_bias candidate_note ;;
        if accepted then ret (candidate_note, attempts)
        else candidate_loop fuel motion_bias candidate_note (attempts + 1)
    end
  else ret (candidate_note, attempts).

(** The soft phrase boundary at the end of [generate_next_note]; [now] is
    what [System::GetNow()] returns. *)
Definition phrase_boundary (now : Z) : M unit :=
  g <- gets (fun g => g) ;;
  if phrase_note_count g >=? phrase_target_length g then
    let overrun := f_of_Z (phrase_note_count g - phrase_target_length g) in
    let reset_probability :=
      (flit 1 2 + overrun / f_of_Z (phrase_target_length g) * flit 1 2)%fl in
    let reset_probability :=
      if (reset_probability >? f_of_Z 1)%fl then f_of_Z 1
      else reset_probability in
    r <- random_float ;;
    if (r <? reset_probability)%fl then
      modify (set_phrase_note_count 0) ;;;
      modify (fun g => set_rng_state (Z.lxor (rng_state g) now) g)
    else ret tt
  else ret tt.

Definition generate_next_note (fuel : nat) (now : Z) : M Z :=
  motion_bias <- gets motion_bias ;;
  phrase_param <- gets phrase_param ;;
  modify (set_phrase_target_length
            (cast_int (f_of_Z 4 + phrase_param * f_of_Z 28)%fl)) ;;;
  '(candidate_note, _) <- candidate_loop fuel motion_bias 0 0 ;;
  add_note_to_history candidate_note ;;;
  modify (fun g => set_phrase_note_count (phrase_note_count g + 1) g) ;;;
  phrase_boundary now ;;;
  current_note <- gets current_note ;;
  modify (set_previous_note current_note) ;;;
  modify (set_last_interval (candidate_note - current_note)) ;;;
  modify (set_last_direction_up (candidate_note >? current_note)) ;;;
  ret candidate_note.

(** *** Learning and the session state *)

Definition LearningState_eqb (a b : LearningState) : bool :=
  match a, b with
  | STATE_IDLE, STATE_IDLE => true
  | STATE_LEARNING, STATE_LEARNING => true
  | STATE_GENERATING, STATE_GENERATING => true
  | _, _ => false
  end.

(** [now] is what [System::GetNow()] returns. *)
Definition start_learning (now : Z) : M unit :=
  modify (set_learning_state STATE_LEARNING) ;;;
  modify (set_note_buffer_count 0) ;;;
  modify (set_last_note_time now).

Definition add_note_to_buffer (midi_note now : Z) : M unit :=
  g <- gets (fun g => g) ;;
  if LearningState_eqb (learning_state g) STATE_LEARNING
     && (note_buffer_count g <? MAX_LEARN_NOTES)
  then
    buf <- lift_option
             (arr_set (note_buffer g) (note_buffer_count g) midi_note) ;;
    modify (set_note_buffer buf) ;;;
    modify (set_note_buffer_count (note_buffer_count g + 1)) ;;;
    modify (set_last_note_time now)
  else ret tt.

(** The loop [for(i = 0; i < NOTE_HISTORY_SIZE; i++) note_history[i] = 0]. *)
Definition clear_note_history : M unit :=
  h <- gets note_history ;;
  h <- lift_option (for_range 0 (Z.to_nat NOTE_HISTORY_SIZE)
                      (fun i h => arr_set h i 0) h) ;;
  modify (set_note_history h).

(** [current_time] and [seed_time] are the two readings of
    [System::GetNow()]. *)
Definition update_learning_state (current_time seed_time : Z) : M unit :=
  g <- gets (fun g => g) ;;
  if LearningState_eqb (learning_state g) STATE_LEARNING then
    let time_since_note := u32 (current_time - last_note_time g) in
    let timeout_param := parameters_smoothed g PARAM_LEARN_TIMEOUT in
    let learning_timeout_ms :=
      u32 (500 + cast_uint32 (timeout_param * f_of_Z 9500)%fl) in
    if (note_buffer_count g >=? MAX_LEARN_NOTES)
       || ((time_since_note >? learning_timeout_ms)
           && (note_buffer_count g >=? MIN_LEARN_NOTES))
    then
      modify (set_learning_state STATE_GENERATING) ;;;
      (fun g => let? g' := analyze_learned_notes g in Some (tt, g')) ;;;
      t <- gets tendencies ;;
      modify (set_current_note (cast_uint8 (register_center t))) ;;;
      current_note <- gets current_note ;;
      modify (set_previous_note current_note) ;;;
      modify (set_last_interval 0) ;;;
      modify (set_last_direction_up
                (ascending_count t >=? descending_count t)) ;;;
      modify (set_note_history_count 0) ;;;
      modify (set_note_history_index 0) ;;;
      clear_note_history ;;;
      modify (set_phrase_note_count 0) ;;;
      modify (set_phrase_target_length 12) ;;;
      modify (set_rng_state seed_time)
    else ret tt
  else ret tt.

(** The handling of a Note On with non-zero velocity in [UpdateControls]. *)
Definition note_on (note now : Z) : M unit :=
  st <- gets learning_state ;;
  (if LearningState_eqb st STATE_IDLE || LearningState_eqb st STATE_GENERATING
   then start_learning now else ret tt) ;;;
  add_note_to_buffer note now.

(** The handling of an encoder click ([hw.encoder.RisingEdge()]) in
    [UpdateControls]. *)
Definition encoder_click : M unit :=
  st <- gets learning_state ;;
  if LearningState_eqb st STATE_GENERATING then
    modify (set_learning_state STATE_IDLE) ;;;
    modify (set_note_buffer_count 0) ;;;
    modify (set_page_change_timer 30)
  else
    modify (set_current_page 0) ;;;
    modify (set_page_change_timer 60).

(** The handling of a rising edge on gate input 1 in [UpdateControls]. *)
Definition note_trigger (fuel : nat) (now : Z) : M unit :=
  g <- gets (fun g => g) ;;
  if LearningState_eqb (learning_state g) STATE_GENERATING
     && (note_buffer_count g >=? MIN_LEARN_NOTES)
  then
    note <- generate_next_note fuel now ;;
    modify (set_current_note note)
  else ret tt.

(** The globals when [main] enters its loop, the parameters being [params]. *)
Definition initial_globals (params : ParamIndex -> F) : Globals :=
  {| parameters_smoothed := params; learning_state := STATE_IDLE;
     note_buffer := repeat 0 16; note_buffer_count := 0;
     last_note_time := 0; tendencies := LearnedTendencies_init;
     current_note := 60; previous_note := 60; last_interval := 0;
     last_direction_up := true;
     note_history := repeat 0 8; note_history_count := 0;
     note_history_index := 0;
     phrase_note_count := 0; phrase_target_length := 12;
     rng_state := 12345; current_page := 0; page_change_timer := 0 |}.

End Functions.

(** ** Specification vocabulary *)

(** The notes a learning session recorded: the first [note_buffer_count]
    cells of [note_buffer]. *)
Definition learned_notes {F} (g : Globals F) : list Z :=
  firstn (Z.to_nat (note_buffer_count g)) (note_buffer g).

(** Signed intervals between consecutive notes. *)
Fixpoint intervals (notes : list Z) : list Z :=
  match notes with
  | a :: (b :: _) as t => (b - a) :: intervals t
  | _ => []
  end.

(** Interval magnitude, saturated at one octave. *)
Definition saturated (d : Z) : Z := Z.min (Z.abs d) 12.

Definition count_if (p : Z -> bool) (l : list Z) : Z :=
  Z.of_nat (length (filter p l)).

Definition Zsum (l : list Z) : Z := fold_right Z.add 0 l.

(** [i] is the lowest index among the bins selected by [sel] that hold the
    highest count among the selected bins. *)
Definition lowest_max (counts : list Z) (sel : Z -> Prop) (i : Z) : Prop :=
  0 <= i < Z.of_nat (length counts) /\ sel i /\
  forall j, 0 <= j < Z.of_nat (length counts) -> sel j ->
    nth (Z.to_nat j) counts 0 <= nth (Z.to_nat i) counts 0 /\
    (j < i -> nth (Z.to_nat j) counts 0 < nth (Z.to_nat i) counts 0).

(** The learning buffer is a 16-cell array holding [note_buffer_count]
    notes. *)
Definition buffer_ok {F} (g : Globals F) : Prop :=
  length (note_buffer g) = 16%nat /\
  0 <= note_buffer_count g <= MAX_LEARN_NOTES.

(** The note history is an 8-cell circular buffer, the histogram a
    13-cell array. *)
Definition history_ok {F} (g : Globals F) : Prop :=
  length (note_history g) = 8%nat /\
  0 <= note_history_index g < NOTE_HISTORY_SIZE /\
  0 <= note_history_count g <= NOTE_HISTORY_SIZE /\
  length (interval_counts (tendencies g)) = 13%nat.

(** What [generate_next_note] must leave alone: everything learned, the
    session state, the controls and the page, and [current_note], which
    its caller assigns. *)
Definition same_learned {F} (g g' : Globals F) : Prop :=
  parameters_smoothed g' = parameters_smoothed g /\
  learning_state g' = learning_state g /\
  note_buffer g' = note_buffer g /\
  note_buffer_count g' = note_buffer_count g /\
  last_note_time g' = last_note_time g /\
  tendencies g' = tendencies g /\
  current_note g' = current_note g /\
  current_page g' = current_page g /\
  page_change_timer g' = page_change_timer g.

(** Total correctness of a firmware function: from a state satisfying
    [P] it returns, without fault, a value and a state satisfying [Q]. *)
Definition triple {F A} (P : Globals F -> Prop) (m : M F A)
    (Q : A -> Globals F -> Prop) : Prop :=
  forall g, P g -> exists a g', m g = Some (a, g') /\ Q a g'.

(** The clamp to [[0,1]] and the energy deviation as the specification
    writes them, over exact arithmetic. *)
Definition clamp01 (x : Q) : Q := Qmax 0 (Qmin 1 x).

Definition energy_dev (energy : Q) : Q := ((energy - (1 # 2)) * 2)%Q.


(** Structural equality of binary32 values. *)
Definition sf_eqb (x y : spec_float) : bool :=
  match x, y with
  | S754_zero s, S754_zero s' => Bool.eqb s s'
  | S754_infinity s, S754_infinity s' => Bool.eqb s s'
  | S754_nan, S754_nan => true
  | S754_finite s m e, S754_finite s' m' e' =>
      Bool.eqb s s' && Pos.eqb m m' && Z.eqb e e'
  | _, _ => false
  end.

(** The binary32 images of [0], [1], ..., [n - 1]. *)
Definition b32_table (n : nat) : list spec_float :=
  map (fun k => b32_of_Z (Z.of_nat k)) (seq 0 n).

(** [row fa bs sums]: adding [fa] to the elements of [bs] gives, in order,
    the elements of [sums]. *)
Fixpoint row (fa : spec_float) (bs sums : list spec_float) : bool :=
  match bs, sums with
  | [], _ => true
  | _ :: _, [] => false
  | b :: bs', s :: sums' => sf_eqb (SFadd 24 128 fa b) s && row fa bs' sums'
  end.

(** [rows n bs tbl]: for each of the first [n] elements [tbl[a]] of [tbl],
    adding it to [bs[b]] gives [tbl[a + b]]. *)
Fixpoint rows (n : nat) (bs tbl : list spec_float) : bool :=
  match n, tbl with
  | O, _ => true
  | S _, [] => false
  | S n', fa :: tbl' => row fa bs tbl && rows n' bs tbl'
  end.

(** What the scan for the most common intervals has established when it
    reaches bin [k]; the accumulator is [(max_count, second_max_count,
    most_common_interval, second_common_interval)]. *)
Definition common_inv (counts : list Z) (k : Z) (acc : Z * Z * Z * Z) : Prop :=
  let '(mx, smx, most, sec) := acc in
  let c := fun j => nth (Z.to_nat j) counts 0 in
  (k = 0 -> mx = 0 /\ smx = 0 /\ most = 0 /\ sec = 0) /\
  (1 <= k ->
     0 <= most < k /\ mx = c most /\
     (forall j, 0 <= j < k -> c j <= mx /\ (j < most -> c j < mx)) /\
     0 <= smx /\
     (forall j, 0 <= j < k -> j <> most -> c j <= smx) /\
     (0 < smx ->
        0 <= sec < k /\ sec <> most /\ c sec = smx /\
        forall j, 0 <= j < sec -> j <> most -> c j < smx) /\
     (smx = 0 -> sec = 0)).

(** The first two loop bodies of [analyze_learned_notes] as functions of
    the note, or interval, they consume. *)
Definition register_acc {F} `{FloatOps F} (acc : Z * Z * F) (note : Z)
  : Z * Z * F :=
  let '(rmin, rmax, note_sum) := acc in
  (if note <? rmin then note else rmin,
   if note >? rmax then note else rmax,
   (note_sum + f_of_Z note)%fl).

Definition interval_acc (acc : list Z * Z * Z * Z * Z) (d : Z)
  : list Z * Z * Z * Z * Z :=
  let '(counts, total, asc, desc, rep) := acc in
  let k := Z.to_nat (saturated d) in
  (upd k (nth k counts 0 + 1) counts, total + 1,
   if d >? 0 then asc + 1 else asc,
   if d >? 0 then desc else if d <? 0 then desc + 1 else desc,
   if d >? 0 then rep else if d <? 0 then rep else rep + 1).

(** The analysis as a function of the learned notes. *)
Definition tendencies_of_notes {F} `{FloatOps F} (notes : list Z)
  : option (LearnedTendencies F) :=
  let n := Z.of_nat (length notes) in
  if n <? 2 then Some LearnedTendencies_init
  else
    let '(rmin, rmax, note_sum) :=
      fold_left register_acc notes (127, 0, f_of_Z 0) in
    let '(counts, total, asc, desc, rep) :=
      fold_left interval_acc (intervals notes) (repeat 0 13, 0, 0, 0, 0) in
    let? '(_, _, most, second) :=
      for_range 0 13 (common_step counts) (0, 0, 0, 0) in
    Some {| interval_counts := counts; total_intervals := total;
            ascending_count := asc; descending_count := desc;
            repeat_count := rep;
            register_center := (note_sum / f_of_Z n)%fl;
            register_range := f_of_Z (rmax - rmin);
            register_min := rmin; register_max := rmax;
            most_common_interval := most;
            second_common_interval := second |}.

(** A session that has recorded [notes] (at most 16 of them), in binary32
    and with every control at its centre position. *)
Definition learned (notes : list Z) : Globals spec_float :=
  set_note_buffer_count (Z.of_nat (length notes))
    (set_note_buffer (notes ++ repeat 0 (16 - length notes))
       (set_learning_state STATE_LEARNING
          (initial_globals (fun _ => flit 1 2)))).

(** A firmware function that, from a state with a well-formed history,
    returns without fault a value satisfying [post] and changes nothing
    but the state of the random number generator. *)
Definition draws {F A} (m : M F A) (post : A -> Prop) : Prop :=
  forall g, history_ok g ->
    exists a s, m g = Some (a, set_rng_state s g) /\ post a.


(** One [note_trigger] per clock reading in [nows]. *)
Fixpoint triggers {F} `{FloatOps F} (fuel : nat) (nows : list Z) : M F unit :=
  match nows with
  | [] => ret tt
  | now :: rest => note_trigger fuel now ;;; triggers fuel rest
  end.

(** What was learned, and the session it belongs to. *)
Definition same_session {F} (g g' : Globals F) : Prop :=
  parameters_smoothed g' = parameters_smoothed g /\
  learning_state g' = learning_state g /\
  note_buffer g' = note_buffer g /\
  note_buffer_count g' = note_buffer_count g /\
  tendencies g' = tendencies g.

(** A session that has learned the phrase 60 62 64 67 69 and is
    generating. *)
Definition generating : Globals spec_float :=
  match update_learning_state 20000 20001 (learned [60; 62; 64; 67; 69]) with
  | Some (_, g) => g
  | None => learned []
  end.


(** ** The main loop's inputs *)

(** What [UpdateControls] reacts to in the modelled part of the firmware:
    a Note On with non-zero velocity, the check of the learning timeout
    (with the two clock readings it makes), an encoder click, and a rising
    edge on gate input 1. *)
Inductive Event : Type :=
  | EvNoteOn (note now : Z)
  | EvTick (current_time seed_time : Z)
  | EvClick
  | EvTrigger (now : Z).

Definition handle {F} `{FloatOps F} (fuel : nat) (e : Event) : M F unit :=
  match e with
  | EvNoteOn note now => note_on note now
  | EvTick current_time seed_time =>
      update_learning_state current_time seed_time
  | EvClick => encoder_click
  | EvTrigger now => note_trigger fuel now
  end.

Fixpoint run_events {F} `{FloatOps F} (fuel : nat) (es : list Event)
  : M F unit :=
  match es with
  | [] => ret tt
  | e :: rest => handle fuel e ;;; run_events fuel rest
  end.

(** The invariant of the session: the arrays and indices are in range,
    and while GENERATING the buffer holds at least [MIN_LEARN_NOTES] notes
    and [tendencies] is the analysis of those notes. *)
Definition session_ok {F} `{FloatOps F} (g : Globals F) : Prop :=
  buffer_ok g /\ history_ok g /\
  (learning_state g = STATE_GENERATING ->
     MIN_LEARN_NOTES <= note_buffer_count g /\
     tendencies_of_notes (learned_notes g) = Some (tendencies g)).

(** [add_note_to_history] for each note of a list, in order. *)
Fixpoint push_all {F} (notes : list Z) : M F unit :=
  match notes with
  | [] => ret tt
  | x :: rest => add_note_to_history x ;;; push_all rest
  end.

(** The last [n] elements of a list. *)
Definition lastn {A} (n : nat) (l : list A) : list A :=
  skipn (length l - n) l.

(** The learning session is complete: what [update_learning_state] tests. *)
Definition session_complete {F} `{FloatOps F} (current_time : Z)
    (g : Globals F) : bool :=
  (note_buffer_count g >=? MAX_LEARN_NOTES)
  || ((u32 (current_time - last_note_time g)
       >? u32 (500 + cast_uint32
                       (parameters_smoothed g PARAM_LEARN_TIMEOUT
                        * f_of_Z 9500)%fl))
      && (note_buffer_count g >=? MIN_LEARN_NOTES)).

(** What the history holds after the notes [l] were pushed into a cleared
    history: the circular index and the count follow the number of
    pushes, each of the last 8 notes is in the cell its position selects,
    and the cells in use hold each note as often as the last 8 pushes do. *)
Definition history_holds {F} (l : list Z) (g : Globals F) : Prop :=
  let len := Z.of_nat (length l) in
  length (note_history g) = 8%nat /\
  note_history_index g = len mod 8 /\
  note_history_count g = Z.min len 8 /\
  (forall p, Z.max 0 (len - 8) <= p < len ->
     nth (Z.to_nat (p mod 8)) (note_history g) 0 = nth (Z.to_nat p) l 0) /\
  (forall c,
     count_if (fun x => x =? c)
       (firstn (Z.to_nat (note_history_count g)) (note_history g))
     = count_if (fun x => x =? c) (lastn 8 l)).

(** A session over exact arithmetic that has learned the phrase
    60 62 64 67 69 and is generating, every control at its centre. *)
Definition generating_exact : Globals Q :=
  match
    run_events 4
      [EvNoteOn 60 0; EvNoteOn 62 100; EvNoteOn 64 200; EvNoteOn 67 300;
       EvNoteOn 69 400; EvTick 20000 20001]
      (initial_globals (fun _ => 1 # 2))
  with
  | Some (_, g) => g
  | None => initial_globals (fun _ => 1 # 2)
  end.

(** A session over exact arithmetic that is LEARNING and has received
    60 62 64 67, every control at its centre. *)
Definition learning_exact : Globals Q :=
  match
    run_events 4
      [EvNoteOn 60 0; EvNoteOn 62 100; EvNoteOn 64 200; EvNoteOn 67 300]
      (initial_globals (fun _ => 1 # 2))
  with
  | Some (_, g) => g
  | None => initial_globals (fun _ => 1 # 2)
  end.

(** ** Pitch CV *)

Section PitchCV.

Context {F : Type} `{FloatOps F}.

(** 1 V/octave, MIDI 36 at 0 V, clamped to the DAC's 0..5 V.
    [midi_note] is a [uint8_t], promoted to [int] by the subtraction. *)
Definition midi_note_to_cv (midi_note : Z) : F :=
  let cv := (f_of_Z (midi_note - 36) / f_of_Z 12)%fl in
  let cv := if (cv <? f_of_Z 0)%fl then f_of_Z 0 else cv in
  let cv := if (cv >? f_of_Z 5)%fl then f_of_Z 5 else cv in
  cv.

Definition cv_to_midi_note (cv_voltage : F) : F :=
  (f_of_Z 60 + cv_voltage * f_of_Z 12)%fl.

End PitchCV.

(** ** Clock input and gate output *)

Section Timing.

Context {F : Type} `{FloatOps F}.

(** The globals of [UpdateControls] for the clock on gate input 2 and for
    the gate output. *)
Record Timing : Type := {
  last_clock_time : Z;  (* uint32_t, milliseconds *)
  clock_interval : Z;  (* uint32_t, milliseconds *)
  clock_bpm : F;
  clock_pulse_indicator : Z;
  gate_out_state : bool;
  gate_out_start_time : Z;  (* uint32_t, milliseconds *)
  gate_length_ms : F
}.

(** The gate of a generated note: the block "Trigger gate output" of
    [UpdateControls], [now] being the reading of [System::GetNow()]. *)
Definition trigger_gate (now : Z) (c : Timing) : Timing :=
  let length_ms :=
    if clock_interval c >? 0 then
      let l := (f_of_Z (clock_interval c) * flit 5 10)%fl in
      let l := if (l <? f_of_Z 20)%fl then f_of_Z 20 else l in
      let l := if (l >? f_of_Z 500)%fl then f_of_Z 500 else l in
      l
    else f_of_Z 50 in
  {| last_clock_time := last_clock_time c;
     clock_interval := clock_interval c;
     clock_bpm := clock_bpm c;
     clock_pulse_indicator := clock_pulse_indicator c;
     gate_out_state := true;
     gate_out_start_time := now;
     gate_length_ms := length_ms |}.

(** The gate of an echoed note, in the handling of a Note On. *)
Definition echo_gate (now : Z) (c : Timing) : Timing :=
  {| last_clock_time := last_clock_time c;
     clock_interval := clock_interval c;
     clock_bpm := clock_bpm c;
     clock_pulse_indicator := clock_pulse_indicator c;
     gate_out_state := true;
     gate_out_start_time := now;
     gate_length_ms := f_of_Z 100 |}.

(** A rising edge on gate input 2. *)
Definition clock_pulse (current_time : Z) (c : Timing) : Timing :=
  let measured :=
    if last_clock_time c >? 0 then
      let interval := u32 (current_time - last_clock_time c) in
      let bpm :=
        if interval >? 0 then
          let bpm := (f_of_Z 60000 / f_of_Z interval)%fl in
          let bpm := if (bpm <? f_of_Z 20)%fl then f_of_Z 20 else bpm in
          let bpm := if (bpm >? f_of_Z 300)%fl then f_of_Z 300 else bpm in
          bpm
        else clock_bpm c in
      (interval, bpm)
    else (clock_interval c, clock_bpm c) in
  {| last_clock_time := current_time;
     clock_interval := fst measured;
     clock_bpm := snd measured;
     clock_pulse_indicator := 5;
     gate_out_state := gate_out_state c;
     gate_out_start_time := gate_out_start_time c;
     gate_length_ms := gate_length_ms c |}.

(** "Update gate output timing", at the end of [UpdateControls]. *)
Definition update_gate (current_time : Z) (c : Timing) : Timing :=
  if gate_out_state c then
    let gate_elapsed := u32 (current_time - gate_out_start_time c) in
    if gate_elapsed >=? cast_uint32 (gate_length_ms c) then
      {| last_clock_time := last_clock_time c;
         clock_interval := clock_interval c;
         clock_bpm := clock_bpm c;
         clock_pulse_indicator := clock_pulse_indicator c;
         gate_out_state := false;
         gate_out_start_time := gate_out_start_time c;
         gate_length_ms := gate_length_ms c |}
    else c
  else c.

(** The initial values of these globals. *)
Definition initial_timing : Timing :=
  {| last_clock_time := 0; clock_interval := 0; clock_bpm := f_of_Z 120;
     clock_pulse_indicator := 0; gate_out_state := false;
     gate_out_start_time := 0; gate_length_ms := f_of_Z 50 |}.

End Timing.

Arguments Timing F : clear implicits.

(** ** The control surface: pages, pots, MIDI CC *)

Definition NUM_PAGES : Z := 4.
Definition PARAMS_PER_PAGE : Z := 4.
Definition TOTAL_PARAMS : Z := 16.
Definition MIDI_CC_COUNT : Z := 16.

Definition midi_cc_numbers : list Z :=
  [3; 9; 14; 15; 20; 21; 22; 23; 24; 25; 26; 27; 28; 29; 30; 31].

(** The value of each enumerator of [ParamIndex]. *)
Definition ParamIndex_to_Z (k : ParamIndex) : Z :=
  match k with
  | PARAM_MOTION => 0 | PARAM_MEMORY => 1 | PARAM_REGISTER => 2
  | PARAM_DIRECTION => 3
  | PARAM_PHRASE => 4 | PARAM_ENERGY => 5 | PARAM_STABILITY => 6
  | PARAM_FORGETFULNESS => 7
  | PARAM_LEAP_SHAPE => 8 | PARAM_DIRECTION_MEMORY => 9
  | PARAM_HOME_REGISTER => 10 | PARAM_RANGE_WIDTH => 11
  | PARAM_LEARN_TIMEOUT => 12 | PARAM_ECHO_NOTES => 13
  | PARAM_RESERVED_1 => 14 | PARAM_RESERVED_2 => 15
  end.

Definition ParamIndex_of_Z (i : Z) : option ParamIndex :=
  match i with
  | 0 => Some PARAM_MOTION | 1 => Some PARAM_MEMORY
  | 2 => Some PARAM_REGISTER | 3 => Some PARAM_DIRECTION
  | 4 => Some PARAM_PHRASE | 5 => Some PARAM_ENERGY
  | 6 => Some PARAM_STABILITY | 7 => Some PARAM_FORGETFULNESS
  | 8 => Some PARAM_LEAP_SHAPE | 9 => Some PARAM_DIRECTION_MEMORY
  | 10 => Some PARAM_HOME_REGISTER | 11 => Some PARAM_RANGE_WIDTH
  | 12 => Some PARAM_LEARN_TIMEOUT | 13 => Some PARAM_ECHO_NOTES
  | 14 => Some PARAM_RESERVED_1 | 15 => Some PARAM_RESERVED_2
  | _ => None
  end.

(** Arrays of any element type; an access out of bounds is a fault. *)
Definition vec_get {A} (a : list A) (i : Z) : option A :=
  if (0 <=? i) && (i <? Z.of_nat (length a))
  then nth_error a (Z.to_nat i) else None.

Fixpoint vec_upd {A} (n : nat) (v : A) (a : list A) : list A :=
  match a, n with
  | [], _ => []
  | _ :: t, O => v :: t
  | x :: t, S k => x :: vec_upd k v t
  end.

Definition vec_set {A} (a : list A) (i : Z) (v : A) : option (list A) :=
  if (0 <=? i) && (i <? Z.of_nat (length a))
  then Some (vec_upd (Z.to_nat i) v a) else None.

(** The comparison [<=] of [float] values. *)
Class FloatLe (F : Type) : Type := { f_leb : F -> F -> bool }.

#[export] Instance Binary32Le : FloatLe spec_float := { f_leb := SFleb }.

#[export] Instance ExactLe : FloatLe Q := { f_leb := Qle_bool }.

Section Panel.

Context {F : Type} `{FloatOps F} `{FloatLe F}.

(** The globals of the soft takeover. *)
Record Panel : Type := {
  parameters : list F;  (* float parameters[TOTAL_PARAMS] *)
  param_pickup_active : list bool;  (* bool param_pickup_active[TOTAL_PARAMS] *)
  pot_last_value : list F;  (* float pot_last_value[TOTAL_PARAMS] *)
  pot_values : list F  (* float pot_values[4] *)
}.

Definition set_parameters (v : list F) (p : Panel) : Panel :=
  {| parameters := v; param_pickup_active := param_pickup_active p;
     pot_last_value := pot_last_value p; pot_values := pot_values p |}.

Definition set_param_pickup_active (v : list bool) (p : Panel) : Panel :=
  {| parameters := parameters p; param_pickup_active := v;
     pot_last_value := pot_last_value p; pot_values := pot_values p |}.

Definition set_pot_last_value (v : list F) (p : Panel) : Panel :=
  {| parameters := parameters p;
     param_pickup_active := param_pickup_active p;
     pot_last_value := v; pot_values := pot_values p |}.

Definition set_pot_values (v : list F) (p : Panel) : Panel :=
  {| parameters := parameters p;
     param_pickup_active := param_pickup_active p;
     pot_last_value := pot_last_value p; pot_values := v |}.

Definition set_parameters_smoothed (v : ParamIndex -> F) (g : Globals F)
  : Globals F :=
  {| parameters_smoothed := v; learning_state := learning_state g;
     note_buffer := note_buffer g; note_buffer_count := note_buffer_count g;
     last_note_time := last_note_time g; tendencies := tendencies g;
     current_note := current_note g; previous_note := previous_note g;
     last_interval := last_interval g;
     last_direction_up := last_direction_up g;
     note_history := note_history g;
     note_history_count := note_history_count g;
     note_history_index := note_history_index g;
     phrase_note_count := phrase_note_count g;
     phrase_target_length := phrase_target_length g;
     rng_state := rng_state g; current_page := current_page g;
     page_change_timer := page_change_timer g |}.

(** The assignment [a[k] = v] to an array indexed by [ParamIndex]. *)
Definition param_upd (k : ParamIndex) (v : F) (a : ParamIndex -> F)
  : ParamIndex -> F :=
  fun j => if ParamIndex_to_Z j =? ParamIndex_to_Z k then v else a j.

Definition PICKUP_THRESHOLD : F := flit 5 100.
Definition SMOOTHING_COEFF : F := flit 15 100.

(** The handling of a Control Change in [UpdateControls]: the loop over
    [midi_cc_numbers], left by [break] at the first match. *)
Fixpoint control_change_loop (n : nat) (i : Z) (cc_number cc_value : Z)
    (s : Globals F * Panel) : option (Globals F * Panel) :=
  match n with
  | O => Some s
  | S n' =>
      let? c := arr_get midi_cc_numbers i in
      if cc_number =? c then
        let param_value := (f_of_Z cc_value / f_of_Z 127)%fl in
        let? ps := vec_set (parameters (snd s)) i param_value in
        let? k := ParamIndex_of_Z i in
        let? pa := vec_set (param_pickup_active (snd s)) i false in
        Some (set_parameters_smoothed
                (param_upd k param_value (parameters_smoothed (fst s)))
                (fst s),
              set_param_pickup_active pa (set_parameters ps (snd s)))
      else control_change_loop n' (i + 1) cc_number cc_value s
  end.

Definition control_change (cc_number cc_value : Z)
    (s : Globals F * Panel) : option (Globals F * Panel) :=
  control_change_loop (Z.to_nat MIDI_CC_COUNT) 0 cc_number cc_value s.

(** Page navigation in [UpdateControls]: [encoder_change] is the value of
    [hw.encoder.Increment()], [readings i] that of
    [hw.controls[i].Process()]. The entry written to the debug log is
    not modelled. *)
Definition encoder_turn (encoder_change : Z) (readings : Z -> F)
    (s : Globals F * Panel) : option (Globals F * Panel) :=
  if encoder_change =? 0 then Some s
  else
    let page := current_page (fst s) + encoder_change in
    let page :=
      if page <? 0 then NUM_PAGES - 1
      else if page >=? NUM_PAGES then 0 else page in
    let g := set_page_change_timer 60 (set_current_page page (fst s)) in
    let? p :=
      for_range 0 (Z.to_nat PARAMS_PER_PAGE)
        (fun i p =>
           let param_index := current_page g * PARAMS_PER_PAGE + i in
           let? pa := vec_set (param_pickup_active p) param_index false in
           let p := set_param_pickup_active pa p in
           let? pl := vec_set (pot_last_value p) param_index (readings i) in
           Some (set_pot_last_value pl p))
        (snd s) in
    Some (g, p).

(** One pass of the loop "Read 4 potentiometers and update parameters
    with soft takeover". *)
Definition soft_takeover_step (readings : Z -> F) (page : Z) (i : Z)
    (p : Panel) : option Panel :=
  let? pv := vec_set (pot_values p) i (readings i) in
  let p := set_pot_values pv p in
  let param_index := page * PARAMS_PER_PAGE + i in
  let? active := vec_get (param_pickup_active p) param_index in
  let? p :=
    if negb active then
      let? stored_value := vec_get (parameters p) param_index in
      let? pot_value := vec_get (pot_values p) i in
      if (f_abs (pot_value - stored_value) <? PICKUP_THRESHOLD)%fl then
        let? pa := vec_set (param_pickup_active p) param_index true in
        Some (set_param_pickup_active pa p)
      else
        let? last_pot := vec_get (pot_last_value p) param_index in
        let crossed :=
          (f_leb last_pot stored_value && f_leb stored_value pot_value)
          || (f_leb stored_value last_pot && f_leb pot_value stored_value) in
        if crossed then
          let? pa := vec_set (param_pickup_active p) param_index true in
          Some (set_param_pickup_active pa p)
        else Some p
    else Some p in
  let? active := vec_get (param_pickup_active p) param_index in
  let? p :=
    if active then
      let? pot_value := vec_get (pot_values p) i in
      let? ps := vec_set (parameters p) param_index pot_value in
      Some (set_parameters ps p)
    else Some p in
  let? pot_value := vec_get (pot_values p) i in
  let? pl := vec_set (pot_last_value p) param_index pot_value in
  Some (set_pot_last_value pl p).

Definition soft_takeover (readings : Z -> F) (page : Z) (p : Panel)
  : option Panel :=
  for_range 0 (Z.to_nat PARAMS_PER_PAGE) (soft_takeover_step readings page) p.

(** "Apply smoothing to ALL parameters": one pass of the one-pole
    lowpass over the 16 parameters. *)
Definition smooth_parameters (p : Panel) (g : Globals F)
  : option (Globals F) :=
  for_range 0 (Z.to_nat TOTAL_PARAMS)
    (fun i g =>
       let? k := ParamIndex_of_Z i in
       let? target := vec_get (parameters p) i in
       let smoothed := parameters_smoothed g k in
       Some (set_parameters_smoothed
               (param_upd k
                  (smoothed + SMOOTHING_COEFF * (target - smoothed))%fl
                  (parameters_smoothed g))
               g))
    g.

(** What a pass of [UpdateControls] does to the control surface, in the
    order of the source: the MIDI events, the encoder, the pots, the
    smoothing, the encoder's switch. *)
Inductive PanelEvent : Type :=
  | PeControlChange (cc_number cc_value : Z)
  | PeTurn (encoder_change : Z) (readings : Z -> F)
  | PePots (readings : Z -> F)
  | PeSmooth
  | PeClick.

Definition panel_handle (e : PanelEvent) (s : Globals F * Panel)
  : option (Globals F * Panel) :=
  match e with
  | PeControlChange cc_number cc_value => control_change cc_number cc_value s
  | PeTurn encoder_change readings => encoder_turn encoder_change readings s
  | PePots readings =>
      let? p := soft_takeover readings (current_page (fst s)) (snd s) in
      Some (fst s, p)
  | PeSmooth =>
      let? g := smooth_parameters (snd s) (fst s) in Some (g, snd s)
  | PeClick =>
      let? ' (_, g) := encoder_click (fst s) in Some (g, snd s)
  end.

Fixpoint panel_run (es : list PanelEvent) (s : Globals F * Panel)
  : option (Globals F * Panel) :=
  match es with
  | [] => Some s
  | e :: rest => let? s' := panel_handle e s in panel_run rest s'
  end.

(** The arrays have their declared sizes and the page is one of the four. *)
Definition panel_ok (s : Globals F * Panel) : Prop :=
  length (parameters (snd s)) = 16%nat /\
  length (param_pickup_active (snd s)) = 16%nat /\
  length (pot_last_value (snd s)) = 16%nat /\
  length (pot_values (snd s)) = 4%nat /\
  0 <= current_page (fst s) < NUM_PAGES.

End Panel.

Arguments Panel F : clear implicits.
Arguments PanelEvent F : clear implicits.

(** Whether the soft takeover lets the pot drive a parameter: pickup was
    active, or the pot is within the threshold of the stored value, or
    the pot has passed the stored value since its last reading. *)
Definition picked_up {F} `{FloatOps F} `{FloatLe F}
    (active : bool) (stored_value last_pot pot_value : F) : bool :=
  active
  || (f_abs (pot_value - stored_value) <? PICKUP_THRESHOLD)%fl
  || (f_leb last_pot stored_value && f_leb stored_value pot_value)
  || (f_leb stored_value last_pot && f_leb pot_value stored_value).

Section PowerOn.

Context {F : Type} `{FloatOps F}.

(** The initialisation of the parameters in [main], from the readings of
    the four pots; the arrays are zero-initialised globals. *)
Definition init_parameters (readings : Z -> F)
  : option ((ParamIndex -> F) * Panel F) :=
  let p :=
    {| parameters := repeat (f_of_Z 0) 16;
       param_pickup_active := repeat false 16;
       pot_last_value := repeat (f_of_Z 0) 16;
       pot_values := repeat (f_of_Z 0) 4 |} in
  let? p :=
    for_range 0 (Z.to_nat PARAMS_PER_PAGE)
      (fun i p =>
         let? pv := vec_set (pot_values p) i (readings i) in
         Some (set_pot_values pv p))
      p in
  let? s :=
    for_range 0 (Z.to_nat TOTAL_PARAMS)
      (fun i (s : (ParamIndex -> F) * Panel F) =>
         let? k := ParamIndex_of_Z i in
         if i <? PARAMS_PER_PAGE then
           let? v := vec_get (pot_values (snd s)) i in
           let? ps := vec_set (parameters (snd s)) i v in
           let? pa := vec_set (param_pickup_active (snd s)) i true in
           let? pl := vec_set (pot_last_value (snd s)) i v in
           Some (param_upd k v (fst s),
                 set_pot_last_value pl
                   (set_param_pickup_active pa (set_parameters ps (snd s))))
         else
           let? ps := vec_set (parameters (snd s)) i (flit 5 10) in
           let? pa := vec_set (param_pickup_active (snd s)) i false in
           let? v := vec_get (pot_values (snd s)) (Z.rem i PARAMS_PER_PAGE) in
           let? pl := vec_set (pot_last_value (snd s)) i v in
           Some (param_upd k (flit 5 10) (fst s),
                 set_pot_last_value pl
                   (set_param_pickup_active pa (set_parameters ps (snd s)))))
      (fun _ => f_of_Z 0, p) in
  let? ps :=
    vec_set (parameters (snd s)) (ParamIndex_to_Z PARAM_LEARN_TIMEOUT)
      (flit 158 1000) in
  let sm := param_upd PARAM_LEARN_TIMEOUT (flit 158 1000) (fst s) in
  let? ps := vec_set ps (ParamIndex_to_Z PARAM_ECHO_NOTES) (f_of_Z 0) in
  let sm := param_upd PARAM_ECHO_NOTES (f_of_Z 0) sm in
  Some (sm, set_parameters ps (snd s)).

(** The state when [main] enters its loop. *)
Definition power_on (readings : Z -> F) : option (Globals F * Panel F) :=
  let? s := init_parameters readings in
  Some (initial_globals (fst s), snd s).

End PowerOn.

(** The control surface over exact arithmetic at power-on, the four pots
    at 1/5, 2/5, 3/5 and 4/5. *)
Definition panel_exact : Globals Q * Panel Q :=
  match power_on (fun i => inject_Z (i + 1) / 5)%Q with
  | Some s => s
  | None =>
      (initial_globals (fun _ => 0%Q),
       {| parameters := []; param_pickup_active := [];
          pot_last_value := []; pot_values := [] |})
  end.

(** ** The main loop *)

(** What one pass of the loop of [main] does with [frame_counter]
    ([if(frame_counter++ > 33) { UpdateDisplay(); frame_counter = 0; }]):
    whether [UpdateDisplay] is called, and the new value. *)
Definition main_loop_step (frame_counter : Z) : bool * Z :=
  let tested := frame_counter in
  let frame_counter := frame_counter + 1 in
  if tested >? 33 then (true, 0) else (false, frame_counter).

(** The passes among the first [n] in which the display is updated. *)
Fixpoint main_loop (n : nat) (frame_counter : Z) : list bool * Z :=
  match n with
  | O => ([], frame_counter)
  | S n' =>
      let (shown, frame_counter) := main_loop_step frame_counter in
      let (rest, frame_counter) := main_loop n' frame_counter in
      (shown :: rest, frame_counter)
  end.

(** * Properties *)

(** ** Arrays and loops *)

Lemma in_bounds_true (a : list Z) (i : Z) :
  0 <= i < Z.of_nat (length a) -> in_bounds a i = true.
Proof. unfold in_bounds; intros; apply andb_true_iff; split; lia. Qed.

Lemma in_bounds_false (a : list Z) (i : Z) :
  ~ 0 <= i < Z.of_nat (length a) -> in_bounds a i = false.
Proof.
  unfold in_bounds; intros Hn.
  destruct (0 <=? i) eqn:E1; destruct (i <? Z.of_nat (length a)) eqn:E2;
    auto; exfalso; apply Hn; lia.
Qed.

Lemma arr_get_nth (a : list Z) (i : Z) :
  0 <= i < Z.of_nat (length a) ->
  arr_get a i = Some (nth (Z.to_nat i) a 0).
Proof.
  intros Hi; unfold arr_get; rewrite in_bounds_true by assumption.
  apply nth_error_nth'; lia.
Qed.

Lemma arr_set_upd (a : list Z) (i v : Z) :
  0 <= i < Z.of_nat (length a) ->
  arr_set a i v = Some (upd (Z.to_nat i) v a).
Proof. intros Hi; unfold arr_set; now rewrite in_bounds_true. Qed.

Lemma upd_length (n : nat) (v : Z) (a : list Z) :
  length (upd n v a) = length a.
Proof.
  revert n; induction a as [|x a IH]; intros [|n]; simpl; auto.
Qed.

Lemma nth_upd (n k : nat) (v : Z) (a : list Z) :
  (n < length a)%nat ->
  nth k (upd n v a) 0 = if Nat.eqb k n then v else nth k a 0.
Proof.
  revert n k; induction a as [|x a IH]; intros n k Hn; simpl in Hn; [lia|].
  destruct n as [|n]; destruct k as [|k]; simpl; auto.
  apply IH; lia.
Qed.

Lemma arr_get_mid (pre post : list Z) (x : Z) :
  arr_get (pre ++ x :: post) (Z.of_nat (length pre)) = Some x.
Proof.
  rewrite arr_get_nth by (rewrite length_app; simpl; lia).
  rewrite Nat2Z.id, app_nth2, Nat.sub_diag by lia; reflexivity.
Qed.

Lemma arr_set_length (a b : list Z) (i v : Z) :
  arr_set a i v = Some b -> length b = length a.
Proof.
  unfold arr_set; destruct (in_bounds a i); [|discriminate].
  intros [= <-]; apply upd_length.
Qed.

(** The invariant rule for [for_range]: the loop does not fault and
    establishes the invariant at the final index. *)
Lemma for_range_inv {St : Type} (Inv : Z -> St -> Prop)
    (body : Z -> St -> option St) (n : nat) :
  forall lo s,
    Inv lo s ->
    (forall i s, lo <= i < lo + Z.of_nat n -> Inv i s ->
       exists s', body i s = Some s' /\ Inv (i + 1) s') ->
    exists s', for_range lo n body s = Some s' /\ Inv (lo + Z.of_nat n) s'.
Proof.
  induction n as [|n IH]; intros lo s H0 Hstep.
  - exists s; split; [reflexivity|]. now replace (lo + Z.of_nat 0) with lo by lia.
  - destruct (Hstep lo s ltac:(lia) H0) as (s1 & Hb & H1).
    destruct (IH (lo + 1) s1 H1) as (s' & Hr & H').
    { intros i s2 Hi; apply Hstep; lia. }
    exists s'; split.
    + simpl; now rewrite Hb.
    + now replace (lo + Z.of_nat (S n)) with (lo + 1 + Z.of_nat n) by lia.
Qed.

(** Two loops whose bodies agree on the indices they visit agree. *)
Lemma for_range_ext {St : Type} (body body' : Z -> St -> option St)
    (n : nat) :
  forall lo s,
    (forall i s, lo <= i < lo + Z.of_nat n -> body i s = body' i s) ->
    for_range lo n body s = for_range lo n body' s.
Proof.
  induction n as [|n IH]; intros lo s Hext; simpl; [reflexivity|].
  rewrite Hext by lia.
  destruct (body' lo s); [|reflexivity].
  apply IH; intros; apply Hext; lia.
Qed.

(** ** The scan for the most common intervals *)

Lemma common_step_inv (counts : list Z) (k : Z) (acc : Z * Z * Z * Z) :
  (forall j, 0 <= nth (Z.to_nat j) counts 0) ->
  0 <= k < Z.of_nat (length counts) ->
  common_inv counts k acc ->
  exists acc', common_step counts k acc = Some acc' /\
               common_inv counts (k + 1) acc'.
Proof.
  intros Hc Hk Hinv.
  destruct acc as [[[mx smx] most] sec].
  unfold common_step. rewrite arr_get_nth by assumption.
  unfold common_inv in Hinv; cbv beta zeta in Hinv.
  destruct Hinv as [H0 H1].
  assert (Hsplit : forall j, 0 <= j < k + 1 -> j = k \/ 0 <= j < k) by lia.
  assert (Hcase : k = 0 \/ 1 <= k) by lia.
  destruct (Z.gtb_spec (nth (Z.to_nat k) counts 0) mx) as [Hgt|Hle];
    [|destruct (Z.gtb_spec (nth (Z.to_nat k) counts 0) smx) as [Hgt2|Hle2]];
    (eexists; split; [reflexivity|]);
    unfold common_inv; cbv beta zeta; (split; [lia|]); intros _;
    (destruct Hcase as [-> | Hk1];
     [ destruct (H0 eq_refl) as (-> & -> & -> & ->); clear H0 H1
     | destruct (H1 Hk1) as (Hm & Hmx & Hall & Hs & Hoth & Hsec & Hz);
       clear H0 H1 ]).
  all: repeat apply conj; try lia.
  all: try (intros j Hj; destruct (Hsplit j Hj) as [-> | Hj'];
            [lia | first [lia | pose proof (Hall j Hj'); lia]]).
  all: try (intros j Hj Hne; destruct (Hsplit j Hj) as [-> | Hj'];
            [lia | first [lia | pose proof (Hall j Hj');
                                pose proof (Hoth j Hj'); lia]]).
  all: try (intros Hp; first [lia | destruct (Hsec Hp) as (? & ? & ? & ?); lia]).
  - pose proof (Hc most); lia.
  - intros Hp; repeat apply conj; try lia.
    intros j Hj Hne; pose proof (Hall j); lia.
  - intros Hmx0. pose proof (Hall 0). pose proof (Hc 0). lia.
  - intros Hp; repeat apply conj; try lia.
    intros j Hj Hne; pose proof (Hoth j); lia.
  - pose proof (Hc 0); lia.
  - intros Hp. destruct (Hsec Hp) as (? & ? & ? & Hl).
    repeat apply conj; try lia.
    intros j Hj Hne. apply Hl; lia.
Qed.

(** The scan of [analyze_learned_notes] over a histogram of non-negative
    counts. *)
Lemma common_scan (counts : list Z) :
  length counts = 13%nat ->
  Forall (fun c => 0 <= c) counts ->
  exists acc,
    for_range 0 13 (common_step counts) (0, 0, 0, 0) = Some acc /\
    common_inv counts 13 acc.
Proof.
  intros Hlen Hpos.
  assert (Hc : forall j, 0 <= nth (Z.to_nat j) counts 0).
  { intros j. destruct (Nat.lt_ge_cases (Z.to_nat j) (length counts)).
    - rewrite Forall_forall in Hpos. apply Hpos, nth_In; assumption.
    - rewrite nth_overflow by assumption. lia. }
  apply (for_range_inv (common_inv counts) (common_step counts) 13 0).
  - unfold common_inv; split; [auto | lia].
  - intros i s Hi Hinv. apply common_step_inv; auto. rewrite Hlen; lia.
Qed.

Lemma common_scan_slots (counts : list Z) :
  length counts = 13%nat ->
  Forall (fun c => 0 <= c) counts ->
  exists mx smx most second,
    for_range 0 13 (common_step counts) (0, 0, 0, 0)
      = Some (mx, smx, most, second) /\
    lowest_max counts (fun _ => True) most /\
    ((exists j, 1 <= j <= 12 /\ 0 < nth (Z.to_nat j) counts 0) ->
       lowest_max counts (fun j => j <> most) second) /\
    ((forall j, 1 <= j <= 12 -> nth (Z.to_nat j) counts 0 = 0) ->
       most = 0 /\ second = 0).
Proof.
  intros Hlen Hpos.
  destruct (common_scan counts Hlen Hpos) as ([[[mx smx] most] sec] & Hrun & Hinv).
  assert (Hc : forall j, 0 <= nth (Z.to_nat j) counts 0).
  { intros j. destruct (Nat.lt_ge_cases (Z.to_nat j) (length counts)).
    - rewrite Forall_forall in Hpos. apply Hpos, nth_In; assumption.
    - rewrite nth_overflow by assumption. lia. }
  exists mx, smx, most, sec. split; [exact Hrun|].
  unfold common_inv in Hinv; cbv beta zeta in Hinv.
  destruct Hinv as [_ H1].
  destruct (H1 ltac:(lia)) as (Hm & Hmx & Hall & Hs & Hoth & Hsec & Hz).
  unfold lowest_max; rewrite Hlen.
  split; [|split].
  - repeat apply conj; try lia; auto.
    intros j Hj _. pose proof (Hall j). lia.
  - intros (j0 & Hj0 & Hpos0).
    assert (Hcase : 0 < smx \/ smx = 0) by lia.
    destruct Hcase as [Hp | Hzero].
    + destruct (Hsec Hp) as (? & ? & ? & Hl).
      repeat apply conj; try lia.
      intros j Hj Hne. pose proof (Hoth j). pose proof (Hl j). lia.
    + specialize (Hz Hzero); subst sec.
      assert (most = j0).
      { destruct (Z.eq_dec most j0); [assumption|].
        pose proof (Hoth j0). lia. }
      repeat apply conj; try lia.
      intros j Hj Hne. pose proof (Hoth j). pose proof (Hoth 0).
      pose proof (Hc 0). lia.
  - intros Hzeros.
    assert (most = 0).
    { destruct (Z.eq_dec most 0); [assumption|].
      pose proof (Hall 0). pose proof (Hzeros most). pose proof (Hc 0). lia. }
    split; [assumption|].
    apply Hz.
    assert (Hcase : 0 < smx \/ smx = 0) by lia.
    destruct Hcase as [Hp | Hzero]; [|assumption].
    destruct (Hsec Hp) as (? & ? & ? & ?).
    pose proof (Hzeros sec). lia.
Qed.

(** ** The loops of the analysis *)

Section AnalysisLoops.

Context {F : Type} `{FloatOps F}.

Lemma register_loop (rest pre junk : list Z) (acc : Z * Z * F) :
  for_range (Z.of_nat (length pre)) (length rest)
    (register_step (pre ++ rest ++ junk)) acc
  = Some (fold_left register_acc rest acc).
Proof.
  revert pre acc; induction rest as [|a rest IH]; intros pre acc; simpl;
    [reflexivity|].
  destruct acc as [[rmin rmax] note_sum].
  unfold register_step at 1. rewrite arr_get_mid.
  replace (pre ++ a :: rest ++ junk) with ((pre ++ [a]) ++ rest ++ junk)
    by (rewrite <- app_assoc; reflexivity).
  replace (Z.of_nat (length pre) + 1) with (Z.of_nat (length (pre ++ [a])))
    by (rewrite length_app; simpl; lia).
  apply IH.
Qed.

Lemma saturated_range (d : Z) : 0 <= saturated d <= 12.
Proof. unfold saturated; lia. Qed.

Lemma saturated_code (d : Z) :
  (if Z.abs d >? 12 then 12 else Z.abs d) = saturated d.
Proof. unfold saturated; destruct (Z.gtb_spec (Z.abs d) 12); lia. Qed.

Lemma intervals_cons (a b : Z) (rest : list Z) :
  intervals (a :: b :: rest) = (b - a) :: intervals (b :: rest).
Proof. reflexivity. Qed.

Lemma interval_loop (rest pre junk : list Z) (a : Z)
    (acc : list Z * Z * Z * Z * Z) :
  length (fst (fst (fst (fst acc)))) = 13%nat ->
  for_range (Z.of_nat (length pre)) (length rest)
    (interval_step (pre ++ a :: rest ++ junk)) acc
  = Some (fold_left interval_acc (intervals (a :: rest)) acc).
Proof.
  revert pre a acc; induction rest as [|b rest IH]; intros pre a acc Hlen;
    [reflexivity|].
  destruct acc as [[[[counts total] asc] desc] rep]; simpl in Hlen.
  cbn [length for_range].
  unfold interval_step at 1.
  replace (pre ++ a :: (b :: rest) ++ junk)
    with ((pre ++ [a]) ++ b :: rest ++ junk) at 1
    by (rewrite <- app_assoc; reflexivity).
  replace (Z.of_nat (length pre) + 1) with (Z.of_nat (length (pre ++ [a])))
    by (rewrite length_app; simpl; lia).
  rewrite arr_get_mid, arr_get_mid.
  rewrite saturated_code.
  pose proof (saturated_range (b - a)) as Hs.
  rewrite arr_get_nth by lia. rewrite arr_set_upd by lia.
  replace (pre ++ a :: (b :: rest) ++ junk)
    with ((pre ++ [a]) ++ b :: rest ++ junk)
    by (rewrite <- app_assoc; reflexivity).
  rewrite intervals_cons. cbn [fold_left].
  unfold interval_acc at 2.
  destruct (b - a >? 0); [|destruct (b - a <? 0)];
    (rewrite IH by (simpl; now rewrite upd_length)); reflexivity.
Qed.

End AnalysisLoops.

(** ** What the analysis loops compute *)

Lemma count_if_cons (p : Z -> bool) (d : Z) (ds : list Z) :
  count_if p (d :: ds) = (if p d then 1 else 0) + count_if p ds.
Proof.
  unfold count_if; simpl; destruct (p d); simpl length; lia.
Qed.

Lemma count_if_nonneg (p : Z -> bool) (ds : list Z) : 0 <= count_if p ds.
Proof. unfold count_if; lia. Qed.

Lemma Zsum_upd_incr (k : nat) (l : list Z) :
  (k < length l)%nat -> Zsum (upd k (nth k l 0 + 1) l) = Zsum l + 1.
Proof.
  revert k; induction l as [|x l IH]; intros k Hk; simpl in Hk; [lia|].
  destruct k as [|k]; simpl; [lia|].
  rewrite IH by lia. lia.
Qed.

Lemma intervals_length (a : Z) (rest : list Z) :
  length (intervals (a :: rest)) = length rest.
Proof.
  revert a; induction rest as [|b rest IH]; intros a; [reflexivity|].
  rewrite intervals_cons; cbn [length]. now rewrite IH.
Qed.

Lemma fold_interval_acc (ds : list Z) :
  forall counts total asc desc rep,
    length counts = 13%nat ->
    exists counts',
      fold_left interval_acc ds (counts, total, asc, desc, rep)
      = (counts', total + Z.of_nat (length ds),
         asc + count_if (fun d => d >? 0) ds,
         desc + count_if (fun d => d <? 0) ds,
         rep + count_if (fun d => d =? 0) ds) /\
      length counts' = 13%nat /\
      Zsum counts' = Zsum counts + Z.of_nat (length ds) /\
      forall k, 0 <= k <= 12 ->
        nth (Z.to_nat k) counts' 0
        = nth (Z.to_nat k) counts 0
          + count_if (fun d => saturated d =? k) ds.
Proof.
  induction ds as [|d ds IH]; intros counts total asc desc rep Hlen.
  - exists counts; unfold count_if; simpl.
    rewrite !Z.add_0_r.
    split; [reflexivity|split; [assumption|split; [reflexivity|]]].
    intros; now rewrite Z.add_0_r.
  - pose proof (saturated_range d) as Hs.
    cbn [fold_left]. unfold interval_acc at 2.
    set (k := Z.to_nat (saturated d)).
    assert (Hk : (k < length counts)%nat) by (subst k; lia).
    destruct (IH (upd k (nth k counts 0 + 1) counts) (total + 1)
                (if d >? 0 then asc + 1 else asc)
                (if d >? 0 then desc else if d <? 0 then desc + 1 else desc)
                (if d >? 0 then rep else if d <? 0 then rep else rep + 1))
      as (counts' & Hfold & Hlen' & Hsum & Hnth).
    { now rewrite upd_length. }
    exists counts'. rewrite Hfold. rewrite !count_if_cons.
    split; [|split; [assumption|split]].
    + f_equal; [f_equal; [f_equal; [f_equal|]|]|].
      * simpl length; lia.
      * destruct (Z.gtb_spec d 0); lia.
      * destruct (Z.gtb_spec d 0); destruct (Z.ltb_spec d 0); lia.
      * destruct (Z.gtb_spec d 0); destruct (Z.ltb_spec d 0);
          destruct (Z.eqb_spec d 0); lia.
    + rewrite Hsum, Zsum_upd_incr by assumption. simpl length; lia.
    + intros j Hj. rewrite Hnth by assumption.
      rewrite nth_upd by assumption. rewrite count_if_cons.
      destruct (Nat.eqb_spec (Z.to_nat j) k) as [E|E];
        destruct (Z.eqb_spec (saturated d) j) as [E'|E']; subst k; try lia.
      subst j; lia.
Qed.

(** *** The note sum in binary32 *)

Lemma sf_eqb_eq (x y : spec_float) : sf_eqb x y = true -> x = y.
Proof.
  destruct x as [s|s| |s m e], y as [s'|s'| |s' m' e']; simpl;
    try discriminate; auto.
  - intros E; apply eqb_prop in E; now subst.
  - intros E; apply eqb_prop in E; now subst.
  - intros E. apply andb_true_iff in E as [E E3].
    apply andb_true_iff in E as [E1 E2].
    apply eqb_prop in E1. apply Pos.eqb_eq in E2. apply Z.eqb_eq in E3.
    now subst.
Qed.

(** *** The note sum in binary32 *)

Lemma row_sound (fa : spec_float) (bs sums : list spec_float) :
  row fa bs sums = true ->
  forall b, (b < length bs)%nat ->
    SFadd 24 128 fa (nth b bs S754_nan) = nth b sums S754_nan.
Proof.
  revert sums; induction bs as [|x bs IH]; intros sums Hrow b Hb;
    simpl in Hb; [lia|].
  destruct sums as [|s sums]; [discriminate|].
  cbn [row] in Hrow. apply andb_true_iff in Hrow as [Hx Hrest].
  destruct b as [|b]; cbn [nth].
  - now apply sf_eqb_eq.
  - apply IH; [assumption | lia].
Qed.

Lemma rows_sound (n : nat) (bs : list spec_float) :
  forall tbl, rows n bs tbl = true ->
  forall a b, (a < n)%nat -> (b < length bs)%nat ->
    SFadd 24 128 (nth a tbl S754_nan) (nth b bs S754_nan)
    = nth (a + b) tbl S754_nan.
Proof.
  induction n as [|n IH]; intros tbl Hrows a b Ha Hb; [lia|].
  destruct tbl as [|fa tbl]; [discriminate|].
  cbn [rows] in Hrows. apply andb_true_iff in Hrows as [Hrow Hrest].
  destruct a as [|a].
  - cbn [nth Nat.add]. now apply (row_sound fa bs (fa :: tbl)).
  - cbn [nth Nat.add]. apply IH; [assumption | lia | assumption].
Qed.

Lemma b32_table_nth (n k : nat) :
  (k < n)%nat -> nth k (b32_table n) S754_nan = b32_of_Z (Z.of_nat k).
Proof.
  intros Hk. unfold b32_table.
  rewrite (nth_indep _ S754_nan (b32_of_Z (Z.of_nat 0)))
    by now rewrite length_map, length_seq.
  rewrite (map_nth (fun k => b32_of_Z (Z.of_nat k))).
  now rewrite seq_nth.
Qed.

Lemma nth_firstn_lt {A} (l : list A) (d : A) (k n : nat) :
  (k < n)%nat -> nth k (firstn n l) d = nth k l d.
Proof.
  revert k n; induction l as [|x l IH]; intros k n Hk.
  - now rewrite firstn_nil.
  - destruct n as [|n]; [lia|]. destruct k as [|k]; [reflexivity|].
    cbn [firstn nth]. apply IH; lia.
Qed.

Lemma add_exact_check :
  rows 1906 (firstn 128 (b32_table 2033)) (b32_table 2033) = true.
Proof. vm_compute. reflexivity. Qed.

Lemma b32_table_length (n : nat) : length (b32_table n) = n.
Proof. unfold b32_table. now rewrite length_map, length_seq. Qed.

(** Partial sums of up to sixteen MIDI notes are added exactly. *)
Lemma b32_add_exact (a b : Z) :
  0 <= a <= 1905 -> 0 <= b <= 127 ->
  SFadd 24 128 (b32_of_Z a) (b32_of_Z b) = b32_of_Z (a + b).
Proof.
  intros Ha Hb.
  pose proof (rows_sound 1906 _ _ add_exact_check
                (Z.to_nat a) (Z.to_nat b)) as Hs.
  rewrite length_firstn, b32_table_length in Hs.
  assert (Hmin : Nat.min 128 2033 = 128%nat) by reflexivity.
  rewrite Hmin in Hs.
  assert (Ha' : (Z.to_nat a < 1906)%nat) by lia.
  assert (Hb' : (Z.to_nat b < 128)%nat) by lia.
  specialize (Hs Ha' Hb').
  rewrite nth_firstn_lt in Hs by assumption.
  rewrite !b32_table_nth in Hs by lia.
  rewrite Nat2Z.inj_add, !Z2Nat.id in Hs by lia.
  exact Hs.
Qed.

Lemma fold_register_sum (notes : list Z) :
  forall rmin rmax s0,
    0 <= s0 ->
    Forall (fun x => 0 <= x <= 127) notes ->
    s0 + 127 * Z.of_nat (length notes) <= 2032 ->
    snd (fold_left register_acc notes (rmin, rmax, b32_of_Z s0))
    = b32_of_Z (s0 + Zsum notes).
Proof.
  induction notes as [|x notes IH]; intros rmin rmax s0 Hs0 Hall Hbound.
  - simpl. now rewrite Z.add_0_r.
  - inversion Hall as [|? ? Hx Hall']; subst.
    cbn [fold_left]. unfold register_acc at 2.
    cbn [f_add f_of_Z Binary32].
    cbn [length] in Hbound.
    rewrite b32_add_exact by lia.
    rewrite (IH _ _ (s0 + x)); [| lia | assumption | lia].
    unfold Zsum; cbn [fold_right]. f_equal; lia.
Qed.
(** ** The analysis as a function of the learned notes *)

Lemma nonneg_of_nth (l : list Z) :
  (forall k, 0 <= k < Z.of_nat (length l) -> 0 <= nth (Z.to_nat k) l 0) ->
  Forall (fun c => 0 <= c) l.
Proof.
  intros Hn. apply Forall_forall. intros x Hin.
  destruct (In_nth l x 0 Hin) as (k & Hk & <-).
  specialize (Hn (Z.of_nat k)). rewrite Nat2Z.id in Hn. apply Hn; lia.
Qed.

Section Analysis.

Context {F : Type} `{FloatOps F}.

Lemma learned_notes_length (g : Globals F) :
  buffer_ok g ->
  Z.of_nat (length (learned_notes g)) = note_buffer_count g.
Proof.
  intros [Hlen Hn]. unfold learned_notes, MAX_LEARN_NOTES in *.
  rewrite length_firstn, Hlen. lia.
Qed.

Lemma note_buffer_split (g : Globals F) :
  note_buffer g
  = learned_notes g ++ skipn (Z.to_nat (note_buffer_count g)) (note_buffer g).
Proof. unfold learned_notes. now rewrite firstn_skipn. Qed.

(** The histogram loop, started from the empty histogram. *)
Lemma histogram_of_intervals (ds : list Z) :
  exists counts,
    fold_left interval_acc ds (repeat 0 13, 0, 0, 0, 0)
    = (counts, Z.of_nat (length ds),
       count_if (fun d => d >? 0) ds,
       count_if (fun d => d <? 0) ds,
       count_if (fun d => d =? 0) ds) /\
    length counts = 13%nat /\
    Zsum counts = Z.of_nat (length ds) /\
    (forall k, 0 <= k <= 12 ->
       nth (Z.to_nat k) counts 0 = count_if (fun d => saturated d =? k) ds) /\
    Forall (fun c => 0 <= c) counts.
Proof.
  destruct (fold_interval_acc ds (repeat 0 13) 0 0 0 0 eq_refl)
    as (counts & Hfold & Hlen & Hsum & Hnth).
  exists counts. rewrite Hfold. cbn [Z.add].
  assert (Hz : forall k, 0 <= k <= 12 -> nth (Z.to_nat k) (repeat 0 13) 0 = 0).
  { intros k Hk. apply nth_repeat. }
  repeat apply conj; auto.
  - intros k Hk. rewrite Hnth, Hz by assumption. reflexivity.
  - apply nonneg_of_nth. intros k Hk. rewrite Hlen in Hk.
    rewrite Hnth, Hz by lia. apply count_if_nonneg.
Qed.

(** The analysis of a buffer never faults. *)
Lemma tendencies_of_notes_total (notes : list Z) :
  exists t : LearnedTendencies F, tendencies_of_notes notes = Some t.
Proof.
  unfold tendencies_of_notes.
  destruct (Z.of_nat (length notes) <? 2); [eexists; reflexivity|].
  destruct (fold_left register_acc notes (127, 0, f_of_Z 0))
    as [[rmin rmax] note_sum].
  destruct (histogram_of_intervals (intervals notes))
    as (counts & -> & Hlen & _ & _ & Hpos).
  destruct (common_scan counts Hlen Hpos)
    as ([[[mx smx] most] sec] & -> & _).
  eexists; reflexivity.
Qed.

(** [analyze_learned_notes] reads the learned notes and writes
    [tendencies], nothing else. *)
Lemma analyze_learned_notes_eq (g : Globals F) :
  buffer_ok g ->
  analyze_learned_notes g
  = match tendencies_of_notes (learned_notes g) with
    | Some t => Some (set_tendencies t g)
    | None => None
    end.
Proof.
  intros Hok. pose proof (learned_notes_length g Hok) as Hn.
  unfold analyze_learned_notes, tendencies_of_notes. rewrite Hn.
  destruct (Z.ltb_spec (note_buffer_count g) 2) as [Hlt|Hge];
    [reflexivity|].
  remember (learned_notes g) as notes eqn:Hnotes.
  pose proof (note_buffer_split g) as Hsplit. rewrite <- Hnotes in Hsplit.
  set (junk := skipn (Z.to_nat (note_buffer_count g)) (note_buffer g)) in *.
  rewrite Hsplit.
  replace (Z.to_nat (note_buffer_count g)) with (length notes) by lia.
  rewrite (register_loop notes [] junk).
  destruct (fold_left register_acc notes (127, 0, f_of_Z 0))
    as [[rmin rmax] note_sum].
  destruct notes as [|a rest]; [simpl in Hn; lia|].
  replace (Z.to_nat (note_buffer_count g - 1)) with (length rest)
    by (simpl length in Hn; lia).
  cbn [LearnedTendencies_init interval_counts total_intervals
       ascending_count descending_count repeat_count
       most_common_interval second_common_interval].
  rewrite (interval_loop rest [] junk a) by reflexivity.
  destruct (fold_left interval_acc (intervals (a :: rest))
              (repeat 0 13, 0, 0, 0, 0)) as [[[[counts total] asc] desc] rep].
  destruct (for_range 0 13 (common_step counts) (0, 0, 0, 0))
    as [[[[mx smx] most] sec]|]; reflexivity.
Qed.

Lemma analyze_learned_notes_total (g : Globals F) :
  buffer_ok g ->
  exists t, tendencies_of_notes (learned_notes g) = Some t /\
            analyze_learned_notes g = Some (set_tendencies t g).
Proof.
  intros Hok. destruct (tendencies_of_notes_total (learned_notes g)) as (t & Ht).
  exists t. split; [assumption|].
  now rewrite analyze_learned_notes_eq, Ht.
Qed.

(** C9. The tendency analysis is deterministic and idempotent: on a
    learning buffer (16 cells, at most 16 notes) it returns without fault,
    running it again on its own result changes nothing, so counts do not
    accumulate, and on any other state holding the same learned notes it
    computes the same tendencies in every field. *)
Theorem analysis_idempotent (g : Globals F) :
  buffer_ok g ->
  exists g1,
    analyze_learned_notes g = Some g1 /\
    analyze_learned_notes g1 = Some g1 /\
    forall h, buffer_ok h -> learned_notes h = learned_notes g ->
      exists h1, analyze_learned_notes h = Some h1 /\
                 tendencies h1 = tendencies g1.
Proof.
  intros Hok.
  destruct (analyze_learned_notes_total g Hok) as (t & Ht & Hg).
  exists (set_tendencies t g). split; [assumption|]. split.
  - assert (Hok1 : buffer_ok (set_tendencies t g)) by exact Hok.
    rewrite (analyze_learned_notes_eq _ Hok1).
    change (learned_notes (set_tendencies t g)) with (learned_notes g).
    rewrite Ht. reflexivity.
  - intros h Hokh Hsame.
    exists (set_tendencies t h). split; [|reflexivity].
    now rewrite (analyze_learned_notes_eq _ Hokh), Hsame, Ht.
Qed.

End Analysis.

(** C6. For every learned note sequence of length at least 2 (and at most
    16, the buffer's capacity; notes are MIDI notes 0..127) the analysis
    returns tendencies in which: the histogram has 13 bins, bin [k]
    counting the consecutive intervals whose absolute value saturated at
    12 is [k], and sums to length - 1; the three direction counts classify
    the intervals by sign and sum to length - 1; [register_center] is the
    sum of the notes divided by their number (in binary32: the quotient of
    the two exactly represented integers, correctly rounded); and
    [register_range] is [register_max - register_min]. *)
Theorem analysis_counts (g : Globals spec_float) :
  buffer_ok g ->
  2 <= note_buffer_count g ->
  Forall (fun x => 0 <= x <= 127) (learned_notes g) ->
  exists g',
    analyze_learned_notes g = Some g' /\
    let t := tendencies g' in
    let notes := learned_notes g in
    let ds := intervals notes in
    let n := note_buffer_count g in
    length (interval_counts t) = 13%nat /\
    (forall k, 0 <= k <= 12 ->
       nth (Z.to_nat k) (interval_counts t) 0
       = count_if (fun d => saturated d =? k) ds) /\
    Zsum (interval_counts t) = n - 1 /\
    ascending_count t = count_if (fun d => d >? 0) ds /\
    descending_count t = count_if (fun d => d <? 0) ds /\
    repeat_count t = count_if (fun d => d =? 0) ds /\
    ascending_count t + descending_count t + repeat_count t = n - 1 /\
    register_center t = (f_of_Z (Zsum notes) / f_of_Z n)%fl /\
    register_range t = f_of_Z (register_max t - register_min t).
Proof.
  intros Hok Hn2 Hnotes.
  pose proof (learned_notes_length g Hok) as Hlen.
  destruct (analyze_learned_notes_total g Hok) as (t & Ht & Hg).
  exists (set_tendencies t g). split; [assumption|].
  cbn [tendencies set_tendencies]. cbv zeta.
  unfold tendencies_of_notes in Ht. rewrite Hlen in Ht.
  destruct (Z.ltb_spec (note_buffer_count g) 2) as [Hlt|_]; [lia|].
  pose proof (fold_register_sum (learned_notes g) 127 0 0 ltac:(lia) Hnotes)
    as Hsum.
  destruct Hok as [_ Hmax]. unfold MAX_LEARN_NOTES in Hmax.
  specialize (Hsum ltac:(lia)).
  change (b32_of_Z 0) with (f_of_Z (F:=spec_float) 0) in Hsum.
  destruct (fold_left register_acc (learned_notes g) (127, 0, f_of_Z 0))
    as [[rmin rmax] note_sum].
  cbn [snd] in Hsum. subst note_sum.
  destruct (histogram_of_intervals (intervals (learned_notes g)))
    as (counts & Hfold & Hclen & Hcsum & Hnth & Hpos).
  rewrite Hfold in Ht.
  assert (Hds : Z.of_nat (length (intervals (learned_notes g)))
                = note_buffer_count g - 1).
  { destruct (learned_notes g) as [|a rest]; [simpl in Hlen; lia|].
    rewrite intervals_length. simpl length in Hlen. lia. }
  assert (Hpart : forall ds,
    count_if (fun d => d >? 0) ds + count_if (fun d => d <? 0) ds
    + count_if (fun d => d =? 0) ds = Z.of_nat (length ds)).
  { induction ds as [|d ds IH]; [reflexivity|].
    rewrite !count_if_cons. cbn [length].
    destruct (Z.gtb_spec d 0); destruct (Z.ltb_spec d 0);
      destruct (Z.eqb_spec d 0); lia. }
  destruct (for_range 0 13 (common_step counts) (0, 0, 0, 0))
    as [[[[mx smx] most] sec]|]; [|discriminate].
  injection Ht as <-. cbn.
  repeat apply conj; auto; try lia.
  - unfold Zsum in Hcsum. lia.
  - rewrite Hpart. lia.
Qed.
Lemma analysis_idempotent_witness :
  buffer_ok (learned [60; 62; 64; 67; 69]) /\
  exists g1,
    analyze_learned_notes (learned [60; 62; 64; 67; 69]) = Some g1 /\
    analyze_learned_notes g1 = Some g1 /\
    forall h, buffer_ok h ->
      learned_notes h = learned_notes (learned [60; 62; 64; 67; 69]) ->
      exists h1, analyze_learned_notes h = Some h1 /\
                 tendencies h1 = tendencies g1.
Proof.
  assert (Hok : buffer_ok (learned [60; 62; 64; 67; 69])).
  { split; [reflexivity | unfold MAX_LEARN_NOTES; simpl; lia]. }
  split; [exact Hok | exact (analysis_idempotent _ Hok)].
Defined.

Lemma analysis_counts_witness :
  buffer_ok (learned [60; 62; 64; 67; 69]) /\
  2 <= note_buffer_count (learned [60; 62; 64; 67; 69]) /\
  Forall (fun x => 0 <= x <= 127) (learned_notes (learned [60; 62; 64; 67; 69])) /\
  exists g',
    analyze_learned_notes (learned [60; 62; 64; 67; 69]) = Some g' /\
    Zsum (interval_counts (tendencies g')) = 4 /\
    register_center (tendencies g') = (f_of_Z 322 / f_of_Z 5)%fl.
Proof.
  assert (Hok : buffer_ok (learned [60; 62; 64; 67; 69])).
  { split; [reflexivity | unfold MAX_LEARN_NOTES; simpl; lia]. }
  assert (H2 : 2 <= note_buffer_count (learned [60; 62; 64; 67; 69])).
  { simpl; lia. }
  assert (Hr : Forall (fun x => 0 <= x <= 127)
                 (learned_notes (learned [60; 62; 64; 67; 69]))).
  { repeat constructor; lia. }
  split; [exact Hok|]. split; [exact H2|]. split; [exact Hr|].
  destruct (analysis_counts _ Hok H2 Hr) as (g' & Hrun & Hspec).
  exists g'. split; [exact Hrun|].
  destruct Hspec as (_ & _ & Hsum & _ & _ & _ & _ & Hcenter & _).
  split; [exact Hsum | exact Hcenter].
Defined.

(** C5 (amended). For every histogram of 13 non-negative counts the scan
    returns without fault; [most_common_interval] is the lowest index among
    the bins of maximum count; when some bin other than bin 0 is non-empty,
    [second_common_interval] is the lowest index among the bins other than
    [most_common_interval] that hold the highest count among those; when
    only bin 0 can be non-empty both slots are bin 0. *)
Theorem common_scan_tie_break (counts : list Z) :
  length counts = 13%nat ->
  Forall (fun c => 0 <= c) counts ->
  exists mx smx most second,
    for_range 0 13 (common_step counts) (0, 0, 0, 0)
      = Some (mx, smx, most, second) /\
    lowest_max counts (fun _ => True) most /\
    ((exists j, 1 <= j <= 12 /\ 0 < nth (Z.to_nat j) counts 0) ->
       lowest_max counts (fun j => j <> most) second) /\
    ((forall j, 1 <= j <= 12 -> nth (Z.to_nat j) counts 0 = 0) ->
       most = 0 /\ second = 0).
Proof. exact (common_scan_slots counts). Qed.

Lemma common_scan_tie_break_witness :
  length [0; 0; 3; 1; 0; 0; 0; 0; 0; 0; 0; 0; 0] = 13%nat /\
  Forall (fun c => 0 <= c) [0; 0; 3; 1; 0; 0; 0; 0; 0; 0; 0; 0; 0] /\
  exists mx smx most second,
    for_range 0 13 (common_step [0; 0; 3; 1; 0; 0; 0; 0; 0; 0; 0; 0; 0])
      (0, 0, 0, 0) = Some (mx, smx, most, second) /\
    lowest_max [0; 0; 3; 1; 0; 0; 0; 0; 0; 0; 0; 0; 0] (fun _ => True) most.
Proof.
  assert (Hl : length [0; 0; 3; 1; 0; 0; 0; 0; 0; 0; 0; 0; 0] = 13%nat)
    by reflexivity.
  assert (Hp : Forall (fun c => 0 <= c) [0; 0; 3; 1; 0; 0; 0; 0; 0; 0; 0; 0; 0])
    by (repeat constructor; lia).
  split; [exact Hl|]. split; [exact Hp|].
  destruct (common_scan_tie_break _ Hl Hp)
    as (mx & smx & most & second & Hrun & Hmost & _).
  exists mx, smx, most, second. split; [exact Hrun | exact Hmost].
Defined.

(** The claim of C5 for the secondary slot fails on the phrase 60 60 60 60:
    its histogram has bin 0 only, the analysis answers bin 0 for both
    slots, and bin 0 is not a bin other than the most common one. *)
Lemma second_slot_counterexample :
  exists g',
    analyze_learned_notes (learned [60; 60; 60; 60]) = Some g' /\
    interval_counts (tendencies g') = [3; 0; 0; 0; 0; 0; 0; 0; 0; 0; 0; 0; 0] /\
    most_common_interval (tendencies g') = 0 /\
    second_common_interval (tendencies g') = 0 /\
    ~ lowest_max (interval_counts (tendencies g'))
        (fun j => j <> most_common_interval (tendencies g'))
        (second_common_interval (tendencies g')).
Proof.
  eexists. split; [vm_compute; reflexivity|].
  cbn [tendencies set_tendencies interval_counts most_common_interval
       second_common_interval].
  repeat split.
  intros (_ & Hsel & _). now apply Hsel.
Qed.

(** ** The session state machine *)

Section Session.

Context {F : Type} `{FloatOps F}.

Lemma clear_note_history_total (h : list Z) :
  length h = 8%nat ->
  for_range 0 (Z.to_nat NOTE_HISTORY_SIZE) (fun i h => arr_set h i 0) h
  = Some (repeat 0 8).
Proof.
  intros Hlen.
  do 8 (destruct h as [|? h]; [discriminate|]).
  destruct h; [reflexivity | discriminate].
Qed.

(** C3. In LEARNING state (16-cell buffer holding at most 16 notes, 8-cell
    history array), [update_learning_state] returns without fault and the
    session is GENERATING afterwards exactly when the buffer holds 16 notes
    or the time since the last note exceeds the timeout and the buffer
    holds at least 4 notes; otherwise nothing changes. So a full buffer
    transitions whatever the clock reads, and with fewer than 4 notes the
    session stays LEARNING whatever the clock reads. *)
Theorem learning_transition (g : Globals F) (current_time seed_time : Z) :
  learning_state g = STATE_LEARNING ->
  buffer_ok g ->
  length (note_history g) = 8%nat ->
  let time_since_note := u32 (current_time - last_note_time g) in
  let learning_timeout_ms :=
    u32 (500 + cast_uint32
                 (parameters_smoothed g PARAM_LEARN_TIMEOUT * f_of_Z 9500)%fl) in
  exists g',
    update_learning_state current_time seed_time g = Some (tt, g') /\
    (learning_state g' = STATE_GENERATING <->
       note_buffer_count g = 16 \/
       (time_since_note > learning_timeout_ms /\ note_buffer_count g >= 4)) /\
    (learning_state g' <> STATE_GENERATING -> g' = g) /\
    (note_buffer_count g = 16 -> learning_state g' = STATE_GENERATING) /\
    (note_buffer_count g < 4 -> g' = g /\ learning_state g' = STATE_LEARNING).
Proof.
  intros Hst Hok Hhist time_since_note learning_timeout_ms.
  assert (Hcount : 0 <= note_buffer_count g <= 16) by exact (proj2 Hok).
  unfold update_learning_state, bind, gets.
  rewrite Hst. cbn [LearningState_eqb].
  fold time_since_note. fold learning_timeout_ms.
  unfold MAX_LEARN_NOTES, MIN_LEARN_NOTES.
  destruct ((note_buffer_count g >=? 16)
            || (time_since_note >? learning_timeout_ms)
               && (note_buffer_count g >=? 4)) eqn:Hcond.
  - (* the session is complete *)
    assert (Hiff : note_buffer_count g = 16 \/
                   (time_since_note > learning_timeout_ms /\
                    note_buffer_count g >= 4)).
    { apply orb_true_iff in Hcond as [Hc|Hc]; [left; lia|right].
      apply andb_true_iff in Hc as [Hc1 Hc2]. lia. }
    destruct (analyze_learned_notes_total
                (set_learning_state STATE_GENERATING g) Hok)
      as (t & _ & Hrun).
    unfold modify, clear_note_history, bind, gets, lift_option.
    rewrite Hrun.
    match goal with
    | |- context [for_range 0 _ _ (note_history ?s)] =>
        change (note_history s) with (note_history g)
    end.
    rewrite (clear_note_history_total _ Hhist).
    eexists. split; [reflexivity|].
    repeat apply conj.
    + intros _; exact Hiff.
    + reflexivity.
    + intros Hne; now elim Hne.
    + reflexivity.
    + intros Hlt; lia.
  - (* the session goes on *)
    apply orb_false_iff in Hcond as [Hc1 Hc2].
    apply andb_false_iff in Hc2.
    exists g. split; [reflexivity|].
    rewrite Hst.
    repeat apply conj; try discriminate; auto.
    + intros [Hfull | [Hlate Hmin]]; [lia|]. destruct Hc2; lia.
    + intros Hfull; lia.
Qed.

(** C8 (amended). An encoder click in GENERATING state puts the session in
    IDLE and resets the buffer count to 0; in LEARNING (and IDLE) state it
    leaves the session state and the learning buffer as they are and
    returns the display to page 0. *)
Theorem encoder_click_reset (g : Globals F) :
  exists g',
    encoder_click g = Some (tt, g') /\
    match learning_state g with
    | STATE_GENERATING =>
        learning_state g' = STATE_IDLE /\ note_buffer_count g' = 0
    | _ =>
        learning_state g' = learning_state g /\
        note_buffer_count g' = note_buffer_count g /\
        note_buffer g' = note_buffer g /\
        current_page g' = 0
    end.
Proof.
  unfold encoder_click, bind, gets, modify.
  destruct (learning_state g) eqn:Hst; cbn [LearningState_eqb];
    eexists; (split; [reflexivity|]); cbn; rewrite ?Hst; auto.
Qed.

End Session.

(** The claim of C8 fails in LEARNING state: after a click the session is
    still LEARNING and still holds its three notes. *)
Lemma encoder_click_counterexample :
  learning_state (learned [60; 62; 64]) = STATE_LEARNING /\
  exists g',
    encoder_click (learned [60; 62; 64]) = Some (tt, g') /\
    learning_state g' = STATE_LEARNING /\ note_buffer_count g' = 3 /\
    ~ (learning_state g' = STATE_IDLE /\ note_buffer_count g' = 0).
Proof.
  split; [reflexivity|]. eexists. split; [reflexivity|].
  split; [reflexivity|]. split; [reflexivity|].
  intros [Hidle _]. discriminate Hidle.
Qed.

Lemma learning_transition_witness :
  learning_state (learned [60; 62; 64]) = STATE_LEARNING /\
  buffer_ok (learned [60; 62; 64]) /\
  length (note_history (learned [60; 62; 64])) = 8%nat /\
  exists g',
    update_learning_state 20000 20001 (learned [60; 62; 64]) = Some (tt, g') /\
    learning_state g' = STATE_LEARNING.
Proof.
  assert (Hok : buffer_ok (learned [60; 62; 64])).
  { split; [reflexivity | unfold MAX_LEARN_NOTES; simpl; lia]. }
  split; [reflexivity|]. split; [exact Hok|]. split; [reflexivity|].
  destruct (learning_transition (learned [60; 62; 64]) 20000 20001
              eq_refl Hok eq_refl) as (g' & Hrun & _ & _ & _ & Hfew).
  exists g'. split; [exact Hrun|].
  apply Hfew. simpl. lia.
Defined.
(** ** The generation pipeline *)

Section Generation.

Context {F : Type} `{FloatOps F}.

Lemma set_rng_state_same (g : Globals F) : set_rng_state (rng_state g) g = g.
Proof. destruct g; reflexivity. Qed.

Lemma draws_ret {A} (a : A) (post : A -> Prop) :
  post a -> draws (F:=F) (ret a) post.
Proof.
  intros Hp g _. exists a, (rng_state g).
  unfold ret. now rewrite set_rng_state_same.
Qed.

Lemma draws_gets {A} (f : Globals F -> A) (post : A -> Prop) :
  (forall g, history_ok g -> post (f g)) -> draws (gets f) post.
Proof.
  intros Hp g Hok. exists (f g), (rng_state g).
  unfold gets. rewrite set_rng_state_same. auto.
Qed.

Lemma draws_bind {A B} (m : M F A) (f : A -> M F B)
    (mid : A -> Prop) (post : B -> Prop) :
  draws m mid -> (forall a, mid a -> draws (f a) post) ->
  draws (bind m f) post.
Proof.
  intros Hm Hf g Hok.
  destruct (Hm g Hok) as (a & s & Hrun & Ha).
  destruct (Hf a Ha (set_rng_state s g) Hok) as (b & s' & Hrun' & Hb).
  exists b, s'. unfold bind. rewrite Hrun, Hrun'. auto.
Qed.

Lemma draws_weaken {A} (m : M F A) (post post' : A -> Prop) :
  draws m post -> (forall a, post a -> post' a) -> draws m post'.
Proof.
  intros Hm Hw g Hok. destruct (Hm g Hok) as (a & s & Hrun & Ha).
  exists a, s. auto.
Qed.

Lemma draws_lift_option {A} (o : option A) (post : A -> Prop) :
  (exists a, o = Some a /\ post a) -> draws (F:=F) (lift_option o) post.
Proof.
  intros (a & -> & Hp) g _. exists a, (rng_state g).
  unfold lift_option. now rewrite set_rng_state_same.
Qed.

Lemma draws_random_float : draws random_float (fun _ => True).
Proof.
  intros g _. eexists _, _. split; [reflexivity | exact I].
Qed.

(** *** Interval selection *)

Lemma cumulative_total (counts : list Z) :
  length counts = 13%nat ->
  exists cumulative total,
    for_range 0 13 (cumulative_step counts) (repeat 0 13, 0)
    = Some (cumulative, total) /\ length cumulative = 13%nat.
Proof.
  intros Hlen.
  destruct (for_range_inv
              (fun _ (acc : list Z * Z) => length (fst acc) = 13%nat)
              (cumulative_step counts) 13 0 (repeat 0 13, 0) eq_refl)
    as ([cumulative total] & Hrun & Hinv).
  - intros i [cumulative total] Hi Hinv. cbn [fst] in Hinv.
    unfold cumulative_step.
    rewrite arr_get_nth by lia. rewrite arr_set_upd by lia.
    eexists; split; [reflexivity|]. cbn [fst]. now rewrite upd_length.
  - exists cumulative, total. auto.
Qed.

Lemma find_interval_total (rand_val : Z) (cumulative : list Z) (n : nat) :
  forall lo, 0 <= lo -> lo + Z.of_nat n <= Z.of_nat (length cumulative) ->
  exists i, find_interval n lo rand_val cumulative = Some i /\
            (i = 2 \/ lo <= i < lo + Z.of_nat n).
Proof.
  induction n as [|n IH]; intros lo Hlo Hn.
  - exists 2; auto.
  - cbn [find_interval]. rewrite arr_get_nth by lia.
    destruct (rand_val <? nth (Z.to_nat lo) cumulative 0).
    + exists lo; split; [reflexivity | right; lia].
    + destruct (IH (lo + 1)) as (i & Hrun & Hi); [lia | lia |].
      exists i; split; [assumption | lia].
Qed.

Lemma draws_select_interval :
  draws select_interval_from_distribution (fun i => 0 <= i <= 12).
Proof.
  unfold select_interval_from_distribution.
  apply draws_bind
    with (mid := fun t => length (interval_counts t) = 13%nat).
  - apply draws_gets. intros g Hok. apply Hok.
  - intros t Ht. destruct (total_intervals t =? 0).
    + apply draws_ret; lia.
    + destruct (cumulative_total _ Ht) as (cumulative & total & Hrun & Hlen).
      apply draws_bind
        with (mid := fun acc => length (fst acc) = 13%nat).
      * apply draws_lift_option. eexists; split; [exact Hrun | exact Hlen].
      * intros [cumulative' total'] Hlen'. cbn [fst] in Hlen'.
        apply draws_bind with (mid := fun _ => True);
          [apply draws_random_float|].
        intros r _. apply draws_lift_option.
        destruct (find_interval_total
                    (cast_int (r * f_of_Z total')%fl) cumulative' 13 0)
          as (i & Hi & Hr); [lia | lia |].
        exists i; split; [assumption | lia].
Qed.

(** *** Direction, displacement, memory *)

Lemma draws_select_direction : draws select_direction (fun _ => True).
Proof.
  unfold select_direction.
  apply draws_bind with (mid := fun _ => True);
    [apply draws_gets; auto|].
  intros g _.
  apply draws_bind with (mid := fun _ => True); [apply draws_random_float|].
  intros r _. now apply draws_ret.
Qed.

Lemma draws_octave_displacement (note : Z) :
  0 <= note <= 127 ->
  draws (apply_octave_displacement note) (fun n => 0 <= n <= 127).
Proof.
  intros Hnote. unfold apply_octave_displacement.
  apply draws_bind with (mid := fun _ => True); [apply draws_gets; auto|].
  intros range_param _.
  destruct (range_param <? flit 1 10)%fl; [now apply draws_ret|].
  apply draws_bind with (mid := fun _ => True); [apply draws_random_float|].
  intros r _.
  destruct (r >? range_param * flit 2 10)%fl; [now apply draws_ret|].
  apply draws_bind with (mid := fun _ => True).
  - destruct (range_param <? flit 1 2)%fl;
      (apply draws_bind with (mid := fun _ => True);
       [apply draws_random_float | intros; now apply draws_ret]).
  - intros octave_shift _. apply draws_ret.
    rewrite Z.mod_small; lia.
Qed.

Lemma count_in_history_total (note : Z) (g : Globals F) :
  history_ok g ->
  exists h, count_in_history note g = Some (h, g) /\
            0 <= h <= note_history_count g.
Proof.
  intros (Hlen & Hidx & Hcount & _). unfold NOTE_HISTORY_SIZE in *.
  unfold count_in_history.
  destruct (for_range_inv (fun i h => 0 <= h <= i)
              (count_step (note_history g) note)
              (Z.to_nat (note_history_count g)) 0 0
              (conj (Z.le_refl 0) (Z.le_refl 0)))
    as (h & Hrun & Hh).
  - intros i h Hi Hh. unfold count_step.
    rewrite arr_get_nth by lia.
    eexists; split; [reflexivity|].
    destruct (nth (Z.to_nat i) (note_history g) 0 =? note); lia.
  - exists h. rewrite Hrun. split; [reflexivity | lia].
Qed.

Lemma draws_memory_bias (candidate_note : Z) :
  draws (apply_memory_bias candidate_note) (fun _ => True).
Proof.
  unfold apply_memory_bias.
  apply draws_bind with (mid := fun _ => True); [apply draws_gets; auto|].
  intros m _.
  apply draws_bind with (mid := fun _ => True).
  - intros g Hok. destruct (count_in_history_total candidate_note g Hok)
      as (h & Hrun & _).
    exists h, (rng_state g). now rewrite set_rng_state_same.
  - intros h _. destruct (h =? 0); [now apply draws_ret|].
    apply draws_bind with (mid := fun _ => True); [apply draws_random_float|].
    intros; now apply draws_ret.
Qed.

(** *** Candidates *)

(** Every candidate is a MIDI note: it is clamped when the interval is
    applied and again when an octave displacement is. *)
Lemma draws_generate_candidate (motion_bias : F) :
  draws (generate_candidate motion_bias) (fun c => 0 <= c <= 127).
Proof.
  unfold generate_candidate.
  apply draws_bind with (mid := fun _ => True).
  { eapply draws_weaken; [apply draws_select_interval | auto]. }
  intros interval_size _.
  apply draws_bind with (mid := fun _ => True).
  { destruct (motion_bias <? flit 1 2)%fl; [|now apply draws_ret].
    destruct (_ =? 0); [|now apply draws_ret].
    apply draws_bind with (mid := fun _ => True); [apply draws_random_float|].
    intros; now apply draws_ret. }
  intros interval_size' _.
  apply draws_bind with (mid := fun _ => True);
    [apply draws_select_direction|].
  intros go_up _.
  apply draws_bind with (mid := fun _ => True); [apply draws_gets; auto|].
  intros current_note _.
  set (new_note := Z.max 0 (Z.min 127 _)).
  assert (Hn : 0 <= new_note <= 127) by (subst new_note; lia).
  apply draws_bind with (mid := fun n => 0 <= n <= 127).
  - rewrite Z.mod_small by lia. now apply draws_octave_displacement.
  - intros n Hr. apply draws_ret. rewrite Z.mod_small; lia.
Qed.

Lemma draws_candidate_loop (motion_bias : F) (fuel : nat) :
  forall attempts candidate_note,
    (Z.to_nat (MAX_ATTEMPTS - attempts) <= fuel)%nat ->
    0 <= candidate_note <= 127 ->
    draws (candidate_loop fuel motion_bias candidate_note attempts)
          (fun ca => 0 <= fst ca <= 127).
Proof.
  unfold MAX_ATTEMPTS.
  induction fuel as [|fuel IH]; intros attempts c Hfuel Hc.
  - cbn [candidate_loop]. unfold MAX_ATTEMPTS.
    destruct (Z.ltb_spec attempts 4); [lia|]. now apply draws_ret.
  - cbn [candidate_loop]. unfold MAX_ATTEMPTS.
    destruct (Z.ltb_spec attempts 4); [|now apply draws_ret].
    apply draws_bind with (mid := fun c => 0 <= c <= 127);
      [apply draws_generate_candidate|].
    intros c' Hc'.
    apply draws_bind with (mid := fun _ => True);
      [apply draws_memory_bias|].
    intros [|] _; [now apply draws_ret|].
    apply IH; [lia | assumption].
Qed.


End Generation.
Section Generate.

Context {F : Type} `{FloatOps F}.

Ltac state_simpl :=
  cbn [parameters_smoothed learning_state note_buffer note_buffer_count
       last_note_time tendencies current_note previous_note last_interval
       last_direction_up note_history note_history_count note_history_index
       phrase_note_count phrase_target_length rng_state current_page
       page_change_timer
       set_learning_state set_note_buffer set_note_buffer_count
       set_last_note_time set_tendencies set_current_note set_previous_note
       set_last_interval set_last_direction_up set_note_history
       set_note_history_count set_note_history_index set_phrase_note_count
       set_phrase_target_length set_rng_state set_current_page
       set_page_change_timer] in *.

(** What one call of [generate_next_note] does, for every float
    implementation, every control vector and every tendency model. *)
Lemma generate_next_note_spec (fuel : nat) (now : Z) (g : Globals F) :
  history_ok g -> (4 <= fuel)%nat ->
  exists note g',
    generate_next_note fuel now g = Some (note, g') /\
    0 <= note <= 127 /\
    history_ok g' /\
    same_learned g g' /\
    note_history g'
      = upd (Z.to_nat (note_history_index g)) note (note_history g) /\
    note_history_index g' = (note_history_index g + 1) mod NOTE_HISTORY_SIZE /\
    previous_note g' = current_note g /\
    last_interval g' = note - current_note g /\
    last_direction_up g' = (note >? current_note g).
Proof.
  intros Hok Hfuel.
  unfold generate_next_note.
  unfold bind at 1, gets at 1. unfold bind at 1, gets at 1.
  unfold bind at 1, modify at 1.
  set (g1 := set_phrase_target_length _ g).
  assert (Hok1 : history_ok g1) by exact Hok.
  assert (Hpasses : (Z.to_nat (MAX_ATTEMPTS - 0) <= fuel)%nat).
  { change (Z.to_nat (MAX_ATTEMPTS - 0)) with 4%nat. exact Hfuel. }
  assert (H0 : 0 <= 0 <= 127) by lia.
  destruct (draws_candidate_loop (motion_bias g) fuel 0 0 Hpasses H0 g1 Hok1)
    as ([c a] & s & Hloop & Hc).
  cbn [fst] in Hc.
  unfold bind at 1. rewrite Hloop. subst g1.
  destruct Hok as (Hlen & Hidx & Hcount & Htend).
  unfold NOTE_HISTORY_SIZE in *.
  unfold bind at 1, add_note_to_history.
  state_simpl.
  rewrite arr_set_upd by lia.
  unfold phrase_boundary, random_float, xorshift32, bind, gets, modify, ret.
  state_simpl. unfold NOTE_HISTORY_SIZE.
  pose proof (Z.mod_pos_bound (note_history_index g + 1) 8 ltac:(lia)).
  destruct (Z.ltb_spec (note_history_count g) 8) as [Hfull|Hfull];
    state_simpl;
    match goal with
    | |- context [if ?b then _ else _] => destruct b
    end;
    try match goal with
    | |- context [if ?b then _ else _] => destruct b
    end;
    (eexists _, _; split; [reflexivity|]);
    unfold history_ok, same_learned, NOTE_HISTORY_SIZE;
    state_simpl; rewrite ?upd_length;
    repeat apply conj; auto; lia.
Qed.

(** C2. For every float implementation (so for every control vector, in
    [0,1]^12 or not), every tendency model, note history and generation
    state with its arrays and circular index in range, and fuel for four
    passes of the candidate loop, [generate_next_note] returns without
    fault a MIDI note in [0,127], and leaves the arrays and the circular
    index in range for the next call. *)
Theorem generated_note_in_range (fuel : nat) (now : Z) (g : Globals F) :
  history_ok g -> (4 <= fuel)%nat ->
  exists note g',
    generate_next_note fuel now g = Some (note, g') /\
    0 <= note <= 127 /\
    history_ok g'.
Proof.
  intros Hok Hfuel.
  destruct (generate_next_note_spec fuel now g Hok Hfuel)
    as (note & g' & Hrun & Hrange & Hok' & _).
  exists note, g'. auto.
Qed.


Lemma same_learned_session (g g' : Globals F) :
  same_learned g g' -> same_session g g'.
Proof.
  intros (Hp & Hs & Hb & Hc & _ & Ht & _). repeat split; assumption.
Qed.

Lemma note_trigger_spec (fuel : nat) (now : Z) (g : Globals F) :
  history_ok g -> (4 <= fuel)%nat ->
  exists g', note_trigger fuel now g = Some (tt, g') /\
             history_ok g' /\ same_session g g'.
Proof.
  intros Hok Hfuel. unfold note_trigger, bind, gets.
  destruct (LearningState_eqb (learning_state g) STATE_GENERATING
            && (note_buffer_count g >=? MIN_LEARN_NOTES)).
  - destruct (generate_next_note_spec fuel now g Hok Hfuel)
      as (note & g' & Hrun & _ & Hok' & Hsame & _).
    rewrite Hrun. unfold modify. eexists; split; [reflexivity|].
    split; [exact Hok'|]. apply same_learned_session in Hsame.
    exact Hsame.
  - exists g. split; [reflexivity|]. split; [assumption|].
    repeat split.
Qed.

Lemma triggers_spec (fuel : nat) (nows : list Z) :
  (4 <= fuel)%nat ->
  forall g, history_ok g ->
  exists g', triggers fuel nows g = Some (tt, g') /\
             history_ok g' /\ same_session g g'.
Proof.
  intros Hfuel. induction nows as [|now nows IH]; intros g Hok.
  - exists g. split; [reflexivity|]. split; [assumption|]. repeat split.
  - destruct (note_trigger_spec fuel now g Hok Hfuel)
      as (g1 & Hrun1 & Hok1 & Hs1).
    destruct (IH g1 Hok1) as (g' & Hrun & Hok' & Hs).
    exists g'. cbn [triggers]. unfold bind. rewrite Hrun1, Hrun.
    split; [reflexivity|]. split; [assumption|].
    destruct Hs1 as (A1 & A2 & A3 & A4 & A5).
    destruct Hs as (B1 & B2 & B3 & B4 & B5).
    repeat split; congruence.
Qed.

(** C10. A call of [generate_next_note] returns leaving the control
    parameters, the session state, the learning buffer and its count, the
    time of the last note and every field of the tendencies as they were
    (and [current_note], which only its caller assigns); so does any number
    of triggers, each of which calls it at most once. *)
Theorem generation_preserves_learning (fuel : nat) (now : Z)
    (nows : list Z) (g : Globals F) :
  history_ok g -> (4 <= fuel)%nat ->
  (exists note g',
     generate_next_note fuel now g = Some (note, g') /\ same_learned g g') /\
  (exists g', triggers fuel nows g = Some (tt, g') /\ same_session g g').
Proof.
  intros Hok Hfuel. split.
  - destruct (generate_next_note_spec fuel now g Hok Hfuel)
      as (note & g' & Hrun & _ & _ & Hsame & _).
    exists note, g'. auto.
  - destruct (triggers_spec fuel nows Hfuel g Hok) as (g' & Hrun & _ & Hs).
    exists g'. auto.
Qed.

End Generate.
Lemma generating_history_ok : history_ok generating.
Proof. repeat split; vm_compute; congruence. Qed.

Lemma generated_note_in_range_witness :
  history_ok generating /\ (4 <= 4)%nat /\
  exists note g',
    generate_next_note 4 20100 generating = Some (note, g') /\
    0 <= note <= 127 /\ history_ok g'.
Proof.
  split; [exact generating_history_ok|]. split; [lia|].
  exact (generated_note_in_range 4 20100 generating
           generating_history_ok (le_n 4)).
Defined.


Lemma generation_preserves_learning_witness :
  history_ok generating /\ (4 <= 4)%nat /\
  exists g',
    triggers 4 [20100; 20600; 21100] generating = Some (tt, g') /\
    same_session generating g'.
Proof.
  split; [exact generating_history_ok|]. split; [lia|].
  exact (proj2 (generation_preserves_learning 4 20100 [20100; 20600; 21100]
                  generating generating_history_ok (le_n 4))).
Defined.

(** ** Exact arithmetic: the energy macro and the memory bias *)

Lemma Q_ltb_cases (a b : Q) :
  (Q_ltb a b = true /\ (a < b)%Q) \/ (Q_ltb a b = false /\ (b <= a)%Q).
Proof.
  unfold Q_ltb. destruct (a ?= b)%Q eqn:E.
  - right. split; [reflexivity|]. apply Qeq_alt in E. rewrite E. apply Qle_refl.
  - left. split; [reflexivity|]. now apply Qlt_alt.
  - right. split; [reflexivity|]. apply Qgt_alt in E. now apply Qlt_le_weak.
Qed.

Ltac q_cases :=
  repeat match goal with
  | |- context [Q_ltb ?a ?b] =>
      lazymatch a with
      | context [Q_ltb] => fail
      | _ => lazymatch b with
             | context [Q_ltb] => fail
             | _ => destruct (Q_ltb_cases a b) as [[-> ?]|[-> ?]]
             end
      end
  end.

Ltac q_norm :=
  cbn [f_of_Z f_add f_sub f_mul f_div f_opp f_abs f_ltb Exact] in *;
  change (flit (F:=Q) 1 2) with (1 # 2)%Q in *;
  change (flit (F:=Q) 3 10) with (3 # 10)%Q in *;
  change (flit (F:=Q) 2 10) with (2 # 10)%Q in *;
  change (flit (F:=Q) 4 10) with (4 # 10)%Q in *;
  change (flit (F:=Q) 6 10) with (6 # 10)%Q in *;
  change (inject_Z 0) with 0%Q in *;
  change (inject_Z 1) with 1%Q in *;
  change (inject_Z 2) with 2%Q in *.

Lemma clamp01_cases (x : Q) :
  ((x < 0)%Q /\ clamp01 x == 0) \/
  ((0 <= x <= 1)%Q /\ clamp01 x == x) \/
  ((1 < x)%Q /\ clamp01 x == 1).
Proof.
  unfold clamp01.
  destruct (Q.min_spec 1 x) as [[H1 E1]|[H1 E1]];
    destruct (Q.max_spec 0 (Qmin 1 x)) as [[H2 E2]|[H2 E2]];
    rewrite E2; rewrite E1 in *.
  - right; right. split; [lra | reflexivity].
  - lra.
  - destruct (Qlt_le_dec x 0); [lra|]. right; left. split; [lra|reflexivity].
  - destruct (Qlt_le_dec x 0).
    + left. split; [lra | reflexivity].
    + right; left. split; [lra | lra].
Qed.

(** The sequence of two tests by which the firmware clamps is the clamp
    to [[0,1]]. *)
Lemma clamp_code (x : Q) :
  (let y := if Q_ltb x 0 then 0%Q else x in if Q_ltb 1 y then 1%Q else y)
  == clamp01 x.
Proof.
  cbv zeta.
  destruct (clamp01_cases x) as [[Hx E]|[[Hx E]|[Hx E]]]; rewrite E;
    q_cases; lra.
Qed.

Lemma clamp01_mono (x y : Q) : (x <= y)%Q -> (clamp01 x <= clamp01 y)%Q.
Proof.
  intros Hxy.
  destruct (clamp01_cases x) as [[Hx Ex]|[[Hx Ex]|[Hx Ex]]]; rewrite Ex;
    destruct (clamp01_cases y) as [[Hy Ey]|[[Hy Ey]|[Hy Ey]]]; rewrite Ey;
    lra.
Qed.

Lemma clamp01_wd (x y : Q) : x == y -> clamp01 x == clamp01 y.
Proof.
  intros E. apply Qle_antisym; apply clamp01_mono; rewrite E; apply Qle_refl.
Qed.

Lemma clamp01_range (x : Q) : (0 <= clamp01 x <= 1)%Q.
Proof.
  destruct (clamp01_cases x) as [[Hx Ex]|[[Hx Ex]|[Hx Ex]]]; rewrite Ex; lra.
Qed.

Lemma energy_deviation_eq (g : Globals Q) :
  energy_deviation g == energy_dev (parameters_smoothed g PARAM_ENERGY).
Proof. unfold energy_deviation, energy_dev. q_norm. reflexivity. Qed.

Lemma motion_bias_eq (g : Globals Q) :
  motion_bias g
  == clamp01 (parameters_smoothed g PARAM_MOTION
              + energy_dev (parameters_smoothed g PARAM_ENERGY) * (3 # 10)).
Proof.
  unfold motion_bias. q_norm. rewrite clamp_code.
  apply clamp01_wd. now rewrite energy_deviation_eq.
Qed.






(** *** Occurrences in the history *)

Section History.

Context {F : Type} `{FloatOps F}.

Lemma count_loop (note : Z) (rest pre junk : list Z) (acc : Z) :
  for_range (Z.of_nat (length pre)) (length rest)
    (count_step (pre ++ rest ++ junk) note) acc
  = Some (acc + count_if (fun x => x =? note) rest).
Proof.
  revert pre acc; induction rest as [|a rest IH]; intros pre acc.
  - simpl. unfold count_if; simpl. now rewrite Z.add_0_r.
  - cbn [length for_range]. rewrite <- app_comm_cons.
    unfold count_step at 1. rewrite arr_get_mid.
    replace (pre ++ a :: rest ++ junk) with ((pre ++ [a]) ++ rest ++ junk)
      by (rewrite <- app_assoc; reflexivity).
    replace (Z.of_nat (length pre) + 1) with (Z.of_nat (length (pre ++ [a])))
      by (rewrite length_app; simpl; lia).
    rewrite IH, count_if_cons. f_equal.
    destruct (a =? note); lia.
Qed.

Lemma count_in_history_spec (note : Z) (g : Globals F) :
  history_ok g ->
  let h := count_if (fun x => x =? note)
             (firstn (Z.to_nat (note_history_count g)) (note_history g)) in
  count_in_history note g = Some (h, g) /\ 0 <= h <= 8.
Proof.
  intros (Hlen & _ & Hcount & _) h. unfold NOTE_HISTORY_SIZE in Hcount.
  set (n := Z.to_nat (note_history_count g)) in *.
  assert (Hn : length (firstn n (note_history g)) = n).
  { rewrite length_firstn, Hlen. lia. }
  split.
  - pose proof (count_loop note (firstn n (note_history g)) []
                  (skipn n (note_history g)) 0) as Hloop.
    cbn [length app Z.of_nat] in Hloop.
    rewrite Hn, firstn_skipn in Hloop.
    unfold count_in_history. fold n. rewrite Hloop. reflexivity.
  - subst h. unfold count_if.
    pose proof (filter_length_le (fun x => x =? note)
                  (firstn n (note_history g))). lia.
Qed.

End History.

(** *** The acceptance probability *)




(** * Further properties of the firmware *)

Ltac proj_simpl :=
  cbn [parameters_smoothed learning_state note_buffer note_buffer_count
       last_note_time tendencies current_note previous_note last_interval
       last_direction_up note_history note_history_count note_history_index
       phrase_note_count phrase_target_length rng_state current_page
       page_change_timer
       set_learning_state set_note_buffer set_note_buffer_count
       set_last_note_time set_tendencies set_current_note set_previous_note
       set_last_interval set_last_direction_up set_note_history
       set_note_history_count set_note_history_index set_phrase_note_count
       set_phrase_target_length set_rng_state set_current_page
       set_page_change_timer].

(** ** The learning buffer *)

Lemma firstn_upd_snoc (n : nat) (v : Z) (l : list Z) :
  (n < length l)%nat -> firstn (S n) (upd n v l) = firstn n l ++ [v].
Proof.
  revert n; induction l as [|x l IH]; intros n Hn; simpl in Hn; [lia|].
  destruct n as [|n]; [reflexivity|].
  cbn [upd firstn app]. f_equal. apply IH. lia.
Qed.

Section LearningBuffer.

Context {F : Type} `{FloatOps F}.

Lemma add_note_to_buffer_eq (midi_note now : Z) (g : Globals F) :
  learning_state g = STATE_LEARNING ->
  length (note_buffer g) = 16%nat ->
  0 <= note_buffer_count g < MAX_LEARN_NOTES ->
  add_note_to_buffer midi_note now g
  = Some (tt, set_last_note_time now
                (set_note_buffer_count (note_buffer_count g + 1)
                   (set_note_buffer
                      (upd (Z.to_nat (note_buffer_count g)) midi_note
                         (note_buffer g)) g))).
Proof.
  intros Hst Hlen Hcount. unfold MAX_LEARN_NOTES in *.
  unfold add_note_to_buffer, bind, gets. rewrite Hst.
  cbn [LearningState_eqb andb]. unfold MAX_LEARN_NOTES.
  destruct (Z.ltb_spec (note_buffer_count g) 16) as [_|]; [|lia].
  unfold lift_option. rewrite arr_set_upd by lia. reflexivity.
Qed.

Lemma note_on_eq (note now : Z) (g : Globals F) :
  learning_state g <> STATE_LEARNING ->
  length (note_buffer g) = 16%nat ->
  note_on note now g
  = Some (tt, set_last_note_time now
                (set_note_buffer_count 1
                   (set_note_buffer (upd 0 note (note_buffer g))
                      (set_last_note_time now
                         (set_note_buffer_count 0
                            (set_learning_state STATE_LEARNING g)))))).
Proof.
  intros Hst Hlen.
  assert (Hgo : LearningState_eqb (learning_state g) STATE_IDLE
                || LearningState_eqb (learning_state g) STATE_GENERATING
                = true).
  { destruct (learning_state g); try reflexivity. now elim Hst. }
  unfold note_on, bind, gets. rewrite Hgo.
  unfold start_learning, bind, modify.
  rewrite add_note_to_buffer_eq;
    [reflexivity | reflexivity | exact Hlen | unfold MAX_LEARN_NOTES; cbn; lia].
Qed.

(** X2. A note received while LEARNING with room in the buffer is appended to
    the learned notes, and restarts the timeout. *)
Theorem add_note_to_buffer_appends (midi_note now : Z) (g : Globals F) :
  learning_state g = STATE_LEARNING ->
  buffer_ok g ->
  note_buffer_count g < MAX_LEARN_NOTES ->
  exists g',
    add_note_to_buffer midi_note now g = Some (tt, g') /\
    learned_notes g' = learned_notes g ++ [midi_note] /\
    note_buffer_count g' = note_buffer_count g + 1 /\
    last_note_time g' = now /\
    learning_state g' = STATE_LEARNING /\
    buffer_ok g'.
Proof.
  intros Hst [Hlen Hcount] Hroom.
  rewrite add_note_to_buffer_eq by (auto; lia).
  unfold MAX_LEARN_NOTES in *.
  eexists. split; [reflexivity|].
  unfold learned_notes, buffer_ok, MAX_LEARN_NOTES. proj_simpl.
  rewrite upd_length.
  repeat apply conj; auto; try lia.
  replace (Z.to_nat (note_buffer_count g + 1))
    with (S (Z.to_nat (note_buffer_count g))) by lia.
  apply firstn_upd_snoc. lia.
Qed.

Lemma add_note_to_buffer_skip (midi_note now : Z) (g : Globals F) :
  learning_state g <> STATE_LEARNING \/
  MAX_LEARN_NOTES <= note_buffer_count g ->
  add_note_to_buffer midi_note now g = Some (tt, g).
Proof.
  intros Hcase. unfold add_note_to_buffer, bind, gets.
  destruct Hcase as [Hst|Hfull].
  - destruct (learning_state g); try reflexivity. now elim Hst.
  - destruct (Z.ltb_spec (note_buffer_count g) MAX_LEARN_NOTES); [lia|].
    now rewrite andb_false_r.
Qed.

(** X3. A note received while the buffer is full, or outside LEARNING, is
    dropped: nothing changes, not even the time of the last note. *)
Theorem add_note_to_buffer_drops (midi_note now : Z) (g : Globals F) :
  learning_state g <> STATE_LEARNING \/
  MAX_LEARN_NOTES <= note_buffer_count g ->
  add_note_to_buffer midi_note now g = Some (tt, g).
Proof.
  intros [Hst|Hfull]; unfold add_note_to_buffer, bind, gets.
  - destruct (learning_state g) eqn:E; try reflexivity. now elim Hst.
  - destruct (Z.ltb_spec (note_buffer_count g) MAX_LEARN_NOTES) as [Hlt|_];
      [lia|].
    rewrite andb_false_r. reflexivity.
Qed.

(** X4. A Note On outside LEARNING (IDLE, or GENERATING: live phrase
    injection) starts a fresh session whose only note is the new one; the
    notes of the previous session are discarded, the tendencies and the
    generation state are kept until the new session completes. *)
Theorem note_on_starts_session (note now : Z) (g : Globals F) :
  learning_state g <> STATE_LEARNING ->
  length (note_buffer g) = 16%nat ->
  exists g',
    note_on note now g = Some (tt, g') /\
    learning_state g' = STATE_LEARNING /\
    learned_notes g' = [note] /\
    last_note_time g' = now /\
    tendencies g' = tendencies g /\
    current_note g' = current_note g /\
    note_history g' = note_history g /\
    buffer_ok g'.
Proof.
  intros Hst Hlen. rewrite note_on_eq by assumption.
  eexists. split; [reflexivity|].
  unfold learned_notes, buffer_ok, MAX_LEARN_NOTES. proj_simpl.
  rewrite upd_length.
  repeat apply conj; auto; try lia.
  destruct (note_buffer g); [discriminate | reflexivity].
Qed.

End LearningBuffer.

Lemma add_note_to_buffer_appends_witness :
  learning_state (learned [60; 62]) = STATE_LEARNING /\
  buffer_ok (learned [60; 62]) /\
  note_buffer_count (learned [60; 62]) < MAX_LEARN_NOTES /\
  exists g',
    add_note_to_buffer 64 500 (learned [60; 62]) = Some (tt, g') /\
    learned_notes g' = learned_notes (learned [60; 62]) ++ [64].
Proof.
  assert (Hst : learning_state (learned [60; 62]) = STATE_LEARNING)
    by reflexivity.
  assert (Hok : buffer_ok (learned [60; 62]))
    by (split; [reflexivity | split; vm_compute; congruence]).
  assert (Hroom : note_buffer_count (learned [60; 62]) < MAX_LEARN_NOTES)
    by reflexivity.
  repeat (split; [assumption|]).
  destruct (add_note_to_buffer_appends 64 500 (learned [60; 62])
              Hst Hok Hroom)
    as (g' & Hrun & Hnotes & _).
  exists g'. split; [exact Hrun | exact Hnotes].
Defined.

Lemma add_note_to_buffer_drops_witness :
  (learning_state generating <> STATE_LEARNING \/
   MAX_LEARN_NOTES <= note_buffer_count generating) /\
  add_note_to_buffer 72 20100 generating = Some (tt, generating).
Proof.
  assert (Hcase : learning_state generating <> STATE_LEARNING \/
                  MAX_LEARN_NOTES <= note_buffer_count generating)
    by (left; vm_compute; discriminate).
  split; [exact Hcase|].
  exact (add_note_to_buffer_drops 72 20100 generating Hcase).
Defined.

Lemma note_on_starts_session_witness :
  learning_state generating <> STATE_LEARNING /\
  length (note_buffer generating) = 16%nat /\
  exists g',
    note_on 72 20100 generating = Some (tt, g') /\
    learning_state g' = STATE_LEARNING /\
    learned_notes g' = [72].
Proof.
  assert (Hst : learning_state generating <> STATE_LEARNING)
    by (vm_compute; discriminate).
  assert (Hlen : length (note_buffer generating) = 16%nat)
    by (vm_compute; reflexivity).
  repeat (split; [assumption|]).
  destruct (note_on_starts_session 72 20100 generating Hst Hlen)
    as (g' & Hrun & Hst' & Hnotes & _).
  exists g'. auto.
Defined.

(** ** The session as a whole *)

Section SessionInvariant.

Context {F : Type} `{FloatOps F}.

Lemma tendencies_of_notes_bins (notes : list Z) (t : LearnedTendencies F) :
  tendencies_of_notes notes = Some t ->
  length (interval_counts t) = 13%nat.
Proof.
  unfold tendencies_of_notes.
  destruct (Z.of_nat (length notes) <? 2); [now intros [= <-]|].
  destruct (fold_left register_acc notes (127, 0, f_of_Z 0))
    as [[rmin rmax] note_sum].
  destruct (histogram_of_intervals (intervals notes))
    as (counts & -> & Hlen & _).
  destruct (for_range 0 13 (common_step counts) (0, 0, 0, 0))
    as [[[[mx smx] most] sec]|]; [|discriminate].
  now intros [= <-].
Qed.

Lemma update_learning_state_waits (current_time seed_time : Z)
    (g : Globals F) :
  learning_state g <> STATE_LEARNING \/ session_complete current_time g = false ->
  update_learning_state current_time seed_time g = Some (tt, g).
Proof.
  intros Hcase. unfold update_learning_state, bind, gets.
  destruct (LearningState_eqb (learning_state g) STATE_LEARNING) eqn:Hst.
  - destruct Hcase as [Hne|Hc].
    + destruct (learning_state g); try discriminate. now elim Hne.
    + unfold session_complete in Hc. rewrite Hc. reflexivity.
  - reflexivity.
Qed.

Lemma update_learning_state_completes (current_time seed_time : Z)
    (g : Globals F) :
  learning_state g = STATE_LEARNING ->
  buffer_ok g ->
  length (note_history g) = 8%nat ->
  session_complete current_time g = true ->
  exists t g',
    tendencies_of_notes (learned_notes g) = Some t /\
    update_learning_state current_time seed_time g = Some (tt, g') /\
    learning_state g' = STATE_GENERATING /\
    parameters_smoothed g' = parameters_smoothed g /\
    note_buffer g' = note_buffer g /\
    note_buffer_count g' = note_buffer_count g /\
    tendencies g' = t /\
    current_note g' = cast_uint8 (register_center t) /\
    previous_note g' = cast_uint8 (register_center t) /\
    last_interval g' = 0 /\
    last_direction_up g' = (ascending_count t >=? descending_count t) /\
    note_history g' = repeat 0 8 /\
    note_history_count g' = 0 /\
    note_history_index g' = 0 /\
    phrase_note_count g' = 0 /\
    phrase_target_length g' = 12 /\
    rng_state g' = seed_time.
Proof.
  intros Hst Hok Hhist Hc.
  unfold update_learning_state, bind, gets.
  rewrite Hst. cbn [LearningState_eqb].
  unfold session_complete in Hc. rewrite Hc.
  destruct (analyze_learned_notes_total
              (set_learning_state STATE_GENERATING g) Hok)
    as (t & Ht & Hrun).
  exists t.
  unfold modify, clear_note_history, bind, gets, lift_option.
  rewrite Hrun.
  match goal with
  | |- context [for_range 0 _ _ (note_history ?s)] =>
      change (note_history s) with (note_history g)
  end.
  rewrite (clear_note_history_total _ Hhist).
  eexists. split; [exact Ht|]. split; [reflexivity|].
  repeat apply conj; reflexivity.
Qed.

Lemma session_complete_min (current_time : Z) (g : Globals F) :
  session_complete current_time g = true ->
  MIN_LEARN_NOTES <= note_buffer_count g.
Proof.
  unfold session_complete, MAX_LEARN_NOTES, MIN_LEARN_NOTES.
  intros Hc. apply orb_true_iff in Hc as [Hc|Hc]; [lia|].
  apply andb_true_iff in Hc as [_ Hc]. lia.
Qed.

Lemma handle_session_ok (fuel : nat) (e : Event) (g : Globals F) :
  (4 <= fuel)%nat -> session_ok g ->
  exists g', handle fuel e g = Some (tt, g') /\ session_ok g'.
Proof.
  intros Hfuel (Hbuf & Hhist & Hgen).
  destruct e as [note now|current_time seed_time| |now]; cbn [handle].
  - (* a note arrives *)
    destruct (LearningState_eqb (learning_state g) STATE_LEARNING) eqn:Hst.
    + assert (Hl : learning_state g = STATE_LEARNING)
        by (destruct (learning_state g); try discriminate; reflexivity).
      unfold note_on, bind at 1 2, gets at 1. rewrite Hl.
      cbn [LearningState_eqb orb]. unfold ret.
      destruct (Z.ltb_spec (note_buffer_count g) MAX_LEARN_NOTES) as [Hr|Hr].
      * rewrite add_note_to_buffer_eq
          by (try assumption; destruct Hbuf; auto; lia).
        eexists. split; [reflexivity|].
        destruct Hbuf as [Hlen Hcount]. unfold MAX_LEARN_NOTES in *.
        split; [|split].
        -- split; proj_simpl; unfold MAX_LEARN_NOTES;
             [now rewrite upd_length | lia].
        -- exact Hhist.
        -- proj_simpl. rewrite Hl. discriminate.
      * rewrite add_note_to_buffer_skip by (right; assumption).
        exists g. split; [reflexivity|]. exact (conj Hbuf (conj Hhist Hgen)).
    + assert (Hl : learning_state g <> STATE_LEARNING)
        by (intros E; rewrite E in Hst; discriminate).
      rewrite note_on_eq by (auto; apply Hbuf).
      eexists. split; [reflexivity|].
      split; [|split].
      * split; proj_simpl;
          [rewrite upd_length; apply Hbuf | unfold MAX_LEARN_NOTES; lia].
      * exact Hhist.
      * proj_simpl. discriminate.
  - (* the timeout is checked *)
    destruct (LearningState_eqb (learning_state g) STATE_LEARNING) eqn:Hst;
      [destruct (session_complete current_time g) eqn:Hc|].
    + assert (Hl : learning_state g = STATE_LEARNING)
        by (destruct (learning_state g); try discriminate; reflexivity).
      destruct (update_learning_state_completes current_time seed_time g
                  Hl Hbuf (proj1 Hhist) Hc)
        as (t & g' & Ht & Hrun & Hs & _ & Hb & Hn & Htd & _ & _ & _ & _
            & Hh & Hhc & Hhi & _).
      exists g'. split; [exact Hrun|].
      split; [|split].
      * unfold buffer_ok. rewrite Hb, Hn. exact Hbuf.
      * unfold history_ok, NOTE_HISTORY_SIZE. rewrite Hh, Hhc, Hhi, Htd.
        repeat apply conj; try reflexivity; try lia.
        apply (tendencies_of_notes_bins _ _ Ht).
      * intros _. split.
        -- rewrite Hn. apply (session_complete_min _ _ Hc).
        -- unfold learned_notes. rewrite Hb, Hn, Htd. exact Ht.
    + rewrite update_learning_state_waits by (right; assumption).
      exists g. split; [reflexivity|]. exact (conj Hbuf (conj Hhist Hgen)).
    + rewrite update_learning_state_waits.
      * exists g. split; [reflexivity|]. exact (conj Hbuf (conj Hhist Hgen)).
      * left. intros E. rewrite E in Hst. discriminate.
  - (* the encoder is clicked *)
    unfold encoder_click, bind, gets, modify.
    destruct (learning_state g) eqn:Hl; cbn [LearningState_eqb];
      (eexists; split; [reflexivity|]);
      (split; [|split]);
      try exact Hhist;
      try (split; proj_simpl; [apply Hbuf | unfold MAX_LEARN_NOTES; lia]);
      try (split; proj_simpl; apply Hbuf);
      proj_simpl; rewrite ?Hl; discriminate.
  - (* a trigger arrives *)
    unfold note_trigger, bind at 1, gets at 1.
    destruct (LearningState_eqb (learning_state g) STATE_GENERATING
              && (note_buffer_count g >=? MIN_LEARN_NOTES)).
    + destruct (generate_next_note_spec fuel now g Hhist Hfuel)
        as (note & g' & Hrun & _ & Hok' & Hsame & _).
      unfold bind, modify. rewrite Hrun.
      eexists. split; [reflexivity|].
      destruct Hsame as (_ & Hs & Hb & Hn & _ & Ht & _).
      split; [|split].
      * unfold buffer_ok. proj_simpl. rewrite Hb, Hn. exact Hbuf.
      * exact Hok'.
      * proj_simpl. unfold learned_notes. proj_simpl.
        rewrite Hs, Hb, Hn, Ht. exact Hgen.
    + exists g. split; [reflexivity|]. exact (conj Hbuf (conj Hhist Hgen)).
Qed.

Lemma initial_globals_ok (params : ParamIndex -> F) :
  session_ok (initial_globals params).
Proof.
  split; [|split].
  - split; [reflexivity | unfold MAX_LEARN_NOTES; cbn; lia].
  - unfold history_ok, NOTE_HISTORY_SIZE. cbn.
    repeat apply conj; try reflexivity; lia.
  - cbn. discriminate.
Qed.

(** X1. From power-on, whatever the controls and whatever notes, timeout
    checks, clicks and triggers arrive in whatever order, the firmware
    never accesses an array out of bounds, and it keeps its invariant: the
    buffer count and the history index and count stay in range, and while
    GENERATING the buffer holds at least 4 notes and the tendencies are
    the analysis of the notes in the buffer. *)
Theorem session_invariant (fuel : nat) (params : ParamIndex -> F)
    (es : list Event) :
  (4 <= fuel)%nat ->
  exists g',
    run_events fuel es (initial_globals params) = Some (tt, g') /\
    session_ok g'.
Proof.
  intros Hfuel.
  assert (Hgen : forall g, session_ok g ->
            exists g', run_events fuel es g = Some (tt, g') /\ session_ok g').
  { induction es as [|e es IH]; intros g Hok.
    - exists g. split; [reflexivity | assumption].
    - destruct (handle_session_ok fuel e g Hfuel Hok) as (g1 & Hrun1 & Hok1).
      destruct (IH g1 Hok1) as (g' & Hrun & Hok').
      exists g'. split; [|assumption].
      cbn [run_events]. unfold bind. now rewrite Hrun1. }
  apply Hgen, initial_globals_ok.
Qed.

End SessionInvariant.

Lemma session_invariant_witness :
  (4 <= 4)%nat /\
  exists g',
    run_events 4
      [EvNoteOn 60 0; EvNoteOn 62 100; EvNoteOn 64 200; EvNoteOn 67 300;
       EvTick 20000 20001; EvTrigger 20100; EvClick]
      (initial_globals (F:=spec_float) (fun _ => flit 1 2)) = Some (tt, g') /\
    session_ok g'.
Proof.
  split; [lia|].
  exact (session_invariant 4 (fun _ => flit 1 2)
           [EvNoteOn 60 0; EvNoteOn 62 100; EvNoteOn 64 200; EvNoteOn 67 300;
            EvTick 20000 20001; EvTrigger 20100; EvClick] (le_n 4)).
Defined.
(** ** More on the analysis *)

Section AnalysisMore.

Context {F : Type} `{FloatOps F}.

Lemma fold_register_bounds (notes : list Z) :
  forall rmin rmax (s : F),
    let '(rmin', rmax', _) := fold_left register_acc notes (rmin, rmax, s) in
    (rmin' = rmin \/ In rmin' notes) /\ rmin' <= rmin /\
    (rmax' = rmax \/ In rmax' notes) /\ rmax <= rmax' /\
    forall x, In x notes -> rmin' <= x <= rmax'.
Proof.
  induction notes as [|a notes IH]; intros rmin rmax s.
  - cbn. repeat split; auto; try lia; try contradiction.
  - cbn [fold_left]. unfold register_acc at 2.
    specialize (IH (if a <? rmin then a else rmin)
                   (if a >? rmax then a else rmax) (s + f_of_Z a)%fl).
    destruct (fold_left register_acc notes _) as [[rmin' rmax'] s'].
    destruct IH as (Hmin & Hle & Hmax & Hge & Hall).
    destruct (Z.ltb_spec a rmin); destruct (Z.gtb_spec a rmax);
      (repeat apply conj;
       [ destruct Hmin as [->|?]; [|right; now right]; auto; right; now left
       | lia
       | destruct Hmax as [->|?]; [|right; now right]; auto; right; now left
       | lia
       | intros x [<-|Hx]; [lia | now apply Hall] ]).
Qed.

(** The scan ties the primary slot to the phrase: the histogram loop and
    the scan for the most common interval, composed. *)
Lemma tendencies_of_notes_spec (notes : list Z) :
  2 <= Z.of_nat (length notes) ->
  exists t : LearnedTendencies F,
    tendencies_of_notes notes = Some t /\
    (forall k, 0 <= k <= 12 ->
       nth (Z.to_nat k) (interval_counts t) 0
       = count_if (fun d => saturated d =? k) (intervals notes)) /\
    lowest_max (interval_counts t) (fun _ => True) (most_common_interval t) /\
    length (interval_counts t) = 13%nat /\
    total_intervals t = Z.of_nat (length notes) - 1 /\
    (register_min t = 127 \/ In (register_min t) notes) /\
    (register_max t = 0 \/ In (register_max t) notes) /\
    (forall x, In x notes -> register_min t <= x <= register_max t) /\
    register_center t
    = (snd (fold_left register_acc notes (127, 0, f_of_Z 0))
       / f_of_Z (Z.of_nat (length notes)))%fl.
Proof.
  intros Hn. unfold tendencies_of_notes.
  destruct (Z.ltb_spec (Z.of_nat (length notes)) 2) as [|_]; [lia|].
  pose proof (fold_register_bounds notes 127 0 (f_of_Z 0)) as Hreg.
  destruct (fold_left register_acc notes (127, 0, f_of_Z 0))
    as [[rmin rmax] note_sum].
  destruct Hreg as (Hmin & _ & Hmax & _ & Hall).
  destruct (histogram_of_intervals (intervals notes))
    as (counts & -> & Hlen & _ & Hnth & Hpos).
  destruct (common_scan_slots counts Hlen Hpos)
    as (mx & smx & most & sec & -> & Hmost & _).
  eexists. split; [reflexivity|].
  cbn [interval_counts most_common_interval total_intervals register_min
       register_max register_center snd].
  refine (conj Hnth (conj Hmost (conj Hlen (conj _
            (conj Hmin (conj Hmax (conj Hall eq_refl))))))).
  destruct notes as [|a rest]; [simpl in Hn; lia|].
  rewrite intervals_length. cbn [length]. lia.
Qed.

(** X7. After the analysis of two notes or more, [most_common_interval] is an
    interval size (saturated at 12) that occurs in the phrase, no size
    occurs more often, and every smaller size occurs less often. *)
Theorem most_common_interval_occurs (g : Globals F) :
  buffer_ok g -> 2 <= note_buffer_count g ->
  exists g',
    analyze_learned_notes g = Some g' /\
    let occurrences k :=
      count_if (fun d => saturated d =? k) (intervals (learned_notes g)) in
    let most := most_common_interval (tendencies g') in
    0 <= most <= 12 /\
    1 <= occurrences most /\
    forall k, 0 <= k <= 12 ->
      occurrences k <= occurrences most /\
      (k < most -> occurrences k < occurrences most).
Proof.
  intros Hok Hn.
  pose proof (learned_notes_length g Hok) as Hlen.
  destruct (tendencies_of_notes_spec (learned_notes g) ltac:(lia))
    as (t & Ht & Hnth & Hmost & Hbins & Htotal & _).
  exists (set_tendencies t g). split.
  { now rewrite analyze_learned_notes_eq, Ht. }
  cbn [tendencies set_tendencies]. cbv zeta.
  destruct Hmost as (Hrange & _ & Hall). rewrite Hbins in *.
  assert (Hm : 0 <= most_common_interval t <= 12) by lia.
  split; [exact Hm|].
  assert (Hcmp : forall k, 0 <= k <= 12 ->
    count_if (fun d => saturated d =? k) (intervals (learned_notes g))
    <= count_if (fun d => saturated d =? most_common_interval t)
         (intervals (learned_notes g)) /\
    (k < most_common_interval t ->
     count_if (fun d => saturated d =? k) (intervals (learned_notes g))
     < count_if (fun d => saturated d =? most_common_interval t)
         (intervals (learned_notes g)))).
  { intros k Hk. rewrite <- (Hnth k Hk), <- (Hnth _ Hm).
    apply Hall; [lia | exact I]. }
  split; [|exact Hcmp].
  (* some interval occurs, so the most frequent one does *)
  destruct (learned_notes g) as [|a [|b rest]] eqn:Hnotes;
    try (simpl in Hlen; lia).
  rewrite intervals_cons in *.
  pose proof (saturated_range (b - a)) as Hs.
  destruct (Hcmp (saturated (b - a)) Hs) as [Hle _].
  rewrite count_if_cons in Hle at 1. rewrite Z.eqb_refl in Hle.
  pose proof (count_if_nonneg (fun d => saturated d =? saturated (b - a))
                (intervals (b :: rest))). lia.
Qed.

(** X8. For MIDI notes (0..127), [register_min] and [register_max] are the
    lowest and the highest learned note. *)
Theorem register_bounds_exact (g : Globals F) :
  buffer_ok g -> 2 <= note_buffer_count g ->
  Forall (fun x => 0 <= x <= 127) (learned_notes g) ->
  exists g',
    analyze_learned_notes g = Some g' /\
    In (register_min (tendencies g')) (learned_notes g) /\
    In (register_max (tendencies g')) (learned_notes g) /\
    forall x, In x (learned_notes g) ->
      register_min (tendencies g') <= x <= register_max (tendencies g').
Proof.
  intros Hok Hn Hmidi.
  pose proof (learned_notes_length g Hok) as Hlen.
  destruct (tendencies_of_notes_spec (learned_notes g) ltac:(lia))
    as (t & Ht & _ & _ & _ & _ & Hmin & Hmax & Hall & _).
  exists (set_tendencies t g). split.
  { now rewrite analyze_learned_notes_eq, Ht. }
  cbn [tendencies set_tendencies].
  rewrite Forall_forall in Hmidi.
  destruct (learned_notes g) as [|a rest] eqn:Hnotes; [simpl in Hlen; lia|].
  pose proof (Hall a (or_introl eq_refl)) as Ha.
  pose proof (Hmidi a (or_introl eq_refl)) as Ha'.
  split; [|split; [|exact Hall]].
  - destruct Hmin as [E|Hin]; [|exact Hin].
    left. lia.
  - destruct Hmax as [E|Hin]; [|exact Hin].
    left. lia.
Qed.

End AnalysisMore.

Lemma most_common_interval_occurs_witness :
  buffer_ok (learned [60; 62; 64; 67; 69]) /\
  2 <= note_buffer_count (learned [60; 62; 64; 67; 69]) /\
  exists g',
    analyze_learned_notes (learned [60; 62; 64; 67; 69]) = Some g' /\
    1 <= count_if
           (fun d => saturated d =? most_common_interval (tendencies g'))
           (intervals (learned_notes (learned [60; 62; 64; 67; 69]))).
Proof.
  assert (Hok : buffer_ok (learned [60; 62; 64; 67; 69]))
    by (split; [reflexivity | split; vm_compute; congruence]).
  assert (Hn : 2 <= note_buffer_count (learned [60; 62; 64; 67; 69]))
    by (vm_compute; congruence).
  repeat (split; [assumption|]).
  destruct (most_common_interval_occurs (learned [60; 62; 64; 67; 69]) Hok Hn)
    as (g' & Hrun & _ & Hocc & _).
  exists g'. split; [exact Hrun | exact Hocc].
Defined.

Lemma register_bounds_exact_witness :
  buffer_ok (learned [64; 60; 67; 62]) /\
  2 <= note_buffer_count (learned [64; 60; 67; 62]) /\
  Forall (fun x => 0 <= x <= 127) (learned_notes (learned [64; 60; 67; 62])) /\
  exists g',
    analyze_learned_notes (learned [64; 60; 67; 62]) = Some g' /\
    In (register_min (tendencies g')) (learned_notes (learned [64; 60; 67; 62])) /\
    In (register_max (tendencies g')) (learned_notes (learned [64; 60; 67; 62])).
Proof.
  assert (Hok : buffer_ok (learned [64; 60; 67; 62]))
    by (split; [reflexivity | split; vm_compute; congruence]).
  assert (Hn : 2 <= note_buffer_count (learned [64; 60; 67; 62]))
    by (vm_compute; congruence).
  assert (Hmidi : Forall (fun x => 0 <= x <= 127)
                    (learned_notes (learned [64; 60; 67; 62]))).
  { change (learned_notes (learned [64; 60; 67; 62])) with [64; 60; 67; 62].
    repeat constructor; lia. }
  repeat (split; [assumption|]).
  destruct (register_bounds_exact (learned [64; 60; 67; 62]) Hok Hn Hmidi)
    as (g' & Hrun & Hmin & Hmax & _).
  exists g'. auto.
Defined.
(** *** Where generation starts *)

Lemma fold_register_sum_exact (notes : list Z) :
  forall rmin rmax (s : Q),
    snd (fold_left register_acc notes (rmin, rmax, s))
    == s + inject_Z (Zsum notes).
Proof.
  induction notes as [|a notes IH]; intros rmin rmax s.
  - unfold Zsum; cbn [fold_left fold_right snd].
    change (inject_Z 0) with 0%Q. lra.
  - cbn [fold_left]. unfold register_acc at 2. rewrite IH.
    cbn [f_add f_of_Z Exact]. unfold Zsum; cbn [fold_right].
    rewrite inject_Z_plus. lra.
Qed.

Lemma Zsum_bounds (notes : list Z) (lo hi : Z) :
  (forall x, In x notes -> lo <= x <= hi) ->
  Z.of_nat (length notes) * lo <= Zsum notes <= Z.of_nat (length notes) * hi.
Proof.
  induction notes as [|a notes IH]; intros Hall.
  - cbn. lia.
  - unfold Zsum in *; cbn [fold_right length].
    pose proof (Hall a (or_introl eq_refl)).
    specialize (IH (fun x Hx => Hall x (or_intror Hx))). nia.
Qed.

Lemma Q_trunc_bounds (q : Q) (a b : Z) :
  0 <= a -> (inject_Z a <= q <= inject_Z b)%Q -> a <= Q_trunc q <= b.
Proof.
  intros Ha [Hlo Hhi]. destruct q as [num den].
  unfold Qle, inject_Z in Hlo, Hhi. cbn [Qnum Qden] in Hlo, Hhi.
  unfold Q_trunc; cbn [Qnum Qden].
  assert (Hnum : 0 <= num) by nia.
  rewrite Z.quot_div_nonneg by lia.
  split.
  - apply Z.div_le_lower_bound; lia.
  - apply Z.div_le_upper_bound; lia.
Qed.

(** X6. Over exact arithmetic: when a learning session completes, generation
    starts from a note between the lowest and the highest note of the
    learned phrase (the integer part of their mean). *)
Theorem generation_starts_in_register (g : Globals Q)
    (current_time seed_time : Z) :
  learning_state g = STATE_LEARNING ->
  buffer_ok g ->
  length (note_history g) = 8%nat ->
  session_complete current_time g = true ->
  Forall (fun x => 0 <= x <= 255) (learned_notes g) ->
  exists g',
    update_learning_state current_time seed_time g = Some (tt, g') /\
    learning_state g' = STATE_GENERATING /\
    current_note g' = Q_trunc (register_center (tendencies g')) /\
    register_min (tendencies g') <= current_note g'
      <= register_max (tendencies g') /\
    previous_note g' = current_note g'.
Proof.
  intros Hst Hok Hhist Hc Hnotes.
  pose proof (learned_notes_length g Hok) as Hlen.
  pose proof (session_complete_min _ _ Hc) as Hmin4.
  unfold MIN_LEARN_NOTES in Hmin4.
  destruct (update_learning_state_completes current_time seed_time g
              Hst Hok Hhist Hc)
    as (t & g' & Ht & Hrun & Hs & _ & _ & _ & Htd & Hcur & Hprev & _).
  destruct (tendencies_of_notes_spec (F:=Q) (learned_notes g) ltac:(lia))
    as (t' & Ht' & _ & _ & _ & _ & Hmin & Hmax & Hall & Hcenter).
  rewrite Ht in Ht'. injection Ht' as <-.
  exists g'. split; [exact Hrun|]. split; [exact Hs|].
  rewrite Htd, Hcur, Hprev.
  rewrite Forall_forall in Hnotes.
  assert (Hlo : 0 <= register_min t).
  { destruct Hmin as [->|Hin]; [lia | apply (Hnotes _ Hin)]. }
  assert (Hhi : register_max t <= 255).
  { destruct Hmax as [->|Hin]; [lia | apply (Hnotes _ Hin)]. }
  assert (Hq : (inject_Z (register_min t) <= register_center t
                <= inject_Z (register_max t))%Q).
  { rewrite Hcenter. cbn [f_div f_of_Z Exact].
    rewrite fold_register_sum_exact.
    pose proof (Zsum_bounds (learned_notes g) _ _ Hall) as Hsum.
    rewrite Hlen in *.
    assert (Hn : (0 < inject_Z (note_buffer_count g))%Q).
    { change 0%Q with (inject_Z 0). rewrite <- Zlt_Qlt. lia. }
    change (inject_Z 0) with 0%Q. rewrite Qplus_0_l.
    split.
    - apply Qle_shift_div_l; [exact Hn|].
      rewrite <- inject_Z_mult, <- Zle_Qle. lia.
    - apply Qle_shift_div_r; [exact Hn|].
      rewrite <- inject_Z_mult, <- Zle_Qle. lia. }
  pose proof (Q_trunc_bounds _ _ _ Hlo Hq) as Htr.
  assert (Hcast : cast_uint8 (register_center t)
                  = Q_trunc (register_center t)).
  { unfold cast_uint8, cast_uint32. cbn [f_trunc Exact].
    change (2 ^ 32 - 1) with 4294967295.
    rewrite Z.mod_small; lia. }
  rewrite Hcast. repeat split; lia.
Qed.

Lemma generation_starts_in_register_witness :
  learning_state learning_exact = STATE_LEARNING /\
  buffer_ok learning_exact /\
  length (note_history learning_exact) = 8%nat /\
  session_complete 20000 learning_exact = true /\
  Forall (fun x => 0 <= x <= 255) (learned_notes learning_exact) /\
  exists g',
    update_learning_state 20000 20001 learning_exact = Some (tt, g') /\
    register_min (tendencies g') <= current_note g'
      <= register_max (tendencies g').
Proof.
  assert (Hst : learning_state learning_exact = STATE_LEARNING)
    by reflexivity.
  assert (Hok : buffer_ok learning_exact)
    by (split; [reflexivity | split; vm_compute; congruence]).
  assert (Hhist : length (note_history learning_exact) = 8%nat)
    by reflexivity.
  assert (Hc : session_complete 20000 learning_exact = true)
    by (vm_compute; reflexivity).
  assert (Hnotes : Forall (fun x => 0 <= x <= 255)
                     (learned_notes learning_exact)).
  { change (learned_notes learning_exact) with [60; 62; 64; 67].
    repeat constructor; lia. }
  repeat (split; [assumption|]).
  destruct (generation_starts_in_register learning_exact 20000 20001
              Hst Hok Hhist Hc Hnotes)
    as (g' & Hrun & _ & _ & Hrange & _).
  exists g'. split; [exact Hrun | exact Hrange].
Defined.
(** ** The note history as a window on the generated notes *)

Lemma count_if_app (p : Z -> bool) (l1 l2 : list Z) :
  count_if p (l1 ++ l2) = count_if p l1 + count_if p l2.
Proof.
  unfold count_if. rewrite filter_app, length_app. lia.
Qed.

Lemma count_if_upd (p : Z -> bool) (n : nat) (v : Z) (l : list Z) :
  (n < length l)%nat ->
  count_if p (upd n v l)
  = count_if p l - (if p (nth n l 0) then 1 else 0) + (if p v then 1 else 0).
Proof.
  revert n; induction l as [|x l IH]; intros n Hn; simpl in Hn; [lia|].
  destruct n as [|n]; cbn [upd nth].
  - rewrite !count_if_cons. lia.
  - rewrite !count_if_cons, IH by lia. lia.
Qed.

Lemma skipn_nth_cons (n : nat) (l : list Z) :
  (n < length l)%nat -> skipn n l = nth n l 0 :: skipn (S n) l.
Proof.
  revert n; induction l as [|x l IH]; intros n Hn; simpl in Hn; [lia|].
  destruct n as [|n]; [reflexivity|].
  cbn [skipn nth]. apply IH. lia.
Qed.

Lemma lastn_snoc_short (l : list Z) (x : Z) :
  (length l < 8)%nat -> lastn 8 l = l /\ lastn 8 (l ++ [x]) = l ++ [x].
Proof.
  intros Hl. unfold lastn. rewrite length_app. cbn [length].
  replace (length l - 8)%nat with 0%nat by lia.
  replace (length l + 1 - 8)%nat with 0%nat by lia.
  split; reflexivity.
Qed.

Lemma lastn_snoc_full (l : list Z) (x : Z) :
  (8 <= length l)%nat ->
  lastn 8 l = nth (length l - 8) l 0 :: skipn (S (length l - 8)) l /\
  lastn 8 (l ++ [x]) = skipn (S (length l - 8)) l ++ [x].
Proof.
  intros Hl. unfold lastn. split.
  - apply skipn_nth_cons. lia.
  - rewrite length_app. cbn [length].
    replace (length l + 1 - 8)%nat with (S (length l - 8)) by lia.
    rewrite skipn_app.
    replace (S (length l - 8) - length l)%nat with 0%nat by lia.
    reflexivity.
Qed.

Section HistoryWindow.

Context {F : Type} `{FloatOps F}.

Lemma add_note_to_history_holds (l : list Z) (x : Z) (g : Globals F) :
  history_holds l g ->
  exists g',
    add_note_to_history x g = Some (tt, g') /\
    history_holds (l ++ [x]) g' /\
    tendencies g' = tendencies g.
Proof.
  intros (Hlen & Hidx & Hcount & Hslot & Hocc).
  set (len := Z.of_nat (length l)) in *.
  assert (Hlen0 : 0 <= len) by (subst len; lia).
  pose proof (Z.mod_pos_bound len 8 ltac:(lia)) as Hmod.
  unfold add_note_to_history. rewrite Hidx.
  rewrite arr_set_upd by (rewrite Hlen; lia).
  proj_simpl. rewrite Hidx, Hcount. unfold NOTE_HISTORY_SIZE.
  assert (Hlen' : Z.of_nat (length (l ++ [x])) = len + 1).
  { rewrite length_app. cbn [length]. subst len. lia. }
  assert (Hslot' : forall p, Z.max 0 (len + 1 - 8) <= p < len + 1 ->
    nth (Z.to_nat (p mod 8)) (upd (Z.to_nat (len mod 8)) x (note_history g)) 0
    = nth (Z.to_nat p) (l ++ [x]) 0).
  { intros p Hp. rewrite nth_upd by (rewrite Hlen; lia).
    destruct (Z.eq_dec p len) as [->|Hne].
    - rewrite Nat.eqb_refl. subst len. rewrite Nat2Z.id.
      now rewrite nth_middle.
    - assert (Hpm : p mod 8 <> len mod 8).
      { intros E. Z.div_mod_to_equations. lia. }
      pose proof (Z.mod_pos_bound p 8 ltac:(lia)).
      destruct (Nat.eqb_spec (Z.to_nat (p mod 8)) (Z.to_nat (len mod 8)));
        [lia|].
      rewrite app_nth1 by (subst len; lia).
      apply Hslot. lia. }
  assert (Hnext : (len + 1) mod 8 = (len mod 8 + 1) mod 8).
  { Z.div_mod_to_equations. lia. }
  destruct (Z.ltb_spec (Z.min len 8) 8) as [Hshort|Hfull];
    (eexists; split; [reflexivity|]); (split; [|reflexivity]);
    unfold history_holds; proj_simpl; rewrite Hlen', upd_length;
    (split; [exact Hlen|]); (split; [symmetry; exact Hnext|]);
    (split; [lia|]); (split; [exact Hslot'|]); intros c.
  - (* the history is filling up *)
    assert (Hl : (length l < 8)%nat) by (subst len; lia).
    destruct (lastn_snoc_short l x Hl) as [E1 E2]. rewrite E2.
    specialize (Hocc c). rewrite Hcount, E1 in Hocc.
    replace (Z.min len 8) with len in * by lia.
    rewrite Z.mod_small by lia.
    replace (Z.to_nat (len + 1)) with (S (Z.to_nat len)) by lia.
    rewrite firstn_upd_snoc by (rewrite Hlen; lia).
    rewrite !count_if_app, Hocc. reflexivity.
  - (* the oldest note is overwritten *)
    assert (Hl : (8 <= length l)%nat) by (subst len; lia).
    destruct (lastn_snoc_full l x Hl) as [E1 E2]. rewrite E2.
    specialize (Hocc c). rewrite Hcount, E1 in Hocc.
    replace (Z.min len 8) with 8 in * by lia.
    change (Z.to_nat 8) with 8%nat in *.
    rewrite firstn_all2 in * by (rewrite ?upd_length, Hlen; lia).
    rewrite count_if_upd by (rewrite Hlen; lia).
    pose proof (Hslot (len - 8) ltac:(lia)) as Hold.
    replace ((len - 8) mod 8) with (len mod 8) in Hold
      by (Z.div_mod_to_equations; lia).
    replace (Z.to_nat (len - 8)) with (length l - 8)%nat in Hold
      by (subst len; lia).
    rewrite Hold.
    rewrite count_if_cons in Hocc. rewrite count_if_app, count_if_cons.
    unfold count_if at 3; cbn [filter length]. lia.
Qed.

(** X9. After any notes were pushed into a cleared history, the circular
    index is the number of pushes modulo 8, the count is that number
    capped at 8, and [count_in_history] answers, for every candidate, its
    number of occurrences among the last 8 notes pushed: the newest note
    overwrites the oldest and no older note is counted. *)
Theorem history_is_last_eight (l : list Z) (g : Globals F) :
  history_ok g ->
  note_history_count g = 0 -> note_history_index g = 0 ->
  exists g',
    push_all l g = Some (tt, g') /\
    note_history_index g' = Z.of_nat (length l) mod 8 /\
    note_history_count g' = Z.min (Z.of_nat (length l)) 8 /\
    forall c,
      count_in_history c g'
      = Some (count_if (fun x => x =? c) (lastn 8 l), g').
Proof.
  intros (Hlen & Hidx & Hcount & Hbins) Hc0 Hi0.
  assert (Hgen : forall l2 l1 g1,
            history_holds l1 g1 -> tendencies g1 = tendencies g ->
            exists g', push_all l2 g1 = Some (tt, g') /\
                       history_holds (l1 ++ l2) g' /\
                       tendencies g' = tendencies g).
  { induction l2 as [|x l2 IH]; intros l1 g1 Hh Ht.
    - exists g1. rewrite app_nil_r. auto.
    - destruct (add_note_to_history_holds l1 x g1 Hh) as (g2 & Hrun & Hh2 & Ht2).
      destruct (IH (l1 ++ [x]) g2 Hh2 ltac:(congruence))
        as (g' & Hrun' & Hh' & Ht').
      exists g'. cbn [push_all]. unfold bind. rewrite Hrun, Hrun'.
      rewrite <- app_assoc in Hh'. auto. }
  destruct (Hgen l [] g) as (g' & Hrun & Hh & Ht).
  { unfold history_holds. cbn [length Z.of_nat]. rewrite Hc0, Hi0.
    repeat apply conj; auto; intros; lia. }
  { reflexivity. }
  cbn [app] in Hh. destruct Hh as (Hlen' & Hidx' & Hcount' & _ & Hocc).
  exists g'. split; [exact Hrun|]. split; [exact Hidx'|].
  split; [exact Hcount'|].
  intros c.
  assert (Hok' : history_ok g').
  { unfold history_ok, NOTE_HISTORY_SIZE. rewrite Hidx', Hcount', Ht.
    pose proof (Z.mod_pos_bound (Z.of_nat (length l)) 8 ltac:(lia)).
    repeat apply conj; auto; lia. }
  destruct (count_in_history_spec c g' Hok') as [Hrun' _].
  rewrite Hrun', Hocc. reflexivity.
Qed.

End HistoryWindow.

Lemma history_is_last_eight_witness :
  history_ok generating /\
  note_history_count generating = 0 /\
  note_history_index generating = 0 /\
  exists g',
    push_all [60; 62; 64; 62; 60; 67; 69; 67; 64; 62] generating
    = Some (tt, g') /\
    note_history_index g' = 2 /\
    count_in_history 60 g' = Some (1, g').
Proof.
  assert (Hc : note_history_count generating = 0) by (vm_compute; reflexivity).
  assert (Hi : note_history_index generating = 0) by (vm_compute; reflexivity).
  split; [exact generating_history_ok|].
  repeat (split; [assumption|]).
  destruct (history_is_last_eight [60; 62; 64; 62; 60; 67; 69; 67; 64; 62]
              generating generating_history_ok Hc Hi)
    as (g' & Hrun & Hidx & _ & Hocc).
  exists g'. split; [exact Hrun|]. split; [exact Hidx | exact (Hocc 60)].
Defined.
(** ** The xorshift generator *)

Lemma lxor_bound (a b n : Z) :
  0 <= n -> 0 <= a < 2 ^ n -> 0 <= b < 2 ^ n -> 0 <= Z.lxor a b < 2 ^ n.
Proof.
  intros Hn Ha Hb.
  destruct (Z.eq_dec a 0) as [->|Ha0]; [rewrite Z.lxor_0_l; lia|].
  destruct (Z.eq_dec b 0) as [->|Hb0]; [rewrite Z.lxor_0_r; lia|].
  assert (Hnn : 0 <= Z.lxor a b) by (apply Z.lxor_nonneg; lia).
  split; [exact Hnn|].
  destruct (Z.eq_dec (Z.lxor a b) 0) as [->|Hne];
    [apply Z.pow_pos_nonneg; lia|].
  apply Z.log2_lt_pow2; [lia|].
  pose proof (Z.log2_lxor a b ltac:(lia) ltac:(lia)) as Hlog.
  assert (Hla : Z.log2 a < n) by (apply Z.log2_lt_pow2; lia).
  assert (Hlb : Z.log2 b < n) by (apply Z.log2_lt_pow2; lia).
  lia.
Qed.

Lemma u32_range (x : Z) : 0 <= u32 x < 2 ^ 32.
Proof. unfold u32. apply Z.mod_pos_bound. reflexivity. Qed.

Lemma shiftr_range (x k : Z) :
  0 <= k -> 0 <= x < 2 ^ 32 -> 0 <= Z.shiftr x k < 2 ^ 32.
Proof.
  intros Hk Hx. rewrite Z.shiftr_div_pow2 by assumption.
  pose proof (Z.pow_pos_nonneg 2 k ltac:(lia) Hk).
  split; [apply Z.div_pos; lia|].
  apply Z.le_lt_trans with x; [|lia].
  apply Z.div_le_upper_bound; [lia|]. nia.
Qed.

(** A word that equals itself shifted left (within 32 bits) is zero. *)
Lemma shl_fixed_zero (x k : Z) :
  0 < k -> x = u32 (Z.shiftl x k) -> x = 0.
Proof.
  intros Hk E. apply Z.bits_inj_0.
  assert (Hbits : forall n : nat, forall i, i < Z.of_nat n ->
            Z.testbit x i = false).
  { induction n as [|n IH]; intros i Hi.
    - apply Z.testbit_neg_r. lia.
    - destruct (Z.ltb_spec i 0); [now apply Z.testbit_neg_r|].
      rewrite E. unfold u32.
      destruct (Z.ltb_spec i 32).
      + rewrite Z.mod_pow2_bits_low by lia.
        rewrite Z.shiftl_spec by lia. apply IH. lia.
      + apply Z.mod_pow2_bits_high. lia. }
  intros i. apply (Hbits (Z.to_nat (i + 1))). lia.
Qed.

(** A 32-bit word that equals itself shifted right is zero. *)
Lemma shr_fixed_zero (x k : Z) :
  0 < k -> 0 <= x < 2 ^ 32 -> x = Z.shiftr x k -> x = 0.
Proof.
  intros Hk Hx E. apply Z.bits_inj_0.
  assert (Hhigh : forall i, 32 <= i -> Z.testbit x i = false).
  { intros i Hi. rewrite <- (Z.mod_small x (2 ^ 32)) by lia.
    apply Z.mod_pow2_bits_high. lia. }
  assert (Hbits : forall n : nat, forall i, 32 - Z.of_nat n <= i ->
            Z.testbit x i = false).
  { induction n as [|n IH]; intros i Hi.
    - apply Hhigh. lia.
    - destruct (Z.ltb_spec i 0); [now apply Z.testbit_neg_r|].
      rewrite E. rewrite Z.shiftr_spec by lia. apply IH. lia. }
  intros i. destruct (Z.ltb_spec i 0); [now apply Z.testbit_neg_r|].
  apply (Hbits 32%nat). lia.
Qed.

Lemma xorshift32_step_range (s : Z) :
  0 <= s < 2 ^ 32 -> 0 <= xorshift32_step s < 2 ^ 32.
Proof.
  intros Hs. unfold xorshift32_step.
  apply lxor_bound; [lia | | apply u32_range].
  apply lxor_bound; [lia | | apply shiftr_range; [lia|]];
    apply lxor_bound; try lia; try exact Hs; apply u32_range.
Qed.

(** X10. [xorshift32] keeps its state a 32-bit word, never turns a non-zero
    state into zero, and from the zero state never leaves it: then
    [random_float] returns zero for ever. *)
Theorem xorshift32_nonzero (s : Z) :
  0 <= s < 2 ^ 32 ->
  0 <= xorshift32_step s < 2 ^ 32 /\
  (xorshift32_step s = 0 <-> s = 0).
Proof.
  intros Hs. split; [exact (xorshift32_step_range s Hs)|].
  unfold xorshift32_step.
  set (s1 := Z.lxor s (u32 (Z.shiftl s 13))).
  set (s2 := Z.lxor s1 (Z.shiftr s1 17)).
  assert (H1 : 0 <= s1 < 2 ^ 32).
  { apply lxor_bound; [lia | exact Hs | apply u32_range]. }
  split.
  - intros E3. apply Z.lxor_eq in E3.
    apply shl_fixed_zero in E3; [|lia].
    unfold s2 in E3. apply Z.lxor_eq in E3.
    apply shr_fixed_zero in E3; [|lia|exact H1].
    unfold s1 in E3. apply Z.lxor_eq in E3.
    apply shl_fixed_zero in E3; [exact E3 | lia].
  - intros ->. reflexivity.
Qed.

Lemma xorshift32_nonzero_witness :
  0 <= 12345 < 2 ^ 32 /\
  0 <= xorshift32_step 12345 < 2 ^ 32 /\
  (xorshift32_step 12345 = 0 <-> 12345 = 0).
Proof.
  assert (Hs : 0 <= 12345 < 2 ^ 32) by (split; [lia | reflexivity]).
  split; [exact Hs | exact (xorshift32_nonzero 12345 Hs)].
Defined.

(** ** Sampling the interval histogram *)




Lemma Q_trunc_lt (q : Q) (b : Z) :
  (0 <= q)%Q -> (q < inject_Z b)%Q -> 0 <= Q_trunc q < b.
Proof.
  intros Hlo Hhi. destruct q as [num den].
  unfold Qle, Qlt, inject_Z in *. cbn [Qnum Qden] in *.
  unfold Q_trunc; cbn [Qnum Qden].
  rewrite Z.quot_div_nonneg by lia.
  split.
  - apply Z.div_pos; lia.
  - apply Z.div_lt_upper_bound; lia.
Qed.


(** ** Phrase tracking *)

Section Phrase.

Context {F : Type} `{FloatOps F}.

Lemma generate_next_note_phrase (fuel : nat) (now : Z) (g : Globals F) :
  history_ok g -> (4 <= fuel)%nat ->
  exists note g',
    generate_next_note fuel now g = Some (note, g') /\
    phrase_target_length g'
    = cast_int (f_of_Z 4 + phrase_param g * f_of_Z 28)%fl /\
    (phrase_note_count g' = phrase_note_count g + 1 \/
     phrase_note_count g' = 0 /\
     phrase_target_length g' <= phrase_note_count g + 1) /\
    (phrase_note_count g + 1 < phrase_target_length g' ->
     phrase_note_count g' = phrase_note_count g + 1).
Proof.
  intros Hok Hfuel.
  unfold generate_next_note.
  unfold bind at 1, gets at 1. unfold bind at 1, gets at 1.
  unfold bind at 1, modify at 1.
  set (g1 := set_phrase_target_length _ g).
  assert (Hok1 : history_ok g1) by exact Hok.
  assert (Hpasses : (Z.to_nat (MAX_ATTEMPTS - 0) <= fuel)%nat).
  { change (Z.to_nat (MAX_ATTEMPTS - 0)) with 4%nat. exact Hfuel. }
  assert (H0 : 0 <= 0 <= 127) by lia.
  destruct (draws_candidate_loop (motion_bias g) fuel 0 0 Hpasses H0 g1 Hok1)
    as ([c a] & s & Hloop & Hc).
  unfold bind at 1. rewrite Hloop. subst g1.
  destruct Hok as (Hlen & Hidx & Hcount & Htend).
  unfold NOTE_HISTORY_SIZE in *.
  unfold bind at 1, add_note_to_history.
  proj_simpl.
  rewrite arr_set_upd by lia.
  unfold phrase_boundary, random_float, xorshift32, bind, gets, modify, ret.
  proj_simpl.
  set (target := cast_int (f_of_Z 4 + phrase_param g * f_of_Z 28)%fl).
  destruct (note_history_count g <? NOTE_HISTORY_SIZE); proj_simpl;
    (destruct (phrase_note_count g + 1 >=? target) eqn:Hreach;
     [ apply Z.geb_le in Hreach | rewrite Z.geb_leb in Hreach;
                                   apply Z.leb_gt in Hreach ]);
    try match goal with
    | |- context [if ?b then _ else _] => destruct b
    end;
    (eexists _, _; split; [reflexivity|]); proj_simpl;
    (split; [reflexivity|]);
    (split; [first [left; reflexivity | right; split; [reflexivity | lia]]|]);
    intros Hlt; first [reflexivity | lia].
Qed.

(** X15. The phrase boundary is soft but never early: a call of
    [generate_next_note] either counts one more note in the phrase or
    resets the count to 0, and it can reset only when the count has
    reached the target length it has just computed. *)
Theorem phrase_never_resets_early (fuel : nat) (now : Z) (g : Globals F) :
  history_ok g -> (4 <= fuel)%nat ->
  exists note g',
    generate_next_note fuel now g = Some (note, g') /\
    (phrase_note_count g' = phrase_note_count g + 1 \/
     phrase_note_count g' = 0 /\
     phrase_target_length g' <= phrase_note_count g + 1) /\
    (phrase_note_count g + 1 < phrase_target_length g' ->
     phrase_note_count g' = phrase_note_count g + 1).
Proof.
  intros Hok Hfuel.
  destruct (generate_next_note_phrase fuel now g Hok Hfuel)
    as (note & g' & Hrun & _ & Hstep & Hearly).
  exists note, g'. auto.
Qed.

End Phrase.

Lemma phrase_never_resets_early_witness :
  history_ok generating /\ (4 <= 4)%nat /\
  exists note g',
    generate_next_note 4 20100 generating = Some (note, g') /\
    (phrase_note_count generating + 1 < phrase_target_length g' ->
     phrase_note_count g' = phrase_note_count generating + 1).
Proof.
  split; [exact generating_history_ok|]. split; [lia|].
  destruct (phrase_never_resets_early 4 20100 generating
              generating_history_ok (le_n 4))
    as (note & g' & Hrun & _ & Hearly).
  exists note, g'. split; [exact Hrun | exact Hearly].
Defined.


(** ** The learning timeout *)

Lemma u32_elapsed (t d : Z) :
  0 <= d < 2 ^ 32 -> u32 (u32 (t + d) - t) = d.
Proof.
  intros Hd. unfold u32. rewrite Zminus_mod_idemp_l.
  replace (t + d - t) with d by ring. apply Z.mod_small. exact Hd.
Qed.


(** ** Pitch CV *)

(** X17. In binary32, for every [uint8_t] note, [midi_note_to_cv] followed by
    [cv_to_midi_note] gives, without any rounding error, the note clamped
    to 36..96 and raised by 24 semitones: the two conversions agree on
    1 V/octave but not on the reference (MIDI 36 at 0 V one way, MIDI 60
    at 0 V the other). *)
Theorem cv_round_trip (n : Z) :
  0 <= n <= 255 ->
  cv_to_midi_note (midi_note_to_cv (F:=spec_float) n)
  = b32_of_Z (Z.max 36 (Z.min 96 n) + 24) /\
  cast_int (cv_to_midi_note (midi_note_to_cv (F:=spec_float) n))
  = Z.max 36 (Z.min 96 n) + 24.
Proof.
  intros Hn.
  assert (Hall :
    forallb
      (fun n =>
         sf_eqb (cv_to_midi_note (midi_note_to_cv (F:=spec_float) n))
           (b32_of_Z (Z.max 36 (Z.min 96 n) + 24))
         && (cast_int (cv_to_midi_note (midi_note_to_cv (F:=spec_float) n))
             =? Z.max 36 (Z.min 96 n) + 24))
      (map Z.of_nat (seq 0 256)) = true)
    by (vm_compute; reflexivity).
  rewrite forallb_forall in Hall.
  assert (Hin : In n (map Z.of_nat (seq 0 256))).
  { apply in_map_iff. exists (Z.to_nat n). split; [lia|].
    apply in_seq. lia. }
  apply Hall in Hin. apply andb_true_iff in Hin as [Hf Hz].
  split; [now apply sf_eqb_eq | now apply Z.eqb_eq].
Qed.

Lemma cv_round_trip_witness :
  0 <= 60 <= 255 /\
  cast_int (cv_to_midi_note (midi_note_to_cv (F:=spec_float) 60)) = 84.
Proof.
  assert (Hn : 0 <= 60 <= 255) by lia.
  split; [exact Hn | exact (proj2 (cv_round_trip 60 Hn))].
Defined.


(** ** Clock input and gate output *)

Lemma Q_trunc_half (i : Z) :
  0 <= i -> Q_trunc (inject_Z i * (5 # 10)) = i / 2.
Proof.
  intros Hi. unfold Q_trunc, inject_Z, Qmult. cbn [Qnum Qden].
  change (Z.pos (1 * 10)) with 10.
  rewrite Z.quot_div_nonneg by lia.
  pose proof (Z.div_mod (i * 5) 10 ltac:(lia)).
  pose proof (Z.mod_pos_bound (i * 5) 10 ltac:(lia)).
  pose proof (Z.div_mod i 2 ltac:(lia)).
  pose proof (Z.mod_pos_bound i 2 ltac:(lia)).
  lia.
Qed.

Lemma Q_trunc_inject (z : Z) : Q_trunc (inject_Z z) = z.
Proof. unfold Q_trunc, inject_Z. cbn [Qnum Qden]. apply Z.quot_1_r. Qed.

(** X19. Over exact arithmetic: the gate opened for a generated note at clock
    reading [t] is still high [d] ms later (the 32-bit millisecond clock
    may have wrapped in between) exactly while [d] is less than the gate
    length: 50 ms when no clock interval has been measured, otherwise
    half the clock interval (rounded down), at least 20 and at most
    500 ms. The gate of an echoed note lasts 100 ms. *)
Theorem gate_pulse_length (t d : Z) (c : Timing Q) :
  0 <= clock_interval c < 2 ^ 32 ->
  0 <= d < 2 ^ 32 ->
  gate_out_state (update_gate (u32 (t + d)) (trigger_gate t c))
  = (d <? (if clock_interval c =? 0 then 50
           else Z.max 20 (Z.min 500 (clock_interval c / 2)))) /\
  gate_out_state (update_gate (u32 (t + d)) (echo_gate t c)) = (d <? 100).
Proof.
  intros Hi Hd.
  split.
  2: { unfold update_gate, echo_gate.
       cbn [gate_out_state gate_out_start_time gate_length_ms].
       rewrite u32_elapsed by exact Hd.
       change (cast_uint32 (F:=Q) (f_of_Z 100)) with 100.
       destruct (Z.geb_spec d 100); destruct (Z.ltb_spec d 100);
         try lia; reflexivity. }
  unfold update_gate, trigger_gate.
  cbn [gate_out_state gate_out_start_time gate_length_ms].
  rewrite u32_elapsed by exact Hd.
  set (len := if clock_interval c =? 0 then 50
              else Z.max 20 (Z.min 500 (clock_interval c / 2))).
  match goal with
  | |- context [cast_uint32 ?x] =>
      assert (Hlen : cast_uint32 x = len); [|rewrite Hlen]
  end.
  { unfold len, cast_uint32. change (2 ^ 32 - 1) with 4294967295.
    destruct (Z.eqb_spec (clock_interval c) 0) as [E|E].
    - rewrite E. reflexivity.
    - destruct (Z.gtb_spec (clock_interval c) 0) as [_|]; [|lia].
      cbv zeta. cbn [f_of_Z f_mul f_ltb f_trunc Exact].
      change (flit (F:=Q) 5 10) with (5 # 10)%Q.
      pose proof (Q_trunc_half (clock_interval c) ltac:(lia)) as Hhalf.
      pose proof (Z.div_mod (clock_interval c) 2 ltac:(lia)) as Hdm.
      pose proof (Z.mod_pos_bound (clock_interval c) 2 ltac:(lia)) as Hmod.
      change (2 ^ 32) with 4294967296 in Hi.
      q_cases;
        repeat match goal with
        | Hq : (_ < _)%Q |- _ =>
            unfold Qlt, Qmult, inject_Z in Hq; cbn [Qnum Qden] in Hq;
            change (Z.pos (1 * 10)) with 10 in Hq
        | Hq : (_ <= _)%Q |- _ =>
            unfold Qle, Qmult, inject_Z in Hq; cbn [Qnum Qden] in Hq;
            change (Z.pos (1 * 10)) with 10 in Hq
        end;
        rewrite ?Q_trunc_inject, ?Hhalf; lia. }
  destruct (Z.geb_spec d len); destruct (Z.ltb_spec d len);
    try lia; reflexivity.
Qed.

Lemma gate_pulse_length_witness :
  0 <= clock_interval
         (clock_pulse 1500 (clock_pulse 1000
            (initial_timing (F:=Q)))) < 2 ^ 32 /\
  0 <= 249 < 2 ^ 32 /\
  gate_out_state
    (update_gate (u32 (4294967200 + 249))
       (trigger_gate 4294967200
          (clock_pulse 1500 (clock_pulse 1000
             (initial_timing (F:=Q))))))
  = true.
Proof.
  set (c := clock_pulse 1500 _).
  assert (Hi : 0 <= clock_interval c < 2 ^ 32)
    by (split; vm_compute; congruence).
  assert (Hd : 0 <= 249 < 2 ^ 32) by (split; vm_compute; congruence).
  split; [exact Hi|]. split; [exact Hd|].
  rewrite (proj1 (gate_pulse_length 4294967200 249 c Hi Hd)).
  reflexivity.
Defined.


(** ** The control surface *)

Lemma vec_get_some {A} (a : list A) (i : Z) :
  0 <= i < Z.of_nat (length a) -> exists x, vec_get a i = Some x.
Proof.
  intros Hi. unfold vec_get.
  destruct (Z.leb_spec 0 i); [|lia].
  destruct (Z.ltb_spec i (Z.of_nat (length a))); [|lia].
  cbn [andb].
  destruct (nth_error a (Z.to_nat i)) eqn:E; [eauto|].
  apply nth_error_None in E. lia.
Qed.

Lemma vec_get_range {A} (a : list A) (i : Z) (x : A) :
  vec_get a i = Some x -> 0 <= i < Z.of_nat (length a).
Proof.
  unfold vec_get.
  destruct (Z.leb_spec 0 i); destruct (Z.ltb_spec i (Z.of_nat (length a)));
    cbn [andb]; try discriminate. lia.
Qed.

Lemma vec_set_ok {A} (a : list A) (i : Z) (v : A) :
  0 <= i < Z.of_nat (length a) ->
  vec_set a i v = Some (vec_upd (Z.to_nat i) v a).
Proof.
  intros Hi. unfold vec_set.
  destruct (Z.leb_spec 0 i); [|lia].
  destruct (Z.ltb_spec i (Z.of_nat (length a))); [|lia].
  reflexivity.
Qed.

Lemma vec_upd_length {A} (n : nat) (v : A) (a : list A) :
  length (vec_upd n v a) = length a.
Proof.
  revert n; induction a as [|x a IH]; intros [|n]; cbn; auto.
Qed.

Lemma nth_error_vec_upd {A} (n m : nat) (v : A) (a : list A) :
  nth_error (vec_upd n v a) m
  = if Nat.eqb m n then (if Nat.ltb n (length a) then Some v else None)
    else nth_error a m.
Proof.
  revert n m; induction a as [|x a IH]; intros n m.
  - cbn. destruct (Nat.eqb m n); destruct m, n; reflexivity.
  - destruct n as [|n], m as [|m]; cbn [vec_upd nth_error Nat.eqb length];
      try reflexivity.
    rewrite IH. destruct (Nat.eqb m n); [|reflexivity].
    change (S n <? S (length a))%nat with (n <? length a)%nat. reflexivity.
Qed.

Lemma vec_get_upd {A} (a : list A) (i k : Z) (v : A) :
  0 <= i < Z.of_nat (length a) ->
  vec_get (vec_upd (Z.to_nat i) v a) k
  = if k =? i then Some v else vec_get a k.
Proof.
  intros Hi. unfold vec_get. rewrite vec_upd_length.
  destruct (Z.eqb_spec k i) as [->|Hne].
  - destruct (Z.leb_spec 0 i); [|lia].
    destruct (Z.ltb_spec i (Z.of_nat (length a))); [|lia].
    cbn [andb]. rewrite nth_error_vec_upd, Nat.eqb_refl.
    destruct (Nat.ltb_spec (Z.to_nat i) (length a)); [reflexivity | lia].
  - destruct ((0 <=? k) && (k <? Z.of_nat (length a))) eqn:E; [|reflexivity].
    apply andb_true_iff in E as [E1 E2].
    apply Z.leb_le in E1. apply Z.ltb_lt in E2.
    rewrite nth_error_vec_upd.
    destruct (Nat.eqb_spec (Z.to_nat k) (Z.to_nat i)); [lia | reflexivity].
Qed.

Ltac panel_simpl :=
  cbn [parameters param_pickup_active pot_last_value pot_values
       set_parameters set_param_pickup_active set_pot_last_value
       set_pot_values fst snd].

Ltac vec_side := panel_simpl; rewrite ?vec_upd_length; lia.

Section Takeover.

Context {F : Type} `{FloatOps F} `{FloatLe F}.

Lemma soft_takeover_step_eq (readings : Z -> F) (page i : Z) (p : Panel F)
    (stored_value last_pot : F) (active : bool) :
  length (parameters p) = 16%nat ->
  length (param_pickup_active p) = 16%nat ->
  length (pot_last_value p) = 16%nat ->
  length (pot_values p) = 4%nat ->
  0 <= page < 4 -> 0 <= i < 4 ->
  vec_get (parameters p) (page * 4 + i) = Some stored_value ->
  vec_get (param_pickup_active p) (page * 4 + i) = Some active ->
  vec_get (pot_last_value p) (page * 4 + i) = Some last_pot ->
  let k := Z.to_nat (page * 4 + i) in
  let on := picked_up active stored_value last_pot (readings i) in
  soft_takeover_step readings page i p
  = Some {| parameters :=
              if on then vec_upd k (readings i) (parameters p)
              else parameters p;
            param_pickup_active :=
              if negb active && on
              then vec_upd k true (param_pickup_active p)
              else param_pickup_active p;
            pot_last_value := vec_upd k (readings i) (pot_last_value p);
            pot_values := vec_upd (Z.to_nat i) (readings i) (pot_values p) |}.
Proof.
  intros Hlp Hla Hll Hlv Hpage Hi Hs Ha Hl k on.
  assert (Hgo : forall b, b = on ->
    soft_takeover_step readings page i p
    = Some {| parameters :=
                if b then vec_upd k (readings i) (parameters p)
                else parameters p;
              param_pickup_active :=
                if negb active && b
                then vec_upd k true (param_pickup_active p)
                else param_pickup_active p;
              pot_last_value := vec_upd k (readings i) (pot_last_value p);
              pot_values :=
                vec_upd (Z.to_nat i) (readings i) (pot_values p) |});
    [|now apply Hgo].
  intros b Hb. unfold on, picked_up in Hb. subst k.
  unfold soft_takeover_step, PARAMS_PER_PAGE.
  rewrite vec_set_ok by lia. panel_simpl.
  rewrite Ha, Hs, Hl.
  rewrite vec_get_upd, Z.eqb_refl by lia.
  destruct active; cbn [negb orb andb] in *; subst b;
    [| destruct (f_abs (readings i - stored_value) <? PICKUP_THRESHOLD)%fl;
       cbn [orb];
       [| destruct (f_leb last_pot stored_value
                    && f_leb stored_value (readings i)); cbn [orb];
          [| destruct (f_leb stored_value last_pot
                       && f_leb (readings i) stored_value) ] ] ];
    repeat (progress (panel_simpl;
                      rewrite ?Ha, ?Hs, ?Hl;
                      rewrite ?vec_get_upd by vec_side;
                      rewrite ?Z.eqb_refl;
                      rewrite ?vec_set_ok by vec_side));
    reflexivity.
Qed.

End Takeover.
Section TakeoverLoop.

Context {F : Type} `{FloatOps F} `{FloatLe F}.

Lemma vec_get_if_upd {A} (b : bool) (a : list A) (i k : Z) (v : A) :
  0 <= i < Z.of_nat (length a) ->
  vec_get (if b then vec_upd (Z.to_nat i) v a else a) k
  = if (k =? i) && b then Some v else vec_get a k.
Proof.
  intros Hi. destruct b.
  - rewrite vec_get_upd by exact Hi. now rewrite andb_true_r.
  - now rewrite andb_false_r.
Qed.

Lemma soft_takeover_eq (readings : Z -> F) (page : Z) (p : Panel F) :
  length (parameters p) = 16%nat ->
  length (param_pickup_active p) = 16%nat ->
  length (pot_last_value p) = 16%nat ->
  length (pot_values p) = 4%nat ->
  0 <= page < 4 ->
  exists p',
    soft_takeover readings page p = Some p' /\
    (length (parameters p') = 16%nat /\
     length (param_pickup_active p') = 16%nat /\
     length (pot_last_value p') = 16%nat /\
     length (pot_values p') = 4%nat) /\
    (forall k, ~ page * 4 <= k < page * 4 + 4 ->
       vec_get (parameters p') k = vec_get (parameters p) k /\
       vec_get (param_pickup_active p') k
       = vec_get (param_pickup_active p) k /\
       vec_get (pot_last_value p') k = vec_get (pot_last_value p) k) /\
    (forall i stored_value last_pot active,
       0 <= i < 4 ->
       vec_get (parameters p) (page * 4 + i) = Some stored_value ->
       vec_get (param_pickup_active p) (page * 4 + i) = Some active ->
       vec_get (pot_last_value p) (page * 4 + i) = Some last_pot ->
       let on := picked_up active stored_value last_pot (readings i) in
       vec_get (parameters p') (page * 4 + i)
       = Some (if on then readings i else stored_value) /\
       vec_get (param_pickup_active p') (page * 4 + i) = Some on /\
       vec_get (pot_last_value p') (page * 4 + i) = Some (readings i) /\
       vec_get (pot_values p') i = Some (readings i)).
Proof.
  intros Hlp Hla Hll Hlv Hpage.
  pose (Inv := fun (j : Z) (q : Panel F) =>
    (length (parameters q) = 16%nat /\
     length (param_pickup_active q) = 16%nat /\
     length (pot_last_value q) = 16%nat /\
     length (pot_values q) = 4%nat) /\
    (forall k, ~ page * 4 <= k < page * 4 + j ->
       vec_get (parameters q) k = vec_get (parameters p) k /\
       vec_get (param_pickup_active q) k
       = vec_get (param_pickup_active p) k /\
       vec_get (pot_last_value q) k = vec_get (pot_last_value p) k) /\
    (forall i stored_value last_pot active,
       0 <= i < j ->
       vec_get (parameters p) (page * 4 + i) = Some stored_value ->
       vec_get (param_pickup_active p) (page * 4 + i) = Some active ->
       vec_get (pot_last_value p) (page * 4 + i) = Some last_pot ->
       vec_get (parameters q) (page * 4 + i)
       = Some (if picked_up active stored_value last_pot (readings i)
               then readings i else stored_value) /\
       vec_get (param_pickup_active q) (page * 4 + i)
       = Some (picked_up active stored_value last_pot (readings i)) /\
       vec_get (pot_last_value q) (page * 4 + i) = Some (readings i) /\
       vec_get (pot_values q) i = Some (readings i))).
  destruct (for_range_inv Inv (soft_takeover_step readings page) 4 0 p)
    as (p' & Hrun & Hinv).
  - unfold Inv. split; [auto|]. split; [auto|]. intros; lia.
  - intros j q Hj ((Hqp & Hqa & Hql & Hqv) & Hout & Hdone).
    assert (Hj4 : 0 <= j < 4) by lia.
    destruct (Hout (page * 4 + j) ltac:(lia)) as (Eqp & Eqa & Eql).
    destruct (vec_get_some (parameters p) (page * 4 + j) ltac:(lia))
      as (stored_value & Hs).
    destruct (vec_get_some (param_pickup_active p) (page * 4 + j)
                ltac:(lia)) as (active & Ha).
    destruct (vec_get_some (pot_last_value p) (page * 4 + j) ltac:(lia))
      as (last_pot & Hl).
    rewrite Hs in Eqp. rewrite Ha in Eqa. rewrite Hl in Eql.
    rewrite (soft_takeover_step_eq readings page j q stored_value last_pot
               active Hqp Hqa Hql Hqv Hpage Hj4 Eqp Eqa Eql).
    cbv zeta.
    remember (picked_up active stored_value last_pot (readings j)) as on
      eqn:Hon.
    eexists. split; [reflexivity|].
    unfold Inv. panel_simpl.
    split; [|split].
    + destruct on, active; cbn [negb andb];
        rewrite ?vec_upd_length; auto.
    + intros k Hk.
      rewrite !vec_get_if_upd by lia. rewrite vec_get_upd by lia.
      destruct (Z.eqb_spec k (page * 4 + j)) as [->|Hne]; [lia|].
      cbn [andb]. apply Hout. lia.
    + intros i sv lp ac Hi Hs' Ha' Hl'.
      rewrite !vec_get_if_upd by lia. rewrite !vec_get_upd by lia.
      destruct (Z.eq_dec i j) as [->|Hne].
      * rewrite Hs in Hs'. rewrite Ha in Ha'. rewrite Hl in Hl'.
        injection Hs' as <-. injection Ha' as <-. injection Hl' as <-.
        rewrite !Z.eqb_refl. cbn [andb]. rewrite <- Hon.
        rewrite Eqp, Eqa.
        destruct on, active; cbn [negb andb]; repeat split; try reflexivity.
        unfold picked_up in Hon. cbn [orb] in Hon. discriminate.
      * destruct (Z.eqb_spec (page * 4 + i) (page * 4 + j)); [lia|].
        destruct (Z.eqb_spec i j); [lia|]. cbn [andb].
        apply (Hdone i sv lp ac); auto. lia.
  - exists p'. split; [exact Hrun|].
    destruct Hinv as (Hlen & Hout & Hdone).
    split; [exact Hlen|]. split; [exact Hout|].
    intros i sv lp ac Hi Hs Ha Hl. cbv zeta.
    apply (Hdone i sv lp ac); auto.
Qed.

(** X23. The soft takeover never makes a parameter jump: a pass over the four
    pots changes a parameter only if it is on the page shown, only to the
    position of its pot, and only if the pot had already picked the
    parameter up, or is within the threshold of the stored value, or has
    passed the stored value since its last reading. Parameters of other
    pages keep their value, their pickup state and their last reading. *)
Theorem soft_takeover_no_jump (readings : Z -> F) (s : Globals F * Panel F) :
  panel_ok s ->
  exists p',
    soft_takeover readings (current_page (fst s)) (snd s) = Some p' /\
    panel_ok (fst s, p') /\
    forall k stored_value new_value,
      vec_get (parameters (snd s)) k = Some stored_value ->
      vec_get (parameters p') k = Some new_value ->
      new_value <> stored_value ->
      let i := k - current_page (fst s) * 4 in
      0 <= i < 4 /\
      new_value = readings i /\
      exists active last_pot,
        vec_get (param_pickup_active (snd s)) k = Some active /\
        vec_get (pot_last_value (snd s)) k = Some last_pot /\
        picked_up active stored_value last_pot (readings i) = true.
Proof.
  intros (Hlp & Hla & Hll & Hlv & Hpage). unfold NUM_PAGES in Hpage.
  destruct (soft_takeover_eq readings (current_page (fst s)) (snd s)
              Hlp Hla Hll Hlv Hpage)
    as (p' & Hrun & Hlen & Hout & Hdone).
  exists p'. split; [exact Hrun|].
  split.
  { unfold panel_ok, NUM_PAGES. cbn [fst snd]. tauto. }
  intros k stored_value new_value Hs Hn Hne. cbv zeta.
  set (page := current_page (fst s)) in *.
  pose proof (vec_get_range _ _ _ Hs) as Hk. rewrite Hlp in Hk.
  destruct (Z_lt_ge_dec k (page * 4)) as [Hlt|Hge];
    [|destruct (Z_lt_ge_dec k (page * 4 + 4)) as [Hlt|Hge']].
  - destruct (Hout k ltac:(lia)) as (E & _). congruence.
  - destruct (vec_get_some (param_pickup_active (snd s)) k ltac:(lia))
      as (active & Ha).
    destruct (vec_get_some (pot_last_value (snd s)) k ltac:(lia))
      as (last_pot & Hl).
    replace k with (page * 4 + (k - page * 4)) in Hs, Ha, Hl, Hn by ring.
    destruct (Hdone (k - page * 4) stored_value last_pot active
                ltac:(lia) Hs Ha Hl) as (Hp' & _).
    cbv zeta in Hp'. rewrite Hn in Hp'. injection Hp' as Hp'.
    destruct (picked_up active stored_value last_pot (readings (k - page * 4)))
      eqn:Hon; [|congruence].
    split; [lia|]. split; [exact Hp'|].
    exists active, last_pot.
    replace (page * 4 + (k - page * 4)) with k in Ha, Hl by ring.
    auto.
  - destruct (Hout k ltac:(lia)) as (E & _). congruence.
Qed.

End TakeoverLoop.
(** *** MIDI Control Change *)

Lemma ParamIndex_round_trip (k : ParamIndex) :
  ParamIndex_of_Z (ParamIndex_to_Z k) = Some k.
Proof. destruct k; reflexivity. Qed.

Lemma ParamIndex_to_Z_range (k : ParamIndex) : 0 <= ParamIndex_to_Z k < 16.
Proof. destruct k; cbn; lia. Qed.

Lemma ParamIndex_to_Z_inj (j k : ParamIndex) :
  ParamIndex_to_Z j = ParamIndex_to_Z k -> j = k.
Proof. destruct j, k; cbn; intros E; try reflexivity; discriminate. Qed.

Lemma param_upd_same {F} (k : ParamIndex) (v : F) (a : ParamIndex -> F) :
  param_upd k v a k = v.
Proof. unfold param_upd. now rewrite Z.eqb_refl. Qed.

Lemma param_upd_other {F} (j k : ParamIndex) (v : F) (a : ParamIndex -> F) :
  j <> k -> param_upd k v a j = a j.
Proof.
  intros Hne. unfold param_upd.
  destruct (Z.eqb_spec (ParamIndex_to_Z j) (ParamIndex_to_Z k)) as [E|];
    [|reflexivity].
  now apply ParamIndex_to_Z_inj in E.
Qed.

Lemma midi_cc_numbers_distinct (i j : Z) :
  0 <= i < 16 -> 0 <= j < 16 ->
  nth (Z.to_nat i) midi_cc_numbers 0 = nth (Z.to_nat j) midi_cc_numbers 0 ->
  i = j.
Proof.
  intros Hi Hj.
  assert (Hall : forallb (fun a =>
            forallb (fun b =>
              negb (nth a midi_cc_numbers 0 =? nth b midi_cc_numbers 0)
              || Nat.eqb a b) (seq 0 16)) (seq 0 16) = true)
    by reflexivity.
  rewrite forallb_forall in Hall.
  specialize (Hall (Z.to_nat i) ltac:(apply in_seq; lia)).
  rewrite forallb_forall in Hall.
  specialize (Hall (Z.to_nat j) ltac:(apply in_seq; lia)).
  intros E. rewrite E, Z.eqb_refl in Hall. cbn [negb orb] in Hall.
  apply Nat.eqb_eq in Hall. lia.
Qed.

Section ControlChange.

Context {F : Type} `{FloatOps F}.

Lemma control_change_loop_miss (cc_number cc_value : Z)
    (s : Globals F * Panel F) (n : nat) :
  forall i,
    0 <= i -> i + Z.of_nat n <= 16 ->
    (forall j, i <= j < i + Z.of_nat n ->
       nth (Z.to_nat j) midi_cc_numbers 0 <> cc_number) ->
    control_change_loop n i cc_number cc_value s = Some s.
Proof.
  induction n as [|n IH]; intros i Hi Hn Hmiss; [reflexivity|].
  cbn [control_change_loop].
  rewrite arr_get_nth by (cbn [midi_cc_numbers length]; lia).
  destruct (Z.eqb_spec cc_number (nth (Z.to_nat i) midi_cc_numbers 0))
    as [E|_].
  - exfalso. apply (Hmiss i); [lia | now symmetry].
  - apply IH; [lia | lia |]. intros j Hj. apply Hmiss. lia.
Qed.

Lemma control_change_loop_hit (cc_value : Z) (s : Globals F * Panel F)
    (k : ParamIndex) (n : nat) :
  length (parameters (snd s)) = 16%nat ->
  length (param_pickup_active (snd s)) = 16%nat ->
  forall i,
    0 <= i <= ParamIndex_to_Z k -> ParamIndex_to_Z k < i + Z.of_nat n ->
    control_change_loop n i
      (nth (Z.to_nat (ParamIndex_to_Z k)) midi_cc_numbers 0) cc_value s
    = Some (set_parameters_smoothed
              (param_upd k (f_of_Z cc_value / f_of_Z 127)%fl
                 (parameters_smoothed (fst s)))
              (fst s),
            set_param_pickup_active
              (vec_upd (Z.to_nat (ParamIndex_to_Z k)) false
                 (param_pickup_active (snd s)))
              (set_parameters
                 (vec_upd (Z.to_nat (ParamIndex_to_Z k))
                    (f_of_Z cc_value / f_of_Z 127)%fl (parameters (snd s)))
                 (snd s))).
Proof.
  intros Hlp Hla.
  pose proof (ParamIndex_to_Z_range k) as Hk.
  induction n as [|n IH]; intros i Hi Hn; [lia|].
  cbn [control_change_loop].
  rewrite arr_get_nth by (cbn [midi_cc_numbers length]; lia).
  destruct (Z.eqb_spec
              (nth (Z.to_nat (ParamIndex_to_Z k)) midi_cc_numbers 0)
              (nth (Z.to_nat i) midi_cc_numbers 0)) as [E|Hne].
  - apply midi_cc_numbers_distinct in E; [|lia|lia]. subst i.
    rewrite !vec_set_ok by lia.
    rewrite ParamIndex_round_trip. reflexivity.
  - apply IH; [|lia].
    destruct (Z.eq_dec i (ParamIndex_to_Z k)) as [->|]; [now elim Hne | lia].
Qed.

(** X21. A Control Change whose number is not one of the 16 of
    [midi_cc_numbers] changes nothing. The CC of a parameter sets the
    parameter and its smoothed value to [cc_value / 127] at once and
    deactivates its pickup, so that the pot has to catch up; every other
    parameter, the last pot readings and the page are left alone. *)
Theorem control_change_maps (cc_number cc_value : Z)
    (s : Globals F * Panel F) :
  panel_ok s ->
  (~ In cc_number midi_cc_numbers ->
   control_change cc_number cc_value s = Some s) /\
  (forall k,
     cc_number = nth (Z.to_nat (ParamIndex_to_Z k)) midi_cc_numbers 0 ->
     exists s',
       control_change cc_number cc_value s = Some s' /\
       panel_ok s' /\
       vec_get (parameters (snd s')) (ParamIndex_to_Z k)
       = Some (f_of_Z cc_value / f_of_Z 127)%fl /\
       parameters_smoothed (fst s') k = (f_of_Z cc_value / f_of_Z 127)%fl /\
       vec_get (param_pickup_active (snd s')) (ParamIndex_to_Z k)
       = Some false /\
       (forall j, j <> k ->
          vec_get (parameters (snd s')) (ParamIndex_to_Z j)
          = vec_get (parameters (snd s)) (ParamIndex_to_Z j) /\
          parameters_smoothed (fst s') j = parameters_smoothed (fst s) j /\
          vec_get (param_pickup_active (snd s')) (ParamIndex_to_Z j)
          = vec_get (param_pickup_active (snd s)) (ParamIndex_to_Z j)) /\
       pot_last_value (snd s') = pot_last_value (snd s) /\
       current_page (fst s') = current_page (fst s)).
Proof.
  intros (Hlp & Hla & Hll & Hlv & Hpage).
  split.
  - intros Hnot. unfold control_change.
    apply control_change_loop_miss; [lia | cbn; lia |].
    intros j Hj E. apply Hnot. rewrite <- E.
    apply nth_In. cbn [midi_cc_numbers length]. cbn in Hj. lia.
  - intros k ->. unfold control_change.
    pose proof (ParamIndex_to_Z_range k) as Hk.
    rewrite (control_change_loop_hit cc_value s k _ Hlp Hla 0)
      by (cbn; lia).
    eexists. split; [reflexivity|].
    unfold panel_ok. panel_simpl.
    cbn [current_page parameters_smoothed set_parameters_smoothed].
    rewrite !vec_upd_length.
    rewrite !vec_get_upd by lia. rewrite Z.eqb_refl.
    rewrite param_upd_same.
    repeat apply conj; auto; try tauto.
    intros j Hne.
    rewrite !vec_get_upd by lia.
    destruct (Z.eqb_spec (ParamIndex_to_Z j) (ParamIndex_to_Z k)) as [E|_].
    + now apply ParamIndex_to_Z_inj in E.
    + rewrite param_upd_other by exact Hne. auto.
Qed.

End ControlChange.
(** *** Page navigation *)

Section Pages.

Context {F : Type} `{FloatOps F}.

Lemma encoder_turn_eq (encoder_change : Z) (readings : Z -> F)
    (s : Globals F * Panel F) :
  panel_ok s -> encoder_change <> 0 ->
  exists page pa pl,
    encoder_turn encoder_change readings s
    = Some (set_page_change_timer 60 (set_current_page page (fst s)),
            set_pot_last_value pl
              (set_param_pickup_active pa (snd s))) /\
    0 <= page < 4 /\
    (encoder_change = 1 -> page = (current_page (fst s) + 1) mod 4) /\
    (encoder_change = -1 -> page = (current_page (fst s) - 1) mod 4) /\
    length pa = 16%nat /\ length pl = 16%nat /\
    (forall i, 0 <= i < 4 ->
       vec_get pa (page * 4 + i) = Some false /\
       vec_get pl (page * 4 + i) = Some (readings i)) /\
    (forall k, ~ page * 4 <= k < page * 4 + 4 ->
       vec_get pa k = vec_get (param_pickup_active (snd s)) k /\
       vec_get pl k = vec_get (pot_last_value (snd s)) k).
Proof.
  intros (Hlp & Hla & Hll & Hlv & Hpage) Hne. unfold NUM_PAGES in Hpage.
  unfold encoder_turn, NUM_PAGES, PARAMS_PER_PAGE.
  destruct (Z.eqb_spec encoder_change 0) as [|_]; [contradiction|].
  set (page := if current_page (fst s) + encoder_change <? 0 then 4 - 1
               else if current_page (fst s) + encoder_change >=? 4 then 0
                    else current_page (fst s) + encoder_change).
  assert (Hp : 0 <= page < 4).
  { unfold page.
    destruct (Z.ltb_spec (current_page (fst s) + encoder_change) 0); [lia|].
    destruct (Z.geb_spec (current_page (fst s) + encoder_change) 4); lia. }
  assert (Hup : encoder_change = 1 ->
                page = (current_page (fst s) + 1) mod 4).
  { intros ->. unfold page.
    destruct (Z.ltb_spec (current_page (fst s) + 1) 0); [lia|].
    destruct (Z.geb_spec (current_page (fst s) + 1) 4).
    - replace (current_page (fst s) + 1) with 4 by lia. reflexivity.
    - symmetry. apply Z.mod_small. lia. }
  assert (Hdown : encoder_change = -1 ->
                  page = (current_page (fst s) - 1) mod 4).
  { intros ->. unfold page.
    destruct (Z.ltb_spec (current_page (fst s) + -1) 0).
    - replace (current_page (fst s) - 1) with (-1) by lia. reflexivity.
    - destruct (Z.geb_spec (current_page (fst s) + -1) 4); [lia|].
      symmetry. replace (current_page (fst s) + -1)
        with (current_page (fst s) - 1) by ring.
      apply Z.mod_small. lia. }
  cbn [current_page set_page_change_timer set_current_page].
  change (Z.to_nat 4) with 4%nat. cbn [for_range].
  repeat (progress (panel_simpl;
                    rewrite ?vec_set_ok by vec_side;
                    cbv beta iota)).
  eexists page, _, _. split; [reflexivity|].
  split; [exact Hp|]. split; [exact Hup|]. split; [exact Hdown|].
  rewrite !vec_upd_length.
  split; [exact Hla|]. split; [exact Hll|].
  split.
  - intros i Hi.
    assert (Hcase : i = 0 \/ i = 0 + 1 \/ i = 0 + 1 + 1 \/ i = 0 + 1 + 1 + 1)
      by lia.
    destruct Hcase as [->|[->|[->| ->]]];
      repeat (rewrite vec_get_upd by vec_side);
      repeat match goal with
      | |- context [?a =? ?b] => destruct (Z.eqb_spec a b); try lia
      end; auto.
  - intros k Hk.
    repeat (rewrite vec_get_upd by vec_side);
      repeat match goal with
      | |- context [?a =? ?b] => destruct (Z.eqb_spec a b); try lia
      end; auto.
Qed.

(** X22. Turning the encoder always lands on one of the four pages, one
    detent moving cyclically through them (page 3 is followed by page 0,
    page 0 preceded by page 3). It shows the page overlay for 60 frames,
    changes no parameter value, and deactivates the pickup of the four
    parameters of the new page, whose last readings become the present
    positions of the pots; the other pages' pickup state is kept. *)
Theorem encoder_turn_pages (encoder_change : Z) (readings : Z -> F)
    (s : Globals F * Panel F) :
  panel_ok s -> encoder_change <> 0 ->
  exists s',
    encoder_turn encoder_change readings s = Some s' /\
    panel_ok s' /\
    (encoder_change = 1 ->
     current_page (fst s') = (current_page (fst s) + 1) mod 4) /\
    (encoder_change = -1 ->
     current_page (fst s') = (current_page (fst s) - 1) mod 4) /\
    page_change_timer (fst s') = 60 /\
    parameters (snd s') = parameters (snd s) /\
    parameters_smoothed (fst s') = parameters_smoothed (fst s) /\
    (forall i, 0 <= i < 4 ->
       vec_get (param_pickup_active (snd s'))
         (current_page (fst s') * 4 + i) = Some false /\
       vec_get (pot_last_value (snd s'))
         (current_page (fst s') * 4 + i) = Some (readings i)) /\
    (forall k,
       ~ current_page (fst s') * 4 <= k < current_page (fst s') * 4 + 4 ->
       vec_get (param_pickup_active (snd s')) k
       = vec_get (param_pickup_active (snd s)) k /\
       vec_get (pot_last_value (snd s')) k
       = vec_get (pot_last_value (snd s)) k).
Proof.
  intros Hok Hne.
  destruct (encoder_turn_eq encoder_change readings s Hok Hne)
    as (page & pa & pl & Hrun & Hp & Hup & Hdown & Hla & Hll & Hin & Hout).
  destruct Hok as (Hlp & _ & _ & Hlv & _).
  eexists. split; [exact Hrun|].
  unfold panel_ok, NUM_PAGES. panel_simpl.
  cbn [current_page page_change_timer parameters_smoothed
       set_page_change_timer set_current_page].
  repeat apply conj; auto; lia.
Qed.

End Pages.

(** *** Parameter smoothing *)

Lemma ParamIndex_of_Z_some (i : Z) :
  0 <= i < 16 -> exists k, ParamIndex_of_Z i = Some k /\ ParamIndex_to_Z k = i.
Proof.
  intros Hi.
  assert (Hcase : i = 0 \/ i = 1 \/ i = 2 \/ i = 3 \/ i = 4 \/ i = 5 \/ i = 6
                  \/ i = 7 \/ i = 8 \/ i = 9 \/ i = 10 \/ i = 11 \/ i = 12
                  \/ i = 13 \/ i = 14 \/ i = 15) by lia.
  repeat (destruct Hcase as [->|Hcase]; [eexists; split; reflexivity|]).
  subst i. eexists; split; reflexivity.
Qed.

Section Smoothing.

Context {F : Type} `{FloatOps F}.

Lemma smooth_parameters_eq (p : Panel F) (g : Globals F) :
  length (parameters p) = 16%nat ->
  exists g',
    smooth_parameters p g = Some g' /\
    g' = set_parameters_smoothed (parameters_smoothed g') g /\
    forall k target,
      vec_get (parameters p) (ParamIndex_to_Z k) = Some target ->
      parameters_smoothed g' k
      = (parameters_smoothed g k
         + SMOOTHING_COEFF * (target - parameters_smoothed g k))%fl.
Proof.
  intros Hlp.
  pose (Inv := fun (j : Z) (g1 : Globals F) =>
    g1 = set_parameters_smoothed (parameters_smoothed g1) g /\
    forall k,
      (ParamIndex_to_Z k < j ->
       forall target,
         vec_get (parameters p) (ParamIndex_to_Z k) = Some target ->
         parameters_smoothed g1 k
         = (parameters_smoothed g k
            + SMOOTHING_COEFF * (target - parameters_smoothed g k))%fl) /\
      (j <= ParamIndex_to_Z k ->
       parameters_smoothed g1 k = parameters_smoothed g k)).
  unfold smooth_parameters. change (Z.to_nat TOTAL_PARAMS) with 16%nat.
  match goal with
  | |- context [for_range 0 16 ?body g] =>
      destruct (for_range_inv Inv body 16 0 g) as (g' & Hrun & Hinv)
  end.
  - split; [now destruct g|]. intros k. split; [|reflexivity].
    pose proof (ParamIndex_to_Z_range k). lia.
  - intros j g1 Hj (Hsame & Hk).
    destruct (ParamIndex_of_Z_some j ltac:(lia)) as (kj & Hkj & Hidx).
    rewrite Hkj.
    destruct (vec_get_some (parameters p) j ltac:(lia)) as (target & Ht).
    rewrite Ht.
    eexists. split; [reflexivity|].
    split.
    + cbn [parameters_smoothed set_parameters_smoothed].
      match goal with
      | |- set_parameters_smoothed ?X g1 = _ => generalize X; intros v
      end.
      rewrite Hsame. reflexivity.
    + intros k. cbn [parameters_smoothed set_parameters_smoothed].
      destruct (Hk k) as (Hdone & Htodo).
      destruct (Hk kj) as (_ & Hkj').
      split.
      * intros Hlt target' Ht'.
        destruct (Z.eq_dec (ParamIndex_to_Z k) j) as [E|Hne].
        -- assert (k = kj) by (apply ParamIndex_to_Z_inj; lia). subst k.
           rewrite param_upd_same. rewrite Hidx in Ht'.
           rewrite Ht in Ht'. injection Ht' as <-.
           rewrite Hkj' by lia. reflexivity.
        -- rewrite param_upd_other by (intros ->; lia).
           apply Hdone; [lia | exact Ht'].
      * intros Hge. rewrite param_upd_other by (intros ->; lia).
        apply Htodo. lia.
  - exists g'. split; [exact Hrun|].
    destruct Hinv as (Hsame & Hk). split; [exact Hsame|].
    intros k target Ht. apply (proj1 (Hk k)); [|exact Ht].
    pose proof (ParamIndex_to_Z_range k). lia.
Qed.

End Smoothing.

(** *** From power-on *)

Section PanelInvariant.

Context {F : Type} `{FloatOps F} `{FloatLe F}.

(** X25. When [main] enters its loop, the display is on page 0, whose four
    parameters are at the positions of the pots and picked up; the other
    parameters are at 0.5 (LEARN TIMEOUT at 0.158, ECHO at 0), not picked
    up, their last readings being the present positions of the pots; and
    every smoothed value equals its parameter, so that the smoothing is
    at rest. *)
Theorem power_on_state (readings : Z -> F) :
  exists s,
    power_on readings = Some s /\
    panel_ok s /\
    current_page (fst s) = 0 /\
    parameters (snd s)
    = [readings 0; readings 1; readings 2; readings 3;
       flit 5 10; flit 5 10; flit 5 10; flit 5 10;
       flit 5 10; flit 5 10; flit 5 10; flit 5 10;
       flit 158 1000; f_of_Z 0; flit 5 10; flit 5 10] /\
    (forall k,
       vec_get (parameters (snd s)) (ParamIndex_to_Z k)
       = Some (parameters_smoothed (fst s) k)) /\
    param_pickup_active (snd s)
    = [true; true; true; true; false; false; false; false;
       false; false; false; false; false; false; false; false] /\
    pot_last_value (snd s)
    = [readings 0; readings 1; readings 2; readings 3;
       readings 0; readings 1; readings 2; readings 3;
       readings 0; readings 1; readings 2; readings 3;
       readings 0; readings 1; readings 2; readings 3].
Proof.
  eexists. split; [vm_compute; reflexivity|].
  split; [repeat split; cbn; lia|].
  split; [reflexivity|]. split; [reflexivity|].
  split; [intros k; destruct k; reflexivity|].
  split; reflexivity.
Qed.

Lemma control_change_ok (cc_number cc_value : Z) (s : Globals F * Panel F) :
  panel_ok s ->
  exists s', control_change cc_number cc_value s = Some s' /\ panel_ok s'.
Proof.
  intros Hok. pose proof Hok as (Hlp & Hla & Hll & Hlv & Hpage).
  destruct (in_dec Z.eq_dec cc_number midi_cc_numbers) as [Hin|Hnot].
  - apply (In_nth _ _ 0) in Hin as (i & Hi & E).
    cbn [midi_cc_numbers length] in Hi.
    destruct (ParamIndex_of_Z_some (Z.of_nat i) ltac:(lia)) as (k & _ & Hk).
    unfold control_change.
    rewrite <- E. replace i with (Z.to_nat (ParamIndex_to_Z k)) by lia.
    rewrite (control_change_loop_hit cc_value s k _ Hlp Hla 0)
      by (pose proof (ParamIndex_to_Z_range k); cbn; lia).
    eexists. split; [reflexivity|].
    unfold panel_ok. panel_simpl. cbn [current_page set_parameters_smoothed].
    rewrite !vec_upd_length. auto.
  - exists s. split; [|exact Hok].
    unfold control_change.
    apply control_change_loop_miss; [lia | cbn; lia |].
    intros j Hj E. apply Hnot. rewrite <- E.
    apply nth_In. cbn [midi_cc_numbers length]. cbn in Hj. lia.
Qed.

Lemma panel_handle_ok (e : PanelEvent F) (s : Globals F * Panel F) :
  panel_ok s -> exists s', panel_handle e s = Some s' /\ panel_ok s'.
Proof.
  intros Hok. pose proof Hok as (Hlp & Hla & Hll & Hlv & Hpage).
  unfold NUM_PAGES in Hpage.
  destruct e as [cc_number cc_value|encoder_change readings|readings| |];
    cbn [panel_handle].
  - apply control_change_ok, Hok.
  - destruct (Z.eq_dec encoder_change 0) as [->|Hne].
    + exists s. split; [reflexivity | exact Hok].
    + destruct (encoder_turn_eq encoder_change readings s Hok Hne)
        as (page & pa & pl & Hrun & Hp & _ & _ & Hpa & Hpl & _).
      eexists. split; [exact Hrun|].
      unfold panel_ok, NUM_PAGES. panel_simpl.
      cbn [current_page set_page_change_timer set_current_page]. auto.
  - destruct (soft_takeover_eq readings (current_page (fst s)) (snd s)
                Hlp Hla Hll Hlv Hpage) as (p' & Hrun & Hlen & _).
    rewrite Hrun. eexists. split; [reflexivity|].
    unfold panel_ok, NUM_PAGES. cbn [fst snd]. tauto.
  - destruct (smooth_parameters_eq (snd s) (fst s) Hlp)
      as (g' & Hrun & Hsame & _).
    rewrite Hrun. eexists. split; [reflexivity|].
    unfold panel_ok. cbn [fst snd]. rewrite Hsame.
    cbn [current_page set_parameters_smoothed]. auto.
  - unfold encoder_click, bind, gets, modify.
    destruct (LearningState_eqb (learning_state (fst s)) STATE_GENERATING);
      (eexists; split; [reflexivity|]);
      unfold panel_ok, NUM_PAGES; cbn [fst snd];
      cbn [current_page set_learning_state set_note_buffer_count
           set_page_change_timer set_current_page];
      repeat apply conj; auto; lia.
Qed.

(** X26. From power-on, whatever the positions of the pots and whatever
    Control Changes, turns and clicks of the encoder, pot readings and
    smoothing passes follow in whatever order, the control surface never
    accesses an array out of bounds: the page stays one of the four and
    the arrays keep their sizes. *)
Theorem panel_invariant (readings : Z -> F) (es : list (PanelEvent F)) :
  exists s0 s',
    power_on readings = Some s0 /\
    panel_run es s0 = Some s' /\
    panel_ok s'.
Proof.
  assert (Hgen : forall s, panel_ok s ->
            exists s', panel_run es s = Some s' /\ panel_ok s').
  { induction es as [|e es IH]; intros s Hok.
    - exists s. split; [reflexivity | exact Hok].
    - destruct (panel_handle_ok e s Hok) as (s1 & Hrun1 & Hok1).
      destruct (IH s1 Hok1) as (s' & Hrun & Hok').
      exists s'. split; [|exact Hok'].
      cbn [panel_run]. now rewrite Hrun1. }
  assert (Hinit : exists s0, power_on readings = Some s0 /\ panel_ok s0).
  { eexists. split; [vm_compute; reflexivity|]. repeat split; cbn; lia. }
  destruct Hinit as (s0 & Hrun0 & Hok0).
  destruct (Hgen s0 Hok0) as (s' & Hrun & Hok').
  exists s0, s'. auto.
Qed.

End PanelInvariant.

Lemma panel_exact_ok : panel_ok panel_exact.
Proof. repeat split; vm_compute; congruence. Qed.

Lemma soft_takeover_no_jump_witness :
  panel_ok panel_exact /\
  exists p',
    soft_takeover (fun i => inject_Z (i + 2) / 5)%Q
      (current_page (fst panel_exact)) (snd panel_exact) = Some p' /\
    panel_ok (fst panel_exact, p').
Proof.
  split; [exact panel_exact_ok|].
  destruct (soft_takeover_no_jump (fun i => inject_Z (i + 2) / 5)%Q
              panel_exact panel_exact_ok)
    as (p' & Hrun & Hok & _).
  exists p'. split; [exact Hrun | exact Hok].
Defined.

Lemma control_change_maps_witness :
  panel_ok panel_exact /\
  21 = nth (Z.to_nat (ParamIndex_to_Z PARAM_ENERGY)) midi_cc_numbers 0 /\
  exists s',
    control_change 21 127 panel_exact = Some s' /\
    parameters_smoothed (fst s') PARAM_ENERGY = (127 / 127)%Q.
Proof.
  assert (Hcc : 21 = nth (Z.to_nat (ParamIndex_to_Z PARAM_ENERGY))
                       midi_cc_numbers 0) by reflexivity.
  split; [exact panel_exact_ok|]. split; [exact Hcc|].
  destruct (proj2 (control_change_maps 21 127 panel_exact panel_exact_ok)
              PARAM_ENERGY Hcc)
    as (s' & Hrun & _ & _ & Hsm & _).
  exists s'. split; [exact Hrun | exact Hsm].
Defined.

Lemma encoder_turn_pages_witness :
  panel_ok panel_exact /\ -1 <> 0 /\
  exists s',
    encoder_turn (-1) (fun i => inject_Z (i + 1) / 5)%Q panel_exact = Some s' /\
    current_page (fst s') = 3.
Proof.
  assert (Hne : -1 <> 0) by discriminate.
  split; [exact panel_exact_ok|]. split; [exact Hne|].
  destruct (encoder_turn_pages (-1) (fun i => inject_Z (i + 1) / 5)%Q
              panel_exact panel_exact_ok Hne)
    as (s' & Hrun & _ & _ & Hdown & _).
  exists s'. split; [exact Hrun | exact (Hdown eq_refl)].
Defined.

(** ** Octave displacement and direction *)

Section Octave.

Context {F : Type} `{FloatOps F}.

Lemma octave_displacement_cases (note : Z) (g : Globals F) :
  0 <= note <= 127 ->
  exists r s,
    apply_octave_displacement note g = Some (r, set_rng_state s g) /\
    (exists shift,
       r = Z.max 0 (Z.min 127 (note + shift)) /\
       (shift = 0 \/ shift = 12 \/ shift = -12 \/
        ((range_param g <? flit 1 2)%fl = false /\
         (shift = 24 \/ shift = -24)))) /\
    ((range_param g <? flit 1 10)%fl = true ->
     r = note /\ s = rng_state g).
Proof.
  intros Hnote.
  cbv beta iota delta [apply_octave_displacement bind gets ret random_float
                        xorshift32].
  cbn [rng_state set_rng_state].
  destruct (range_param g <? flit 1 10)%fl eqn:Hlow.
  { exists note, (rng_state g). rewrite set_rng_state_same.
    split; [reflexivity|]. split; [|auto].
    exists 0. split; [lia | auto]. }
  match goal with
  | |- context [if ?b then (fun g0 => Some (note, g0)) else _] =>
      destruct b;
        [ eexists note, _; split; [reflexivity|];
          split; [exists 0; split; [lia | auto] | discriminate] |]
  end.
  destruct (range_param g <? flit 1 2)%fl eqn:Hhalf;
    cbn [rng_state set_rng_state];
    repeat match goal with
    | |- context [if ?b then _ else _] => destruct b
    end;
    (eexists _, _; split; [reflexivity|]; split; [|discriminate]);
    rewrite Z.mod_small by lia;
    eexists; (split; [reflexivity|]); auto 6.
Qed.

(** X13. [apply_octave_displacement] returns the note itself or the note
    moved by one or two octaves and clamped to 0..127, two octaves only
    when the energy-adjusted RANGE WIDTH is at least 0.5. Below 0.1 it
    returns the note without drawing a random number. For notes between
    24 and 103 the clamp never acts, so the pitch class is kept; nearer
    to the ends of the MIDI range a displaced note can land on 0 or 127
    instead. *)
Theorem octave_displacement_shape (note : Z) (g : Globals F) :
  0 <= note <= 127 ->
  exists r s,
    apply_octave_displacement note g = Some (r, set_rng_state s g) /\
    (exists shift,
       r = Z.max 0 (Z.min 127 (note + shift)) /\
       (shift = 0 \/ shift = 12 \/ shift = -12 \/
        ((range_param g <? flit 1 2)%fl = false /\
         (shift = 24 \/ shift = -24)))) /\
    ((range_param g <? flit 1 10)%fl = true ->
     r = note /\ s = rng_state g) /\
    (24 <= note <= 103 -> (r - note) mod 12 = 0).
Proof.
  intros Hnote.
  destruct (octave_displacement_cases note g Hnote)
    as (r & s & Hrun & (shift & Hr & Hshift) & Hlow).
  exists r, s. split; [exact Hrun|]. split; [eauto|]. split; [exact Hlow|].
  intros Hmid. subst r.
  destruct Hshift as [->|[->|[->|[_ [->| ->]]]]];
    rewrite Z.max_r, Z.min_r by lia.
  - now replace (note + 0 - note) with 0 by ring.
  - now replace (note + 12 - note) with 12 by ring.
  - now replace (note + -12 - note) with (-12) by ring.
  - now replace (note + 24 - note) with 24 by ring.
  - now replace (note + -24 - note) with (-24) by ring.
Qed.

End Octave.

Lemma octave_displacement_shape_witness :
  0 <= 60 <= 127 /\
  exists r s,
    apply_octave_displacement 60 generating
    = Some (r, set_rng_state s generating) /\
    (r - 60) mod 12 = 0.
Proof.
  assert (Hnote : 0 <= 60 <= 127) by lia.
  split; [exact Hnote|].
  destruct (octave_displacement_shape 60 generating Hnote)
    as (r & s & Hrun & _ & _ & Hclass).
  exists r, s. split; [exact Hrun | apply Hclass; lia].
Defined.



(** ** The size of melodic leaps *)

Lemma Q_trunc_nonneg (q : Q) : (0 <= q)%Q -> 0 <= Q_trunc q.
Proof.
  intros Hq. destruct q as [num den].
  unfold Qle in Hq. cbn [Qnum Qden] in Hq.
  unfold Q_trunc; cbn [Qnum Qden].
  apply Z.quot_pos; lia.
Qed.

Lemma generate_candidate_leap (mb : Q) (g : Globals Q) :
  history_ok g ->
  (0 <= mb)%Q ->
  0 <= current_note g <= 127 ->
  exists c s,
    generate_candidate mb g = Some (c, set_rng_state s g) /\
    0 <= c <= 127 /\
    Z.abs (c - current_note g) <= 36 /\
    ((range_param g <? flit 1 10)%fl = true ->
     Z.abs (c - current_note g) <= 12).
Proof.
  intros Hok Hmb Hcn.
  unfold generate_candidate.
  unfold bind at 1.
  destruct (draws_select_interval g Hok) as (i & s1 & -> & Hi).
  (* the interval after the MOTION bias *)
  assert (Hadj : exists i' s2,
    (if (mb <? flit 1 2)%fl then
       let scale := (mb * f_of_Z 2)%fl in
       let interval_size := cast_int (f_of_Z i * scale + flit 1 2)%fl in
       if interval_size =? 0 then
         r <- random_float ;;
         ret (if (r >? flit 1 2)%fl then 1 else interval_size)
       else ret interval_size
     else
       let scale := ((mb - flit 1 2) * f_of_Z 2)%fl in
       let boost := cast_int (scale * f_of_Z 4)%fl in
       ret (Z.min (i + boost) 12)) (set_rng_state s1 g)
    = Some (i', set_rng_state s2 g) /\ 0 <= i' <= 12).
  { cbn [f_ltb f_mul f_add f_sub f_of_Z Exact].
    change (flit (F:=Q) 1 2) with (1 # 2)%Q.
    change (inject_Z 2) with 2%Q. change (inject_Z 4) with 4%Q.
    assert (Hiq : (0 <= inject_Z i <= 12)%Q).
    { change 0%Q with (inject_Z 0). change 12%Q with (inject_Z 12).
      rewrite <- !Zle_Qle. exact Hi. }
    destruct (Q_ltb_cases mb (1 # 2)) as [[-> Hlt]|[-> Hge]]; cbv zeta.
    - assert (Hq : 0 <= Q_trunc (inject_Z i * (mb * 2) + (1 # 2)) < 13).
      { set (iq := inject_Z i) in *. apply Q_trunc_lt.
        - nra.
        - change (inject_Z 13) with 13%Q. nra. }
      assert (Hcast : cast_int (F:=Q) (inject_Z i * (mb * 2) + (1 # 2))%Q
                      = Q_trunc (inject_Z i * (mb * 2) + (1 # 2))).
      { unfold cast_int. cbn [f_trunc Exact].
        change (2 ^ 31 - 1) with 2147483647.
        change (- 2 ^ 31) with (-2147483648). lia. }
      rewrite Hcast.
      destruct (Z.eqb_spec (Q_trunc (inject_Z i * (mb * 2) + (1 # 2))) 0)
        as [E|_].
      + unfold bind, random_float, xorshift32, ret.
        cbn [rng_state set_rng_state].
        eexists _, _. split; [reflexivity|].
        match goal with
        | |- context [if ?b then _ else _] => destruct b
        end; lia.
      + eexists _, s1. split; [reflexivity | lia].
    - assert (Hb : 0 <= cast_int (F:=Q) ((mb - (1 # 2)) * 2 * 4)%Q).
      { unfold cast_int. cbn [f_trunc Exact].
        pose proof (Q_trunc_nonneg ((mb - (1 # 2)) * 2 * 4) ltac:(lra)).
        change (2 ^ 31 - 1) with 2147483647.
        change (- 2 ^ 31) with (-2147483648). lia. }
      eexists _, s1. split; [reflexivity | lia]. }
  destruct Hadj as (i' & s2 & Hrun & Hi'). cbv zeta in Hrun.
  unfold bind at 1. rewrite Hrun.
  unfold bind at 1.
  destruct (draws_select_direction (set_rng_state s2 g) Hok)
    as (go_up & s3 & -> & _).
  unfold bind at 1, gets at 1.
  cbn [current_note set_rng_state].
  set (new_note := Z.max 0 (Z.min 127 _)).
  assert (Hn : 0 <= new_note <= 127) by (subst new_note; lia).
  assert (Hstep : Z.abs (new_note - current_note g) <= 12).
  { subst new_note. destruct go_up; lia. }
  rewrite (Z.mod_small new_note) by lia.
  unfold bind at 1.
  destruct (octave_displacement_cases new_note
              (set_rng_state s3 (set_rng_state s2 g)) Hn)
    as (r & s4 & -> & (shift & Hr & Hshift) & Hlow).
  unfold ret.
  assert (Hr127 : 0 <= r <= 127) by lia.
  rewrite Z.mod_small by lia.
  exists r, s4. split; [reflexivity|].
  split; [exact Hr127|].
  split.
  - destruct Hshift as [->|[->|[->|[_ [->| ->]]]]]; lia.
  - intros Hoff. destruct (Hlow Hoff) as [-> _]. exact Hstep.
Qed.

Lemma candidate_loop_leap (mb : Q) (fuel : nat) :
  (0 <= mb)%Q ->
  forall attempts c0 (g : Globals Q),
    (Z.to_nat (MAX_ATTEMPTS - attempts) <= fuel)%nat ->
    attempts < MAX_ATTEMPTS ->
    history_ok g ->
    0 <= current_note g <= 127 ->
    exists c a s,
      candidate_loop fuel mb c0 attempts g = Some ((c, a), set_rng_state s g) /\
      0 <= c <= 127 /\
      Z.abs (c - current_note g) <= 36 /\
      ((range_param g <? flit 1 10)%fl = true ->
       Z.abs (c - current_note g) <= 12).
Proof.
  intros Hmb. unfold MAX_ATTEMPTS.
  induction fuel as [|fuel IH]; intros attempts c0 g Hfuel Hatt Hok Hcn;
    [lia|].
  cbn [candidate_loop]. unfold MAX_ATTEMPTS.
  destruct (Z.ltb_spec attempts 4) as [_|]; [|lia].
  unfold bind at 1.
  destruct (generate_candidate_leap mb g Hok Hmb Hcn)
    as (c & s1 & -> & Hc & Hleap & Hlow).
  unfold bind at 1.
  destruct (draws_memory_bias c (set_rng_state s1 g) Hok)
    as (accepted & s2 & -> & _).
  destruct accepted.
  - exists c, attempts, s2. split; [reflexivity|]. auto.
  - destruct (Z_lt_ge_dec (attempts + 1) 4) as [Hmore|Hlast].
    + destruct (IH (attempts + 1) c
                  (set_rng_state s2 (set_rng_state s1 g))
                  ltac:(lia) Hmore Hok Hcn)
        as (c' & a' & s' & Hrun & Hres).
      exists c', a', s'. split; [exact Hrun | exact Hres].
    + exists c, (attempts + 1), s2. split; [|auto].
      destruct fuel; cbn [candidate_loop]; unfold MAX_ATTEMPTS;
        (destruct (Z.ltb_spec (attempts + 1) 4); [lia | reflexivity]).
Qed.

(** X14. Over exact arithmetic: a generated note is never more than 36
    semitones from the note before it (an interval of at most an octave,
    then at most two octaves of displacement), and never more than an
    octave when the energy-adjusted RANGE WIDTH is below 0.1. *)
Theorem melodic_leap_bounded (fuel : nat) (now : Z) (g : Globals Q) :
  history_ok g -> (4 <= fuel)%nat ->
  0 <= current_note g <= 127 ->
  exists note g',
    generate_next_note fuel now g = Some (note, g') /\
    Z.abs (note - current_note g) <= 36 /\
    ((range_param g <? flit 1 10)%fl = true ->
     Z.abs (note - current_note g) <= 12) /\
    last_interval g' = note - current_note g.
Proof.
  intros Hok Hfuel Hcn.
  unfold generate_next_note.
  unfold bind at 1, gets at 1. unfold bind at 1, gets at 1.
  unfold bind at 1, modify at 1.
  set (g1 := set_phrase_target_length _ g).
  assert (Hok1 : history_ok g1) by exact Hok.
  assert (Hmb : (0 <= motion_bias g)%Q).
  { rewrite motion_bias_eq. apply clamp01_range. }
  assert (Hpasses : (Z.to_nat (MAX_ATTEMPTS - 0) <= fuel)%nat).
  { change (Z.to_nat (MAX_ATTEMPTS - 0)) with 4%nat. exact Hfuel. }
  assert (Hfirst : 0 < MAX_ATTEMPTS) by reflexivity.
  destruct (candidate_loop_leap (motion_bias g) fuel Hmb 0 0 g1
              Hpasses Hfirst Hok1 Hcn)
    as (c & a & s & Hloop & Hc & Hleap & Hlow).
  unfold bind at 1. rewrite Hloop. subst g1.
  destruct Hok as (Hlen & Hidx & Hcount & Htend).
  unfold NOTE_HISTORY_SIZE in *.
  unfold bind at 1, add_note_to_history.
  proj_simpl.
  rewrite arr_set_upd by lia.
  unfold phrase_boundary, random_float, xorshift32, bind, gets, modify, ret.
  proj_simpl.
  destruct (note_history_count g <? NOTE_HISTORY_SIZE); proj_simpl;
    repeat match goal with
    | |- context [if ?b then _ else _] => destruct b
    end;
    (eexists _, _; split; [reflexivity|]); proj_simpl;
    (split; [exact Hleap|]); (split; [exact Hlow | reflexivity]).
Qed.

Lemma melodic_leap_bounded_witness :
  history_ok generating_exact /\ (4 <= 4)%nat /\
  0 <= current_note generating_exact <= 127 /\
  exists note g',
    generate_next_note 4 20100 generating_exact = Some (note, g') /\
    Z.abs (note - current_note generating_exact) <= 36.
Proof.
  assert (Hok : history_ok generating_exact)
    by (repeat split; vm_compute; congruence).
  assert (Hcn : 0 <= current_note generating_exact <= 127)
    by (split; vm_compute; congruence).
  split; [exact Hok|]. split; [lia|]. split; [exact Hcn|].
  destruct (melodic_leap_bounded 4 20100 generating_exact Hok (le_n 4) Hcn)
    as (note & g' & Hrun & Hleap & _).
  exists note, g'. split; [exact Hrun | exact Hleap].
Defined.
(** ** The main loop *)

Lemma main_loop_shows (n : nat) :
  forall (c : Z) (k : nat),
    0 <= c <= 34 -> (k < n)%nat ->
    nth k (fst (main_loop n c)) false
    = ((c + Z.of_nat k + 1) mod 35 =? 0).
Proof.
  induction n as [|n IH]; intros c k Hc Hk; [lia|].
  cbn [main_loop]. unfold main_loop_step.
  destruct (Z.gtb_spec c 33) as [Hlast|Hmore].
  - assert (c = 34) by lia. subst c.
    destruct (main_loop n 0) as [rest c'] eqn:Hrest. cbn [fst].
    destruct k as [|k]; [reflexivity|].
    cbn [nth].
    change rest with (fst (rest, c')). rewrite <- Hrest.
    rewrite IH by lia.
    replace (34 + Z.of_nat (S k) + 1) with (0 + Z.of_nat k + 1 + 1 * 35)
      by lia.
    now rewrite Z_mod_plus_full.
  - destruct (main_loop n (c + 1)) as [rest c'] eqn:Hrest. cbn [fst].
    destruct k as [|k].
    + cbn [nth Z.of_nat]. rewrite Z.mod_small by lia.
      symmetry. apply Z.eqb_neq. lia.
    + cbn [nth].
      change rest with (fst (rest, c')). rewrite <- Hrest.
      rewrite IH by lia. f_equal. f_equal. lia.
Qed.

(** X27. The loop of [main] updates the display on every 35th pass and on no
    other: the test [frame_counter++ > 33] lets the counter reach 34
    before it resets, so with 1 ms of delay per pass the display runs
    at 28.6 Hz at most. *)
Theorem display_every_35th_pass (n k : nat) :
  (k < n)%nat ->
  nth k (fst (main_loop n 0)) false = ((Z.of_nat k + 1) mod 35 =? 0).
Proof.
  intros Hk. rewrite main_loop_shows by lia. reflexivity.
Qed.

Lemma display_every_35th_pass_witness :
  (34 < 70)%nat /\
  nth 34 (fst (main_loop 70 0)) false = true.
Proof.
  assert (Hk : (34 < 70)%nat) by lia.
  split; [exact Hk|].
  rewrite (display_every_35th_pass 70 34 Hk). reflexivity.
Defined.
